(** * web-china-holidays: the calendar pipeline, embedded and verified

    A shallow embedding of the TypeScript sources
      - [src/lib/cache.ts]            (module [Cache]),
      - [src/lib/lunar-calendar.ts]   (module [LunarCalendar]),
      - [src/lib/extra-holidays.ts]   (module [ExtraHolidays]),
      - [src/lib/ics-parser.ts]       (module [IcsParser]),
      - [src/routes/+page.server.ts], [src/routes/+page.svelte] and
        [src/routes/calendars.ics/+server.ts] (module [Routes]),
    followed by the properties of the pipeline.

    Conventions of the embedding.
      - A JavaScript [number] that holds a year, a day count or a time value
        is a [Z]; [NaN] (an invalid [Date]) is [None].
      - A JavaScript string is a [string] of bytes (UTF-8).  All positions the
        code slices at are inside ASCII text, where bytes and UTF-16 code
        units coincide.
      - [undefined]/[null]/an omitted optional field is [None].
      - What the code takes from its platform and from third-party packages
        (the local time zone, the fallback of [Date.parse], the collation of
        [localeCompare], the lunar calendar tables of [lunar-javascript]) is
        gathered in the record [Host] and every function that depends on it
        takes the host as its first argument. *)

From Stdlib Require Import ZArith String Ascii List Lia DecimalString Permutation.
From Stdlib Require Import Sorted.
From Stdlib Require DecimalZ DecimalPos OrderedTypeEx.
From stdpp Require Import gmap strings list.

Open Scope string_scope.
Open Scope Z_scope.
Open Scope list_scope.

(* ================================================================== *)
(** * Part I. The embedding                                            *)
(* ================================================================== *)

(** ** JavaScript strings and numbers *)

Module JS.

(** [String(n)] / [`${n}`] for an integral number. *)
Definition numberToString (n : Z) : string :=
  NilZero.string_of_int (Z.to_int n).

(** [s.padStart(2, '0')]. *)
Definition padStart2 (s : string) : string :=
  match String.length s with
  | O => "00"
  | S O => "0" +:+ s
  | _ => s
  end.

(** [s.slice(a, b)] for [0 <= a <= b]. *)
Definition slice (a b : nat) (s : string) : string :=
  substring a (b - a) s.

(** [s.startsWith(p)]. *)
Definition startsWith (p s : string) : bool := String.prefix p s.

(** [s.includes(p)]. *)
Fixpoint includes (p s : string) : bool :=
  if String.prefix p s then true
  else match s with
       | EmptyString => false
       | String _ s' => includes p s'
       end.

(** [s.replace(/-/g, '')]. *)
Fixpoint removeHyphens (s : string) : string :=
  match s with
  | EmptyString => EmptyString
  | String c s' =>
      if Ascii.eqb c "-" then removeHyphens s' else String c (removeHyphens s')
  end.

(** [s.toLowerCase()] on ASCII letters (the only ones the wire format has in
    names). *)
Definition lowerAscii (c : ascii) : ascii :=
  let n := nat_of_ascii c in
  if ((65 <=? n) && (n <=? 90))%nat then ascii_of_nat (n + 32) else c.

Fixpoint toLowerCase (s : string) : string :=
  match s with
  | EmptyString => EmptyString
  | String c s' => String (lowerAscii c) (toLowerCase s')
  end.

(** Truthiness of a value of type [string | null | undefined]: the empty
    string is falsy. *)
Definition truthyString (o : option string) : bool :=
  match o with
  | Some s => negb (String.eqb s "")
  | None => false
  end.

(** Truthiness of a value of type [boolean | undefined]. *)
Definition truthyBool (o : option bool) : bool :=
  match o with
  | Some b => b
  | None => false
  end.

Definition isDigit (c : ascii) : bool :=
  let n := nat_of_ascii c in ((48 <=? n) && (n <=? 57))%nat.

Definition digitValue (c : ascii) : Z := Z.of_nat (nat_of_ascii c) - 48.

(** The value of a string of decimal digits; [None] when the string is empty
    or holds another character. *)
Fixpoint digitsValue (acc : Z) (s : string) : option Z :=
  match s with
  | EmptyString => Some acc
  | String c s' =>
      if isDigit c then digitsValue (10 * acc + digitValue c) s' else None
  end.

Definition parseDigits (s : string) : option Z :=
  match s with
  | EmptyString => None
  | _ => digitsValue 0 s
  end.

Definition isWhiteSpace (c : ascii) : bool :=
  let n := nat_of_ascii c in ((9 <=? n) && (n <=? 13) || (n =? 32))%nat.

Fixpoint skipWhiteSpace (s : string) : string :=
  match s with
  | EmptyString => EmptyString
  | String c s' => if isWhiteSpace c then skipWhiteSpace s' else s
  end.

(** The value of the longest run of digits at the front of [s], and whether
    there was a digit. *)
Fixpoint leadingDigits (acc : Z) (seen : bool) (s : string) : Z * bool :=
  match s with
  | EmptyString => (acc, seen)
  | String c s' =>
      if isDigit c then leadingDigits (10 * acc + digitValue c) true s'
      else (acc, seen)
  end.

(** [Number.parseInt(s, 10)]: white space (of ASCII), a sign, and digits
    as far as they go; [None] is [NaN]. *)
Definition parseInt (s : string) : option Z :=
  let s := skipWhiteSpace s in
  let '(negative, digits) :=
    match s with
    | String c s' =>
        if Ascii.eqb c "-" then (true, s')
        else if Ascii.eqb c "+" then (false, s')
        else (false, s)
    | EmptyString => (false, s)
    end in
  match leadingDigits 0 false digits with
  | (v, true) => Some (if negative then - v else v)
  | (_, false) => None
  end.

End JS.

(** ** The platform and the packages the code runs against *)

Record Host := {
  (** [LocalTZA]: the offset of the process's local time zone from UTC, in
      milliseconds (a fixed offset: daylight saving changes are not
      modelled). *)
  LocalTZA : Z;
  (** What [Date.parse] makes of a string that is not a valid date in the
      format [YYYY-MM-DD]: implementation-defined in ECMAScript. *)
  dateParseFallback : string -> option Z;
  (** [a.localeCompare(b)]: negative, zero or positive. *)
  localeCompare : string -> string -> Z;
  (** [Lunar.fromYmd(y, m, d).getSolar()] of the package [lunar-javascript]:
      the solar year, month and day, or [None] when the package throws or
      returns no date. *)
  lunarToSolarYmd : Z -> Z -> Z -> option (Z * Z * Z);
  (** [crypto.randomUUID()], by the number of the call. *)
  randomUUID : nat -> string
}.

(** ** ECMAScript [Date] (ECMA-262, section "Date Objects")

    Time values are integers of milliseconds since 1970-01-01T00:00:00Z.
    The bound of 8.64e15 ms on time values ([TimeClip]) is not modelled. *)

Module JSDate.

Definition msPerDay : Z := 86400000.

Definition Day (t : Z) : Z := t / msPerDay.
Definition TimeWithinDay (t : Z) : Z := t mod msPerDay.

Definition DaysInYear (y : Z) : Z :=
  if negb (y mod 4 =? 0) then 365
  else if negb (y mod 100 =? 0) then 366
  else if negb (y mod 400 =? 0) then 365
  else 366.

Definition DayFromYear (y : Z) : Z :=
  365 * (y - 1970) + (y - 1969) / 4 - (y - 1901) / 100 + (y - 1601) / 400.

(** [YearFromTime(t)]: the largest [y] with [TimeFromYear(y) <= t].  It is
    computed from an estimate that is off by at most one
    (lemma [YearFromDay_spec]). *)
Definition YearFromDay (d : Z) : Z :=
  let y := 1970 + (400 * d) / 146097 in
  if d <? DayFromYear y then y - 1
  else if DayFromYear (y + 1) <=? d then y + 1
  else y.

Definition YearFromTime (t : Z) : Z := YearFromDay (Day t).

Definition InLeapYear (t : Z) : Z :=
  if DaysInYear (YearFromTime t) =? 366 then 1 else 0.

Definition DayWithinYear (t : Z) : Z := Day t - DayFromYear (YearFromTime t).

(** The number of days of the year before month [m] (0 = January). *)
Definition daysBeforeMonth (leap : Z) (m : Z) : Z :=
  if m <=? 0 then 0
  else if m =? 1 then 31
  else if m =? 2 then 59 + leap
  else if m =? 3 then 90 + leap
  else if m =? 4 then 120 + leap
  else if m =? 5 then 151 + leap
  else if m =? 6 then 181 + leap
  else if m =? 7 then 212 + leap
  else if m =? 8 then 243 + leap
  else if m =? 9 then 273 + leap
  else if m =? 10 then 304 + leap
  else if m =? 11 then 334 + leap
  else 365 + leap.

Definition monthOfDayWithinYear (leap : Z) (d : Z) : Z :=
  if d <? 31 then 0
  else if d <? 59 + leap then 1
  else if d <? 90 + leap then 2
  else if d <? 120 + leap then 3
  else if d <? 151 + leap then 4
  else if d <? 181 + leap then 5
  else if d <? 212 + leap then 6
  else if d <? 243 + leap then 7
  else if d <? 273 + leap then 8
  else if d <? 304 + leap then 9
  else if d <? 334 + leap then 10
  else 11.

Definition MonthFromTime (t : Z) : Z :=
  monthOfDayWithinYear (InLeapYear t) (DayWithinYear t).

Definition DateFromTime (t : Z) : Z :=
  DayWithinYear t - daysBeforeMonth (InLeapYear t) (MonthFromTime t) + 1.

Definition WeekDay (t : Z) : Z := (Day t + 4) mod 7.

(** [MakeDay(year, month, date)]: [month] is zero-based and may overflow
    into the neighbouring years. *)
Definition MakeDay (year month date : Z) : Z :=
  let ym := year + month / 12 in
  let mn := month mod 12 in
  let leap := if DaysInYear ym =? 366 then 1 else 0 in
  DayFromYear ym + daysBeforeMonth leap mn + date - 1.

Definition MakeDate (day time : Z) : Z := day * msPerDay + time.

(** A [Date] object holds a time value or [NaN]. *)
Definition Date := option Z.

(** [new Date(year, monthIndex, day)]: local midnight of that day; a year
    from 0 to 99 stands for 1900 + year. *)
Definition ofComponents (h : Host) (year monthIndex day : Z) : Date :=
  let yr := if (0 <=? year) && (year <=? 99) then 1900 + year else year in
  Some (MakeDate (MakeDay yr monthIndex day) 0 - LocalTZA h).

(** The days of month [m] (1 = January) of [year]. *)
Definition daysInMonth (year m : Z) : Z :=
  if m =? 2 then (if DaysInYear year =? 366 then 29 else 28)
  else if (m =? 4) || (m =? 6) || (m =? 9) || (m =? 11) then 30
  else 31.

Definition validYmd (y m d : Z) : bool :=
  (0 <=? y) && (y <=? 9999) && (1 <=? m) && (m <=? 12)
  && (1 <=? d) && (d <=? daysInMonth y m).

(** The date-only form [YYYY-MM-DD] of the ECMAScript date-time string
    format, read as year, month and day. *)
Definition parseIsoDate (s : string) : option (Z * Z * Z) :=
  if (String.length s =? 10)%nat
     && String.eqb (JS.slice 4 5 s) "-" && String.eqb (JS.slice 7 8 s) "-"
  then
    match JS.parseDigits (JS.slice 0 4 s),
          JS.parseDigits (JS.slice 5 7 s),
          JS.parseDigits (JS.slice 8 10 s) with
    | Some y, Some m, Some d => Some (y, m, d)
    | _, _, _ => None
    end
  else None.

(** [new Date(s)] for a string: a valid [YYYY-MM-DD] is midnight UTC of that
    day; anything else is left to the implementation. *)
Definition ofString (h : Host) (s : string) : Date :=
  match parseIsoDate s with
  | Some (y, m, d) =>
      if validYmd y m d then Some (MakeDate (MakeDay y (m - 1) d) 0)
      else dateParseFallback h s
  | None => dateParseFallback h s
  end.

Definition LocalTime (h : Host) (t : Z) : Z := t + LocalTZA h.
Definition UTC (h : Host) (t : Z) : Z := t - LocalTZA h.

(** The getters; on an invalid date they return [NaN]. *)
Definition getFullYear (h : Host) (d : Date) : option Z :=
  option_map (fun t => YearFromTime (LocalTime h t)) d.
Definition getMonth (h : Host) (d : Date) : option Z :=
  option_map (fun t => MonthFromTime (LocalTime h t)) d.
Definition getDate (h : Host) (d : Date) : option Z :=
  option_map (fun t => DateFromTime (LocalTime h t)) d.
Definition getDay (h : Host) (d : Date) : option Z :=
  option_map (fun t => WeekDay (LocalTime h t)) d.
Definition getUTCFullYear (d : Date) : option Z := option_map YearFromTime d.
Definition getUTCMonth (d : Date) : option Z := option_map MonthFromTime d.
Definition getUTCDate (d : Date) : option Z := option_map DateFromTime d.
Definition getUTCHours (d : Date) : option Z :=
  option_map (fun t => TimeWithinDay t / 3600000) d.
Definition getUTCMinutes (d : Date) : option Z :=
  option_map (fun t => (TimeWithinDay t / 60000) mod 60) d.
Definition getUTCSeconds (d : Date) : option Z :=
  option_map (fun t => (TimeWithinDay t / 1000) mod 60) d.

(** [d.setDate(dt)]: the day of the month of the local date is replaced,
    the local time of day kept. *)
Definition setDate (h : Host) (d : Date) (dt : option Z) : Date :=
  match d, dt with
  | Some tv, Some n =>
      let t := LocalTime h tv in
      Some (UTC h (MakeDate (MakeDay (YearFromTime t) (MonthFromTime t) n)
                            (TimeWithinDay t)))
  | _, _ => None
  end.

(** [a < b] on dates: false when either is invalid. *)
Definition lt (a b : Date) : bool :=
  match a, b with
  | Some x, Some y => x <? y
  | _, _ => false
  end.

(** A number or [NaN] in a template literal. *)
Definition showNumber (n : option Z) : string :=
  match n with
  | Some z => JS.numberToString z
  | None => "NaN"
  end.

End JSDate.

(** ** [src/lib/cache.ts] *)

Module Cache.

Record CacheItem (T : Type) := { data : T; expiresAt : Z }.
Arguments data {T} _.
Arguments expiresAt {T} _.

Section WithValue.
Context {T : Type}.

(** [private store = new Map<string, CacheItem<unknown>>()]; the clock
    reading [Date.now()] of each call is its first argument. *)
Definition defaultTtl : Z := 3600000.

Definition set (now : Z) (key : string) (d : T) (ttl : Z)
    (store : gmap string (CacheItem T)) : gmap string (CacheItem T) :=
  let expiresAt := now + ttl in
  <[key := {| data := d; expiresAt := expiresAt |}]> store.

(** [get]: the value read ([None] is [null]) and the store after the call. *)
Definition get (now : Z) (key : string) (store : gmap string (CacheItem T))
    : option T * gmap string (CacheItem T) :=
  match store !! key with
  | None => (None, store)
  | Some item =>
      if now >? expiresAt item then (None, delete key store)
      else (Some (data item), store)
  end.

Definition cleanup (now : Z) (store : gmap string (CacheItem T))
    : gmap string (CacheItem T) :=
  filter (fun kv => negb (now >? expiresAt (snd kv)) = true) store.

Definition delete (key : string) (store : gmap string (CacheItem T))
    : gmap string (CacheItem T) :=
  base.delete key store.

Definition clear (store : gmap string (CacheItem T))
    : gmap string (CacheItem T) :=
  empty.

End WithValue.

End Cache.

(** ** [src/lib/lunar-calendar.ts] *)

Module LunarCalendar.

(** [lunarToSolar]: [None] when the conversion throws. *)
Definition lunarToSolar (h : Host) (lunarYear lunarMonth lunarDay : Z)
    : option string :=
  match lunarToSolarYmd h lunarYear lunarMonth lunarDay with
  | None => None
  | Some (year, m, d) =>
      let month := JS.padStart2 (JS.numberToString m) in
      let day := JS.padStart2 (JS.numberToString d) in
      Some (JS.numberToString year +:+ "-" +:+ month +:+ "-" +:+ day)
  end.

Inductive Festival :=
  | qixi | laba | xiaonian_north | xiaonian_south | longtaitou.

Record FestivalConfig := { month : Z; day : Z }.

Definition festivals (f : Festival) : FestivalConfig :=
  match f with
  | qixi => {| month := 7; day := 7 |}
  | laba => {| month := 12; day := 8 |}
  | xiaonian_north => {| month := 12; day := 23 |}
  | xiaonian_south => {| month := 12; day := 24 |}
  | longtaitou => {| month := 2; day := 2 |}
  end.

(** [getLunarFestivalDate]: [None] is [null]; a conversion that throws is
    caught and gives [null]. *)
Definition getLunarFestivalDate (h : Host) (festival : Festival) (year : Z)
    : option string :=
  let config := festivals festival in
  let lunarYear := if month config =? 12 then year - 1 else year in
  match lunarToSolar h lunarYear (month config) (day config) with
  | Some s => Some s
  | None => None
  end.

Definition getThanksgivingDate (h : Host) (year : Z) : string :=
  let nov1 := JSDate.ofComponents h year 10 1 in
  let dayOfWeek := JSDate.getDay h nov1 in
  let firstThursday :=
    match dayOfWeek with
    | Some dow => Some (if dow <=? 4 then 1 + (4 - dow) else 1 + (11 - dow))
    | None => None
    end in
  let thanksgiving := option_map (fun f => f + 21) firstThursday in
  JS.numberToString year +:+ "-11-"
    +:+ JS.padStart2 (JSDate.showNumber thanksgiving).

End LunarCalendar.

(** ** [src/lib/extra-holidays.ts] *)

Module ExtraHolidays.

Import LunarCalendar.

Inductive Category := western | internet | professional | traditional.

Record Holiday := {
  name : string;
  date : string;
  category : Category;
  description : option string
}.

Definition dquote : string := String (ascii_of_nat 34) EmptyString.

Definition fixedHoliday (year : Z) (n md : string) (c : Category) (d : string)
    : Holiday :=
  {| name := n; date := JS.numberToString year +:+ md;
     category := c; description := Some d |}.

Definition getFixedHolidays (year : Z) : list Holiday :=
  [ fixedHoliday year "情人节" "-02-14" western "西方情人节";
    fixedHoliday year "白色情人节" "-03-14" western "日韩传统回礼日";
    fixedHoliday year "愚人节" "-04-01" western "整蛊玩笑日";
    fixedHoliday year "万圣节" "-10-31" western "西方鬼节";
    fixedHoliday year "平安夜" "-12-24" western "圣诞节前夕";
    fixedHoliday year "圣诞节" "-12-25" western "西方圣诞节";
    fixedHoliday year "520" "-05-20" internet
      (dquote +:+ "我爱你" +:+ dquote +:+ "谐音日");
    fixedHoliday year "双11购物节" "-11-11" internet "光棍节/购物狂欢节";
    fixedHoliday year "双12购物节" "-12-12" internet "年终购物节";
    fixedHoliday year "妇女节" "-03-08" professional "国际妇女节";
    fixedHoliday year "青年节" "-05-04" professional "五四青年节";
    fixedHoliday year "儿童节" "-06-01" professional "国际儿童节";
    fixedHoliday year "教师节" "-09-10" professional "中国教师节" ].

Definition getFloatingHolidays (h : Host) (year : Z) : list Holiday :=
  [ {| name := "感恩节"; date := getThanksgivingDate h year;
       category := western; description := Some "美国感恩节" |} ].

(** One [if (d) holidays.push(...)] of [getLunarHolidays]. *)
Definition lunarHoliday (h : Host) (f : Festival) (year : Z) (n d : string)
    : list Holiday :=
  let resolved := getLunarFestivalDate h f year in
  if JS.truthyString resolved then
    match resolved with
    | Some dt => [ {| name := n; date := dt; category := traditional;
                      description := Some d |} ]
    | None => []
    end
  else [].

Definition getLunarHolidays (h : Host) (year : Z) : list Holiday :=
  lunarHoliday h qixi year "七夕节" "中国情人节"
  ++ lunarHoliday h laba year "腊八节" "农历腊月初八"
  ++ lunarHoliday h xiaonian_north year "小年（北方）" "农历腊月二十三"
  ++ lunarHoliday h xiaonian_south year "小年（南方）" "农历腊月二十四"
  ++ lunarHoliday h longtaitou year "龙抬头" "农历二月初二".

Definition getExtraHolidays (h : Host) (year : Z) : list Holiday :=
  getFixedHolidays year ++ getFloatingHolidays h year ++ getLunarHolidays h year.

(** The years [startYear, startYear + 1, ..., endYear] the [for] loop of
    [getExtraHolidaysForYears] runs through. *)
Definition yearsFromTo (startYear endYear : Z) : list Z :=
  map (fun i => startYear + Z.of_nat i)
      (seq 0 (Z.to_nat (endYear - startYear + 1))).

Definition getExtraHolidaysForYears (h : Host) (startYear endYear : Z)
    : list Holiday :=
  flat_map (getExtraHolidays h) (yearsFromTo startYear endYear).

End ExtraHolidays.

(** ** The package [ical.js], as far as [parseICS] uses it

    [ICAL.parse] followed by [new ICAL.Component], [getAllSubcomponents],
    [getFirstPropertyValue] and [new ICAL.Event], on the fragment of the
    iCalendar format that [generateICS] writes: content lines
    [NAME(;PARAM=value)*:value] with unquoted parameter values, nested
    [BEGIN]/[END] blocks, values of type [date] (eight digits), [text] and
    unknown type.  [None] stands for an exception of the package and for
    input outside this fragment alike. *)

Module ICAL.

Definition CR : ascii := ascii_of_nat 13.
Definition LF : ascii := ascii_of_nat 10.
Definition TAB : ascii := ascii_of_nat 9.
Definition SP : ascii := ascii_of_nat 32.
Definition CRLF : string := String CR (String LF EmptyString).

Definition isBlank (c : ascii) : bool := Ascii.eqb c SP || Ascii.eqb c TAB.

Definition isSpace (c : ascii) : bool :=
  isBlank c || Ascii.eqb c CR || Ascii.eqb c LF
  || Ascii.eqb c (ascii_of_nat 11) || Ascii.eqb c (ascii_of_nat 12).

(** The pieces of a buffer between line feeds. *)
Fixpoint splitLF (s : string) : list string :=
  match s with
  | EmptyString => [EmptyString]
  | String a s' =>
      if Ascii.eqb a LF then EmptyString :: splitLF s'
      else match splitLF s' with
           | [] => [String a EmptyString]
           | l :: ls => String a l :: ls
           end
  end.

(** A piece that ended in a line feed loses one carriage return before it. *)
Fixpoint stripCR (s : string) : string :=
  match s with
  | EmptyString => EmptyString
  | String a EmptyString => if Ascii.eqb a CR then EmptyString else s
  | String a s' => String a (stripCR s')
  end.

Fixpoint dropWhile (f : ascii -> bool) (s : string) : string :=
  match s with
  | EmptyString => EmptyString
  | String a s' => if f a then dropWhile f s' else s
  end.

Definition trim (s : string) : string :=
  String.rev (dropWhile isSpace (String.rev (dropWhile isSpace s))).

Definition startsBlank (s : string) : bool :=
  match s with
  | String a _ => isBlank a
  | EmptyString => false
  end.

Definition dropFirst (s : string) : string :=
  match s with
  | String _ s' => s'
  | EmptyString => EmptyString
  end.

Definition emit (line : string) : list string :=
  match line with
  | EmptyString => []
  | _ => [line]
  end.

(** [_eachLine]: a piece that starts with a blank continues the line before
    it, empty lines are passed over, the last line is trimmed.  The last
    piece is what follows the last line feed of the buffer. *)
Fixpoint unfoldLines (line : string) (pieces : list string) : list string :=
  match pieces with
  | [] => emit (trim line)
  | [p] =>
      match p with
      | EmptyString => emit (trim line)
      | _ => if startsBlank p then emit (trim (line +:+ dropFirst p))
             else emit line ++ emit (trim p)
      end
  | p :: ps =>
      if startsBlank p then unfoldLines (line +:+ dropFirst (stripCR p)) ps
      else emit line ++ unfoldLines (stripCR p) ps
  end.

Definition eachLine (buffer : string) : list string :=
  unfoldLines EmptyString (splitLF (dropWhile isBlank buffer)).

Record Property := {
  propName : string;
  propParams : list (string * string);
  propValue : string
}.

#[warnings="-register-all"]
Inductive Component :=
  | Comp (name : string) (props : list Property) (subs : list Component).

Definition compName (c : Component) : string :=
  match c with Comp n _ _ => n end.
Definition compProps (c : Component) : list Property :=
  match c with Comp _ p _ => p end.
Definition compSubs (c : Component) : list Component :=
  match c with Comp _ _ s => s end.

(** The text before the first [:] or [;], that delimiter, and the rest. *)
Fixpoint scanName (s : string) : option (string * ascii * string) :=
  match s with
  | EmptyString => None
  | String a s' =>
      if Ascii.eqb a ":" || Ascii.eqb a ";" then Some (EmptyString, a, s')
      else match scanName s' with
           | Some (n, d, r) => Some (String a n, d, r)
           | None => None
           end
  end.

(** The text before the first [=], and the rest. *)
Fixpoint scanParamName (s : string) : option (string * string) :=
  match s with
  | EmptyString => None
  | String a s' =>
      if Ascii.eqb a "=" then Some (EmptyString, s')
      else if Ascii.eqb a ":" || Ascii.eqb a ";" then None
      else match scanParamName s' with
           | Some (n, r) => Some (String a n, r)
           | None => None
           end
  end.

(** An unquoted parameter value: up to the next [;] or [:]. *)
Fixpoint scanParamValue (s : string) : option (string * ascii * string) :=
  match s with
  | EmptyString => None
  | String a s' =>
      if Ascii.eqb a ":" || Ascii.eqb a ";" then Some (EmptyString, a, s')
      else if Ascii.eqb a (ascii_of_nat 34) || Ascii.eqb a "^" then None
      else match scanParamValue s' with
           | Some (v, d, r) => Some (String a v, d, r)
           | None => None
           end
  end.

(** [_parseParameters], from just after a [;]: the parameters (names in
    lower case) and the property value after the [:]. *)
Fixpoint parseParameters (fuel : nat) (s : string)
    : option (list (string * string) * string) :=
  match fuel with
  | O => None
  | S fuel' =>
      match scanParamName s with
      | None => None
      | Some (EmptyString, _) => None
      | Some (n, r) =>
          match scanParamValue r with
          | None => None
          | Some (v, d, r') =>
              if Ascii.eqb d ":" then Some ([(JS.toLowerCase n, v)], r')
              else match parseParameters fuel' r' with
                   | Some (ps, value) => Some ((JS.toLowerCase n, v) :: ps, value)
                   | None => None
                   end
          end
      end
  end.

Inductive ContentLine :=
  | LBegin (name : string)
  | LEnd
  | LProp (p : Property).

(** [_handleContentLine]. *)
Definition parseContentLine (line : string) : option ContentLine :=
  match scanName line with
  | None => None
  | Some (n, d, r) =>
      let name := JS.toLowerCase n in
      if Ascii.eqb d ";" then
        match parseParameters (String.length r) r with
        | Some (params, value) =>
            Some (LProp {| propName := name; propParams := params;
                           propValue := value |})
        | None => None
        end
      else if String.eqb name "begin" then Some (LBegin (JS.toLowerCase r))
      else if String.eqb name "end" then Some LEnd
      else Some (LProp {| propName := name; propParams := [];
                          propValue := r |})
  end.

(** A component that has begun and not yet ended. *)
Record Frame := {
  frName : string;
  frProps : list Property;
  frSubs : list Component
}.

Record State := { roots : list Component; stack : list Frame }.

Definition closeFrame (f : Frame) : Component :=
  Comp (frName f) (frProps f) (frSubs f).

Definition handleLine (st : State) (line : string) : option State :=
  match parseContentLine line with
  | None => None
  | Some (LBegin n) =>
      Some {| roots := roots st;
              stack := {| frName := n; frProps := []; frSubs := [] |}
                       :: stack st |}
  | Some LEnd =>
      match stack st with
      | [] => None
      | [f] => Some {| roots := roots st ++ [closeFrame f]; stack := [] |}
      | f :: p :: rest =>
          Some {| roots := roots st;
                  stack := {| frName := frName p; frProps := frProps p;
                              frSubs := frSubs p ++ [closeFrame f] |}
                           :: rest |}
      end
  | Some (LProp p) =>
      match stack st with
      | [] => None
      | f :: rest =>
          Some {| roots := roots st;
                  stack := {| frName := frName f; frProps := frProps f ++ [p];
                              frSubs := frSubs f |} :: rest |}
      end
  end.

Fixpoint handleLines (st : State) (lines : list string) : option State :=
  match lines with
  | [] => Some st
  | l :: ls =>
      match handleLine st l with
      | Some st' => handleLines st' ls
      | None => None
      end
  end.

(** [new ICAL.Component(ICAL.parse(input))] for an input with one root
    component; a component left open is an error. *)
Definition parse (input : string) : option Component :=
  match handleLines {| roots := []; stack := [] |} (eachLine input) with
  | Some {| roots := [c]; stack := [] |} => Some c
  | _ => None
  end.

Definition getAllSubcomponents (c : Component) (n : string)
    : list Component :=
  List.filter (fun s => String.eqb (compName s) n) (compSubs c).

(** A property value as [getFirstPropertyValue] hands it out: a string, or
    an [ICAL.Time] with its [year], [month] and [day]. *)
Inductive Value :=
  | VString (s : string)
  | VTime (year month day : Z).

(** The default value types of the properties [parseICS] reads. *)
Definition defaultType (n : string) : string :=
  if String.eqb n "dtstart" || String.eqb n "dtend" then "date-time"
  else if String.eqb n "summary" || String.eqb n "uid" then "text"
  else "unknown".

Fixpoint lookupParam (n : string) (ps : list (string * string))
    : option string :=
  match ps with
  | [] => None
  | (k, v) :: ps' => if String.eqb k n then Some v else lookupParam n ps'
  end.

Definition valueType (p : Property) : string :=
  match lookupParam "value" (propParams p) with
  | Some v => JS.toLowerCase v
  | None => defaultType (propName p)
  end.

(** The unescaping of a [text] value: [\\], [\;], [\,], [\n] and [\N]. *)
Fixpoint unescapeText (s : string) : string :=
  match s with
  | EmptyString => EmptyString
  | String a s' =>
      if Ascii.eqb a "\" then
        match s' with
        | String b s'' =>
            if Ascii.eqb b "\" || Ascii.eqb b ";" || Ascii.eqb b ","
            then String b (unescapeText s'')
            else if Ascii.eqb b "n" || Ascii.eqb b "N"
            then String LF (unescapeText s'')
            else String a (unescapeText s')
        | EmptyString => s
        end
      else String a (unescapeText s')
  end.

Definition decodeValue (type raw : string) : option Value :=
  if String.eqb type "date" then
    if (String.length raw =? 8)%nat then
      let jcal := JS.slice 0 4 raw +:+ "-" +:+ JS.slice 4 6 raw
                  +:+ "-" +:+ JS.slice 6 8 raw in
      match JS.parseDigits (JS.slice 0 4 jcal),
            JS.parseDigits (JS.slice 5 7 jcal),
            JS.parseDigits (JS.slice 8 10 jcal) with
      | Some y, Some m, Some d =>
          if JSDate.validYmd y m d then Some (VTime y m d) else None
      | _, _, _ => None
      end
    else None
  else if String.eqb type "text" then Some (VString (unescapeText raw))
  else if String.eqb type "unknown" then Some (VString raw)
  else None.

(** [component.getFirstPropertyValue(name)]: [Some None] is [null]. *)
Definition getFirstPropertyValue (c : Component) (n : string)
    : option (option Value) :=
  match List.find (fun p => String.eqb (propName p) n) (compProps c) with
  | None => Some None
  | Some p =>
      match decodeValue (valueType p) (propValue p) with
      | Some v => Some (Some v)
      | None => None
      end
  end.

End ICAL.

(** ** [src/lib/ics-parser.ts] *)

Module IcsParser.

Inductive Source := icloud | extra.

Record CalendarEvent := {
  uid : string;
  summary : string;
  date : string;
  endDate : option string;
  description : option string;
  isHoliday : option bool;
  isWorkday : option bool;
  category : option string;
  source : Source
}.

(** *** [fetchICSFromURL]

    The world of the fetcher: the store of the singleton [cache] and the
    requests sent so far.  The network is a function from the URL to the
    response, [None] when [fetch] itself rejects. *)

Record Response := {
  ok : bool;
  status : Z;
  statusText : string;
  text : string
}.

Record World := {
  cacheStore : gmap string (Cache.CacheItem string);
  requests : list string
}.

Inductive Outcome (A : Type) :=
  | Returned (a : A)
  | Thrown (message : string).
Arguments Returned {A} _.
Arguments Thrown {A} _.

Definition defaultFetchTtl : Z := 12 * 3600000.

(** [nowGet] and [nowSet] are the readings of [Date.now()] inside
    [cache.get] and, after the response has arrived, inside [cache.set]. *)
Definition fetchICSFromURL (net : string -> option Response)
    (nowGet nowSet : Z) (url : string) (ttl : Z) (w : World)
    : Outcome string * World :=
  let cacheKey := "ics:" +:+ url in
  let (cached, store1) := Cache.get nowGet cacheKey (cacheStore w) in
  if JS.truthyString cached then
    match cached with
    | Some content => (Returned content,
                       {| cacheStore := store1; requests := requests w |})
    | None => (Thrown "unreachable",
               {| cacheStore := store1; requests := requests w |})
    end
  else
    let sent := requests w ++ [url] in
    match net url with
    | None => (Thrown "fetch failed",
               {| cacheStore := store1; requests := sent |})
    | Some response =>
        if negb (ok response) then
          (Thrown ("Failed to fetch ICS: "
                   +:+ JS.numberToString (status response) +:+ " "
                   +:+ statusText response),
           {| cacheStore := store1; requests := sent |})
        else
          let content := text response in
          (Returned content,
           {| cacheStore := Cache.set nowSet cacheKey content ttl store1;
              requests := sent |})
    end.

(** *** [formatICALDate] and [parseICS] *)

Definition formatICALDate (d : ICAL.Value) : string :=
  match d with
  | ICAL.VString s =>
      if (String.length s =? 8)%nat
      then JS.slice 0 4 s +:+ "-" +:+ JS.slice 4 6 s +:+ "-" +:+ JS.slice 6 8 s
      else s
  | ICAL.VTime year m d =>
      let month := JS.padStart2 (JS.numberToString m) in
      let day := JS.padStart2 (JS.numberToString d) in
      JS.numberToString year +:+ "-" +:+ month +:+ "-" +:+ day
  end.

Definition truthyValue (v : option ICAL.Value) : bool :=
  match v with
  | None => false
  | Some (ICAL.VString s) => negb (String.eqb s "")
  | Some (ICAL.VTime _ _ _) => true
  end.

(** [v === s] for a string literal [s]. *)
Definition isString (v : option ICAL.Value) (s : string) : bool :=
  match v with
  | Some (ICAL.VString s') => String.eqb s' s
  | _ => false
  end.

(** The body of the loop of [parseICS] over the [vevent] components; [n]
    counts the identifiers drawn from [crypto.randomUUID]. *)
Fixpoint parseVevents (h : Host) (n : nat) (vevents : list ICAL.Component)
    : option (list CalendarEvent) :=
  match vevents with
  | [] => Some []
  | vevent :: rest =>
      match ICAL.getFirstPropertyValue vevent "summary",
            ICAL.getFirstPropertyValue vevent "uid",
            ICAL.getFirstPropertyValue vevent "dtstart" with
      | Some sm, Some ui, Some dtstart =>
          match (match sm with
                 | None => Some ""
                 | Some (ICAL.VString s) => Some s
                 | Some (ICAL.VTime _ _ _) => None
                 end),
                (match ui with
                 | Some (ICAL.VString s) =>
                     if String.eqb s "" then Some (randomUUID h n, S n)
                     else Some (s, n)
                 | None => Some (randomUUID h n, S n)
                 | Some (ICAL.VTime _ _ _) => None
                 end) with
          | Some summary, Some (uid, n') =>
              if negb (truthyValue dtstart) then parseVevents h n' rest
              else
                let startDate :=
                  match dtstart with
                  | Some v => formatICALDate v
                  | None => ""
                  end in
                match ICAL.getFirstPropertyValue vevent "dtend",
                      ICAL.getFirstPropertyValue vevent "x-apple-special-day"
                with
                | Some dtend, Some specialDay =>
                    let endDate :=
                      match dtend with
                      | Some v => if truthyValue dtend
                                  then Some (formatICALDate v)
                                  else None
                      | None => None
                      end in
                    let isHoliday :=
                      isString specialDay "WORK-HOLIDAY"
                      || JS.includes "（休）" summary in
                    let isWorkday :=
                      isString specialDay "ALTERNATE-WORKDAY"
                      || JS.includes "（班）" summary in
                    match parseVevents h n' rest with
                    | Some events =>
                        Some ({| uid := uid; summary := summary;
                                 date := startDate; endDate := endDate;
                                 description := None;
                                 isHoliday := Some isHoliday;
                                 isWorkday := Some isWorkday;
                                 category := None; source := icloud |}
                              :: events)
                    | None => None
                    end
                | _, _ => None
                end
          | _, _ => None
          end
      | _, _, _ => None
      end
  end.

Definition parseICS (h : Host) (icsContent : string)
    : option (list CalendarEvent) :=
  match ICAL.parse icsContent with
  | Some comp => parseVevents h 0 (ICAL.getAllSubcomponents comp "vevent")
  | None => None
  end.

(** *** [splitMultiDayEvent] *)

Definition formatDateString (h : Host) (d : JSDate.Date) : string :=
  let year := JSDate.getFullYear h d in
  let month :=
    JS.padStart2 (JSDate.showNumber (option_map (fun m => m + 1)
                                                (JSDate.getMonth h d))) in
  let day := JS.padStart2 (JSDate.showNumber (JSDate.getDate h d)) in
  JSDate.showNumber year +:+ "-" +:+ month +:+ "-" +:+ day.

(** The [while (current < end)] loop; [fuel] bounds the number of rounds. *)
Fixpoint splitLoop (h : Host) (fuel : nat) (event : CalendarEvent)
    (end_ current : JSDate.Date) (dayIndex : Z) : list CalendarEvent :=
  match fuel with
  | O => []
  | S fuel' =>
      if JSDate.lt current end_ then
        let dateStr := formatDateString h current in
        {| uid := uid event +:+ "-day" +:+ JS.numberToString dayIndex;
           summary := summary event;
           date := dateStr;
           endDate := None;
           description := description event;
           isHoliday := isHoliday event;
           isWorkday := isWorkday event;
           category := category event;
           source := source event |}
        :: splitLoop h fuel' event end_
             (JSDate.setDate h current
                (option_map (fun d => d + 1) (JSDate.getDate h current)))
             (dayIndex + 1)
      else []
  end.

(** Every round moves [current] one day on (lemma [setDate_next_day]), so
    the loop ends within this many rounds (lemma [splitLoop_fuel]). *)
Definition splitFuel (start end_ : JSDate.Date) : nat :=
  match start, end_ with
  | Some s, Some e => Z.to_nat ((e - s) / JSDate.msPerDay + 1)
  | _, _ => O
  end.

Definition splitMultiDayEvent (h : Host) (event : CalendarEvent)
    : list CalendarEvent :=
  if negb (JS.truthyString (endDate event))
     || (match endDate event with
         | Some e => String.eqb (date event) e
         | None => false
         end)
  then
    [ {| uid := uid event; summary := summary event; date := date event;
         endDate := None; description := description event;
         isHoliday := isHoliday event; isWorkday := isWorkday event;
         category := category event; source := source event |} ]
  else
    let start := JSDate.ofString h (date event) in
    let end_ :=
      match endDate event with
      | Some e => JSDate.ofString h e
      | None => None
      end in
    let current := start in
    splitLoop h (splitFuel start end_) event end_ current 0.

(** *** [holidayToEvent] and [mergeEvents] *)

Definition categoryName (c : ExtraHolidays.Category) : string :=
  match c with
  | ExtraHolidays.western => "western"
  | ExtraHolidays.internet => "internet"
  | ExtraHolidays.professional => "professional"
  | ExtraHolidays.traditional => "traditional"
  end.

Definition holidayToEvent (holiday : ExtraHolidays.Holiday) : CalendarEvent :=
  {| uid := "extra-" +:+ ExtraHolidays.name holiday +:+ "-"
            +:+ ExtraHolidays.date holiday;
     summary := ExtraHolidays.name holiday;
     date := ExtraHolidays.date holiday;
     endDate := None;
     description := ExtraHolidays.description holiday;
     isHoliday := None;
     isWorkday := None;
     category := Some (categoryName (ExtraHolidays.category holiday));
     source := extra |}.

(** A JavaScript [Map] with string keys: the entries in insertion order; a
    [set] on a key that is present replaces the value where it stands. *)
Fixpoint Map_set {V : Type} (m : list (string * V)) (k : string) (v : V)
    : list (string * V) :=
  match m with
  | [] => [(k, v)]
  | (k', v') :: m' =>
      if String.eqb k' k then (k', v) :: m' else (k', v') :: Map_set m' k v
  end.

Definition Map_values {V : Type} (m : list (string * V)) : list V :=
  map snd m.

Definition eventKey (event : CalendarEvent) : string :=
  date event +:+ "-" +:+ summary event.

Definition setAll (m : list (string * CalendarEvent))
    (events : list CalendarEvent) : list (string * CalendarEvent) :=
  fold_left (fun m event => Map_set m (eventKey event) event) events m.

(** [Array.prototype.sort] with a comparator: a stable sort. *)
Fixpoint sortInsert {A : Type} (cmp : A -> A -> Z) (a : A) (l : list A)
    : list A :=
  match l with
  | [] => [a]
  | b :: l' => if cmp a b <=? 0 then a :: b :: l' else b :: sortInsert cmp a l'
  end.

Definition Array_sort {A : Type} (cmp : A -> A -> Z) (l : list A) : list A :=
  fold_right (sortInsert cmp) [] l.

Definition mergeEvents (h : Host) (icloudEvents : list CalendarEvent)
    (startYear endYear : Z) : list CalendarEvent :=
  let extraHolidays :=
    ExtraHolidays.getExtraHolidaysForYears h startYear endYear in
  let extraEvents := map holidayToEvent extraHolidays in
  let splitIcloudEvents := flat_map (splitMultiDayEvent h) icloudEvents in
  let eventMap := setAll [] extraEvents in
  let eventMap := setAll eventMap splitIcloudEvents in
  Array_sort (fun a b => localeCompare h (date a) (date b))
             (Map_values eventMap).

(** *** [generateICS] *)

Definition formatDateToICS (d : JSDate.Date) : string :=
  let pad (n : option Z) := JS.padStart2 (JSDate.showNumber n) in
  let year := JSDate.getUTCFullYear d in
  let month := pad (option_map (fun m => m + 1) (JSDate.getUTCMonth d)) in
  let day := pad (JSDate.getUTCDate d) in
  let hour := pad (JSDate.getUTCHours d) in
  let minute := pad (JSDate.getUTCMinutes d) in
  let second := pad (JSDate.getUTCSeconds d) in
  JSDate.showNumber year +:+ month +:+ day +:+ "T"
    +:+ hour +:+ minute +:+ second +:+ "Z".

(** The lines of one event; [now] is the reading of [new Date()]. *)
Definition eventLines (now : Z) (event : CalendarEvent) : list string :=
  [ "BEGIN:VEVENT";
    "UID:" +:+ uid event;
    "DTSTAMP:" +:+ formatDateToICS (Some now);
    "DTSTART;VALUE=DATE:" +:+ JS.removeHyphens (date event) ]
  ++ (if JS.truthyString (endDate event) then
        match endDate event with
        | Some e => [ "DTEND;VALUE=DATE:" +:+ JS.removeHyphens e ]
        | None => []
        end
      else [])
  ++ [ "SUMMARY;LANGUAGE=zh_CN:" +:+ summary event ]
  ++ (if JS.truthyString (description event) then
        match description event with
        | Some d => [ "DESCRIPTION:" +:+ d ]
        | None => []
        end
      else [])
  ++ [ "CLASS:PUBLIC"; "TRANSP:TRANSPARENT" ]
  ++ (if JS.truthyBool (isHoliday event)
      then [ "X-APPLE-SPECIAL-DAY:WORK-HOLIDAY" ]
      else if JS.truthyBool (isWorkday event)
      then [ "X-APPLE-SPECIAL-DAY:ALTERNATE-WORKDAY" ]
      else [])
  ++ [ "END:VEVENT" ].

(** The clock is read once for every event: [clock i] is the reading for
    the event at index [i]. *)
Fixpoint eventsLines (clock : nat -> Z) (i : nat) (events : list CalendarEvent)
    : list string :=
  match events with
  | [] => []
  | event :: rest =>
      eventLines (clock i) event ++ eventsLines clock (S i) rest
  end.

Definition defaultCalendarName : string := "中国节假日".

Definition generateICS (clock : nat -> Z) (events : list CalendarEvent)
    (calendarName : string) : string :=
  let lines :=
    [ "BEGIN:VCALENDAR";
      "VERSION:2.0";
      "PRODID:-//Holiday Calendar//CN";
      "CALSCALE:GREGORIAN";
      "X-WR-CALNAME:" +:+ calendarName;
      "X-APPLE-LANGUAGE:zh";
      "X-APPLE-REGION:CN" ]
    ++ eventsLines clock 0 events
    ++ [ "END:VCALENDAR" ] in
  String.concat ICAL.CRLF lines.

(** *** [getYearRange] and [filterEventsByYears] *)

(** [currentYear] is [new Date().getFullYear()]. *)
Definition getYearRange (currentYear : Z) : Z * Z * list Z :=
  let startYear := currentYear - 1 in
  let endYear := currentYear + 1 in
  let years := [startYear; currentYear; endYear] in
  (startYear, endYear, years).

(** [yearSet.has(year)] for a set of numbers. *)
Definition Set_has (years : list Z) (year : option Z) : bool :=
  match year with
  | Some y => existsb (Z.eqb y) years
  | None => false
  end.

Definition filterEventsByYears (events : list CalendarEvent) (years : list Z)
    : list CalendarEvent :=
  List.filter
    (fun event =>
       let year := JS.parseInt (JS.slice 0 4 (date event)) in
       Set_has years year)
    events.

(** *** [getCalendarData]

    [icalError] is the message of the exception the package throws on a
    content it does not read, [today] the reading of [new Date()] in
    [getYearRange]. *)
Definition getCalendarData (h : Host) (net : string -> option Response)
    (icalError : string -> string) (nowGet nowSet today : Z)
    (icloudUrl : string) (w : World) : Outcome (list CalendarEvent) * World :=
  let (fetched, w') :=
    fetchICSFromURL net nowGet nowSet icloudUrl defaultFetchTtl w in
  match fetched with
  | Thrown message => (Thrown message, w')
  | Returned icsContent =>
      match parseICS h icsContent with
      | None => (Thrown (icalError icsContent), w')
      | Some icloudEvents =>
          let currentYear := JSDate.YearFromTime (JSDate.LocalTime h today) in
          let '(startYear, endYear, years) := getYearRange currentYear in
          let allEvents := mergeEvents h icloudEvents startYear endYear in
          (Returned (filterEventsByYears allEvents years), w')
      end
  end.

(** *** [groupEventsByYear] and [groupEventsByMonth]

    [grouped] is an object literal used as a map from keys to arrays: its
    own properties are a [gmap].  A key it does not own is still read
    through the prototype: the names of [Object.prototype] give a function
    (or, for [__proto__], the prototype itself), which is truthy and has no
    [push], so that [grouped[key].push(event)] throws a [TypeError] (the
    message is the wording of V8). *)
Definition objectPrototype : list string :=
  [ "constructor"; "__defineGetter__"; "__defineSetter__"; "hasOwnProperty";
    "__lookupGetter__"; "__lookupSetter__"; "isPrototypeOf";
    "propertyIsEnumerable"; "toString"; "valueOf"; "__proto__";
    "toLocaleString" ].

(** [if (!grouped[key]) { grouped[key] = []; } grouped[key].push(event);]
    where the source writes the key as [name]. *)
Definition pushGrouped (name : string)
    (grouped : gmap string (list CalendarEvent)) (key : string)
    (event : CalendarEvent) : Outcome (gmap string (list CalendarEvent)) :=
  match grouped !! key with
  | Some group => Returned (<[key := group ++ [event]]> grouped)
  | None =>
      if existsb (String.eqb key) objectPrototype
      then Thrown ("grouped[" +:+ name +:+ "].push is not a function")
      else Returned (<[key := [event]]> grouped)
  end.

(** The [for (const event of events)] loop of both functions. *)
Definition groupLoop (name : string) (keyOf : CalendarEvent -> string)
    (events : list CalendarEvent)
    (grouped : Outcome (gmap string (list CalendarEvent)))
    : Outcome (gmap string (list CalendarEvent)) :=
  fold_left
    (fun acc event =>
       match acc with
       | Returned grouped => pushGrouped name grouped (keyOf event) event
       | Thrown message => Thrown message
       end)
    events grouped.

(** The key [grouped[year]] of a number: its decimal numeral, or [NaN]. *)
Definition groupEventsByYear (events : list CalendarEvent)
    : Outcome (gmap string (list CalendarEvent)) :=
  groupLoop "year"
    (fun event =>
       let year := JS.parseInt (JS.slice 0 4 (date event)) in
       JSDate.showNumber year)
    events (Returned empty).

Definition groupEventsByMonth (events : list CalendarEvent)
    : Outcome (gmap string (list CalendarEvent)) :=
  groupLoop "yearMonth"
    (fun event =>
       let yearMonth := JS.slice 0 7 (date event) in
       yearMonth)
    events (Returned empty).

End IcsParser.

(** ** The routes: [src/routes/+page.server.ts],
    [src/routes/calendars.ics/+server.ts] and the script of
    [src/routes/+page.svelte] *)

Module Routes.

Import IcsParser.

Definition ICLOUD_CN_URL : string :=
  "https://calendars.icloud.com/holidays/cn_zh.ics".

(** What [load] returns; [None] is [null]. *)
Record PageData := {
  events : list CalendarEvent;
  eventsByYear : gmap string (list CalendarEvent);
  totalCount : Z;
  error : option string
}.

(** [load]: every exception of the [try] block is an [Error] and is turned
    into the data of an empty page with its message. *)
Definition load (h : Host) (net : string -> option Response)
    (icalError : string -> string) (nowGet nowSet today : Z) (w : World)
    : PageData * World :=
  let (result, w') :=
    getCalendarData h net icalError nowGet nowSet today ICLOUD_CN_URL w in
  let failed (message : string) :=
    {| events := []; eventsByYear := empty; totalCount := 0;
       error := Some message |} in
  match result with
  | Returned events =>
      match groupEventsByYear events with
      | Returned eventsByYear =>
          ({| events := events; eventsByYear := eventsByYear;
              totalCount := Z.of_nat (List.length events); error := None |},
           w')
      | Thrown message => (failed message, w')
      end
  | Thrown message => (failed message, w')
  end.

(** A [Response] as [GET] builds it; the status is 200 when none is
    given. *)
Record HttpResponse := {
  body : string;
  httpStatus : Z;
  headers : list (string * string)
}.

(** [GET]; [clock] gives the readings of [new Date()] in [generateICS]. *)
Definition GET (h : Host) (net : string -> option Response)
    (icalError : string -> string) (nowGet nowSet today : Z)
    (clock : nat -> Z) (w : World) : HttpResponse * World :=
  let (result, w') :=
    getCalendarData h net icalError nowGet nowSet today ICLOUD_CN_URL w in
  match result with
  | Returned events =>
      let icsContent := generateICS clock events "中国节假日（增强版）" in
      ({| body := icsContent;
          httpStatus := 200;
          headers :=
            [ ("Content-Type", "text/calendar; charset=utf-8");
              ("Content-Disposition",
               "attachment; filename=" +:+ ExtraHolidays.dquote
                 +:+ "calendars.ics" +:+ ExtraHolidays.dquote);
              ("Cache-Control", "public, max-age=3600") ] |},
       w')
  | Thrown _ =>
      ({| body := "Failed to generate calendar";
          httpStatus := 500;
          headers := [ ("Content-Type", "text/plain") ] |},
       w')
  end.

(** The script of the page runs in the browser: its host is the
    reader's. *)
Definition formatDate (h : Host) (dateStr : string) : string :=
  let date := JSDate.ofString h dateStr in
  JSDate.showNumber (option_map (fun m => m + 1) (JSDate.getMonth h date))
    +:+ "月" +:+ JSDate.showNumber (JSDate.getDate h date) +:+ "日".

Definition weekdays : list string :=
  [ "周日"; "周一"; "周二"; "周三"; "周四"; "周五"; "周六" ].

(** [weekdays[date.getDay()]]: [None] is [undefined]. *)
Definition getWeekday (h : Host) (dateStr : string) : option string :=
  let date := JSDate.ofString h dateStr in
  match JSDate.getDay h date with
  | Some day => nth_error weekdays (Z.to_nat day)
  | None => None
  end.

Record Badge := { badgeText : string; badgeClass : string }.

Definition getEventBadge (event : CalendarEvent) : option Badge :=
  if JS.truthyBool (isHoliday event)
  then Some {| badgeText := "休"; badgeClass := "bg-green-100 text-green-800" |}
  else if JS.truthyBool (isWorkday event)
  then Some {| badgeText := "班";
               badgeClass := "bg-orange-100 text-orange-800" |}
  else match source event with
       | extra => Some {| badgeText := "补";
                          badgeClass := "bg-blue-100 text-blue-800" |}
       | icloud => None
       end.

End Routes.

(* ================================================================== *)
(** * Part II. The vocabulary of the properties                        *)
(* ================================================================== *)

Import IcsParser.
Import LunarCalendar.

Section Vocabulary.
Import JSDate ICAL.

(** ** Days of the calendar *)

(** 1 in a leap year, 0 otherwise. *)
Definition leapOf (y : Z) : Z := if DaysInYear y =? 366 then 1 else 0.

(** A day of a month: the month from 1 to 12, the day within the month. *)
Definition validMd (y m d : Z) : Prop :=
  1 <= m <= 12 /\ 1 <= d <= daysInMonth y m.

(** The year, the month (from 1) and the day of the month of a day number:
    what [YearFromTime], [MonthFromTime] and [DateFromTime] compute. *)
Definition civilOfDay (n : Z) : Z * Z * Z :=
  let y := YearFromDay n in
  let w := n - DayFromYear y in
  let m := monthOfDayWithinYear (leapOf y) w in
  (y, m + 1, w - daysBeforeMonth (leapOf y) m + 1).

(** The day after a day of the calendar. *)
Definition nextDay (ymd : Z * Z * Z) : Z * Z * Z :=
  let '(y, m, d) := ymd in
  if d <? daysInMonth y m then (y, m, d + 1)
  else if m <? 12 then (y, m + 1, 1)
  else (y + 1, 1, 1).

(** Earlier in the calendar. *)
Definition before (a b : Z * Z * Z) : Prop :=
  let '(y, m, d) := a in
  let '(y', m', d') := b in
  y < y' \/ (y = y' /\ (m < m' \/ (m = m' /\ d < d'))).

(** The year [new Date(year, 10, 1)] stands for. *)
Definition fullYear (year : Z) : Z :=
  if (0 <=? year) && (year <=? 99) then 1900 + year else year.

(** [`${year}-${month}-${day}`] with month and day padded to two digits:
    the format of [formatDateString] and of [formatICALDate]. *)
Definition showYmd (ymd : Z * Z * Z) : string :=
  let '(y, m, d) := ymd in
  JS.numberToString y +:+ "-" +:+ JS.padStart2 (JS.numberToString m)
    +:+ "-" +:+ JS.padStart2 (JS.numberToString d).

(** A date of the calendar with a year of four digits. *)
Definition validDate (ymd : Z * Z * Z) : Prop :=
  let '(y, m, d) := ymd in 1000 <= y <= 9999 /\ validMd y m d.

(** [y] is written with four digits, which read back as [y]. *)
Definition fourDigits (y : Z) : bool :=
  match JS.numberToString y with
  | String a (String b (String c (String d EmptyString))) =>
      JS.isDigit a && JS.isDigit b && JS.isDigit c && JS.isDigit d
      && (1000 * JS.digitValue a + 100 * JS.digitValue b
          + 10 * JS.digitValue c + JS.digitValue d =? y)
  | _ => false
  end.

(** [n], padded, is written with two digits, which read back as [n]. *)
Definition twoDigits (n : Z) : bool :=
  match JS.padStart2 (JS.numberToString n) with
  | String a (String b EmptyString) =>
      JS.isDigit a && JS.isDigit b
      && (10 * JS.digitValue a + JS.digitValue b =? n)
  | _ => false
  end.

(** The ten characters of a date [YYYY-MM-DD]. *)
Definition dateChars (a b c d m1 m2 d1 d2 : ascii) : string :=
  String a (String b (String c (String d (String "-"
    (String m1 (String m2 (String "-" (String d1 (String d2 ""))))))))).

(** The eight characters of a date [YYYYMMDD]. *)
Definition dateDigits (a b c d m1 m2 d1 d2 : ascii) : string :=
  String a (String b (String c (String d
    (String m1 (String m2 (String d1 (String d2 ""))))))).

(** ** Maps, keys and the events of the split *)

(** [m.get(k)]. *)
Fixpoint Map_get {V : Type} (m : list (string * V)) (k : string)
    : option V :=
  match m with
  | [] => None
  | (k', v') :: m' => if String.eqb k' k then Some v' else Map_get m' k
  end.

(** The map [mergeEvents] builds, before its values are sorted. *)
Definition eventMap (h : Host) (icloudEvents : list CalendarEvent)
    (startYear endYear : Z) : list (string * CalendarEvent) :=
  setAll (setAll []
            (map holidayToEvent
               (ExtraHolidays.getExtraHolidaysForYears h startYear endYear)))
         (flat_map (splitMultiDayEvent h) icloudEvents).


(** The fields [splitMultiDayEvent] copies from the event it splits. *)
Definition sameContent (e' e : CalendarEvent) : Prop :=
  summary e' = summary e /\ description e' = description e
  /\ isHoliday e' = isHoliday e /\ isWorkday e' = isWorkday e
  /\ category e' = category e /\ source e' = source e.

(** The event [splitMultiDayEvent] makes for the day of index [i], dated
    [d]. *)
Definition dayOf (e : CalendarEvent) (i : Z) (d : string) : CalendarEvent := {|
  uid := uid e +:+ "-day" +:+ JS.numberToString i; summary := summary e;
  date := d; endDate := None; description := description e;
  isHoliday := isHoliday e; isWorkday := isWorkday e;
  category := category e; source := source e |}.

(** ** Lines and components of the wire format *)

(** The text has no line feed. *)
Fixpoint noLF (s : string) : bool :=
  match s with
  | EmptyString => true
  | String c s' => negb (Ascii.eqb c LF) && noLF s'
  end.

(** The text has no carriage return. *)
Fixpoint noCR (s : string) : bool :=
  match s with
  | EmptyString => true
  | String c s' => negb (Ascii.eqb c CR) && noCR s'
  end.

(** The text has no backslash. *)
Fixpoint noBackslash (s : string) : bool :=
  match s with
  | EmptyString => true
  | String c s' => negb (Ascii.eqb c "\") && noBackslash s'
  end.

(** A text that stays on its line. *)
Definition plainText (s : string) : Prop := noLF s = true /\ noCR s = true.

(** A line as [generateICS] writes it: not empty, no line feed inside, no
    blank in front. *)
Definition goodLine (l : string) : Prop :=
  noLF l = true /\ startsBlank l = false /\ l <> EmptyString.

(** The pieces between the line feeds of lines joined by CR LF. *)
Fixpoint pieces (l : string) (ls : list string) : list string :=
  match ls with
  | [] => [l]
  | l' :: ls' => (l +:+ String CR "") :: pieces l' ls'
  end.

(** A property as [ICAL.parse] stores it. *)
Definition prop (n : string) (ps : list (string * string)) (v : string)
    : Property :=
  {| propName := n; propParams := ps; propValue := v |}.

(** The properties [ICAL.parse] reads from the lines of one event. *)
Definition eventProps (now : Z) (event : CalendarEvent) : list Property :=
  [ prop "uid" [] (uid event);
    prop "dtstamp" [] (formatDateToICS (Some now));
    prop "dtstart" [("value", "DATE")] (JS.removeHyphens (date event)) ]
  ++ (if JS.truthyString (endDate event) then
        match endDate event with
        | Some e => [ prop "dtend" [("value", "DATE")] (JS.removeHyphens e) ]
        | None => []
        end
      else [])
  ++ [ prop "summary" [("language", "zh_CN")] (summary event) ]
  ++ (if JS.truthyString (description event) then
        match description event with
        | Some d => [ prop "description" [] d ]
        | None => []
        end
      else [])
  ++ [ prop "class" [] "PUBLIC"; prop "transp" [] "TRANSPARENT" ]
  ++ (if JS.truthyBool (isHoliday event)
      then [ prop "x-apple-special-day" [] "WORK-HOLIDAY" ]
      else if JS.truthyBool (isWorkday event)
      then [ prop "x-apple-special-day" [] "ALTERNATE-WORKDAY" ]
      else []).

(** The lines of an event between [BEGIN:VEVENT] and [END:VEVENT]. *)
Definition propertyLines (now : Z) (event : CalendarEvent) : list string :=
  [ "UID:" +:+ uid event;
    "DTSTAMP:" +:+ formatDateToICS (Some now);
    "DTSTART;VALUE=DATE:" +:+ JS.removeHyphens (date event) ]
  ++ (if JS.truthyString (endDate event) then
        match endDate event with
        | Some e => [ "DTEND;VALUE=DATE:" +:+ JS.removeHyphens e ]
        | None => []
        end
      else [])
  ++ [ "SUMMARY;LANGUAGE=zh_CN:" +:+ summary event ]
  ++ (if JS.truthyString (description event) then
        match description event with
        | Some d => [ "DESCRIPTION:" +:+ d ]
        | None => []
        end
      else [])
  ++ [ "CLASS:PUBLIC"; "TRANSP:TRANSPARENT" ]
  ++ (if JS.truthyBool (isHoliday event)
      then [ "X-APPLE-SPECIAL-DAY:WORK-HOLIDAY" ]
      else if JS.truthyBool (isWorkday event)
      then [ "X-APPLE-SPECIAL-DAY:ALTERNATE-WORKDAY" ]
      else []).

(** The line is read as the property. *)
Definition readsAs (l : string) (p : Property) : Prop :=
  parseContentLine l = Some (LProp p).

(** The open component with more properties, with one more
    subcomponent. *)
Definition addProps (f : Frame) (ps : list Property) : Frame :=
  {| frName := frName f; frProps := frProps f ++ ps; frSubs := frSubs f |}.

Definition addSub (f : Frame) (c : Component) : Frame :=
  {| frName := frName f; frProps := frProps f; frSubs := frSubs f ++ [c] |}.

(** The component of one event. *)
Definition veventOf (now : Z) (event : CalendarEvent) : Component :=
  Comp "vevent" (eventProps now event) [].

(** The components of the events, each with the clock reading of its
    index. *)
Fixpoint veventsOf (clock : nat -> Z) (i : nat) (events : list CalendarEvent)
    : list Component :=
  match events with
  | [] => []
  | event :: rest => veventOf (clock i) event :: veventsOf clock (S i) rest
  end.

(** The properties of the calendar itself. *)
Definition calendarProps (calendarName : string) : list Property :=
  [ prop "version" [] "2.0";
    prop "prodid" [] "-//Holiday Calendar//CN";
    prop "calscale" [] "GREGORIAN";
    prop "x-wr-calname" [] calendarName;
    prop "x-apple-language" [] "zh";
    prop "x-apple-region" [] "CN" ].

(** The lines [generateICS] joins. *)
Definition calendarLines (clock : nat -> Z) (events : list CalendarEvent)
    (calendarName : string) : list string :=
  [ "BEGIN:VCALENDAR";
    "VERSION:2.0";
    "PRODID:-//Holiday Calendar//CN";
    "CALSCALE:GREGORIAN";
    "X-WR-CALNAME:" +:+ calendarName;
    "X-APPLE-LANGUAGE:zh";
    "X-APPLE-REGION:CN" ]
  ++ eventsLines clock 0 events
  ++ [ "END:VCALENDAR" ].

(** The first property of a name. *)
Definition firstProp (n : string) (ps : list Property) : option Property :=
  List.find (fun p => String.eqb (propName p) n) ps.

(** ** The round trip *)

(** The four fields the round trip is about. *)
Definition tuple (e : CalendarEvent) : string * string * bool * bool :=
  (date e, summary e, JS.truthyBool (isHoliday e), JS.truthyBool (isWorkday e)).

(** The flags of an event agree with the markers in its title the way
    [parseICS] reads them: the day-off marker only with [isHoliday], the
    makeup marker only with [isWorkday], and both flags only with the
    makeup marker in the title. *)
Definition flagsAgree (e : CalendarEvent) : Prop :=
  (JS.includes "（休）" (summary e) = true -> JS.truthyBool (isHoliday e) = true)
  /\ (JS.includes "（班）" (summary e) = true -> JS.truthyBool (isWorkday e) = true)
  /\ (JS.truthyBool (isHoliday e) = true -> JS.truthyBool (isWorkday e) = true ->
      JS.includes "（班）" (summary e) = true).

(** The dates of an event are days of the calendar in the format
    [YYYY-MM-DD], and an [endDate] is not before the [date]. *)
Definition wellDated (e : CalendarEvent) : Prop :=
  exists a, validDate a /\ date e = showYmd a
    /\ (endDate e = None
        \/ exists b, validDate b /\ endDate e = Some (showYmd b)
                     /\ (a = b \/ before a b)).

(** What keeps the lines of an event apart: texts without line breaks. *)
Definition plainEvent (e : CalendarEvent) : Prop :=
  plainText (uid e) /\ plainText (summary e)
  /\ (forall d, description e = Some d -> plainText d).

(** The parsed event has the dates, the title and the flags of the event
    that was written. *)
Definition readBackAs (e p : CalendarEvent) : Prop :=
  date p = date e /\ endDate p = endDate e /\ summary p = summary e
  /\ JS.truthyBool (isHoliday p) = JS.truthyBool (isHoliday e)
  /\ JS.truthyBool (isWorkday p) = JS.truthyBool (isWorkday e).

(** An event the wire format carries unharmed. *)
Definition roundTrippable (e : CalendarEvent) : Prop :=
  wellDated e /\ plainEvent e /\ noBackslash (summary e) = true
  /\ flagsAgree e.

(** ** Sentences of the specification the code does not meet *)

(** The cache hit as the specification words it: whenever [cache.get]
    returns the stored content for the key of the URL, that content is
    returned and no request is sent. *)
Definition cache_hit_sends_nothing : Prop :=
  forall net nowGet nowSet url ttl w c,
    fst (Cache.get nowGet ("ics:" +:+ url) (cacheStore w)) = Some c ->
    fst (fetchICSFromURL net nowGet nowSet url ttl w) = Returned c
    /\ requests (snd (fetchICSFromURL net nowGet nowSet url ttl w))
       = requests w.


(** The round trip as the specification words it: for events without two
    of the same date and title, whose dates are days of the calendar and
    whose [endDate] is not before the [date], the split of the parsed
    events has the same set of tuples as the split of the events. *)
Definition roundtrip_keeps_tuples : Prop :=
  forall h clock calendarName events,
    NoDup (map (fun e => (date e, summary e)) events) ->
    Forall wellDated events ->
    forall parsed,
      parseICS h (generateICS clock events calendarName) = Some parsed ->
      forall t,
        In t (map tuple (flat_map (splitMultiDayEvent h) parsed))
        <-> In t (map tuple (flat_map (splitMultiDayEvent h) events)).

(** ** Hosts and events of the worked examples *)

(** A host for the worked examples: China Standard Time (UTC+8), a
    [Date.parse] that knows no other format, code-unit collation, and the
    days of the lunar festivals of the solar year 2024. *)
Definition sampleHost : Host := {|
  LocalTZA := 8 * 3600000;
  dateParseFallback := fun _ => None;
  localeCompare := fun a b =>
    match String.compare a b with Lt => -1 | Eq => 0 | Gt => 1 end;
  lunarToSolarYmd := fun y m d =>
    if (y =? 2023) && (m =? 12) && (d =? 8) then Some (2024, 1, 18)
    else if (y =? 2023) && (m =? 12) && (d =? 23) then Some (2024, 2, 2)
    else if (y =? 2023) && (m =? 12) && (d =? 24) then Some (2024, 2, 3)
    else if (y =? 2024) && (m =? 2) && (d =? 2) then Some (2024, 3, 11)
    else if (y =? 2024) && (m =? 7) && (d =? 7) then Some (2024, 8, 10)
    else None;
  randomUUID := fun n => "uuid-" +:+ JS.numberToString (Z.of_nat n)
|}.

(** A host five hours west of UTC. *)
Definition westernHost : Host := {|
  LocalTZA := -5 * 3600000;
  dateParseFallback := dateParseFallback sampleHost;
  localeCompare := localeCompare sampleHost;
  lunarToSolarYmd := lunarToSolarYmd sampleHost;
  randomUUID := randomUUID sampleHost
|}.

(** A cache that holds the empty string for the URL [u], a network that
    answers every request, and a cache that holds a calendar. *)
Definition emptyContentWorld : World := {|
  cacheStore := {[ "ics:u" := {| Cache.data := ""; Cache.expiresAt := 100 |} ]};
  requests := []
|}.

Definition freshNet (url : string) : option Response :=
  Some {| ok := true; status := 200; statusText := "OK";
          text := "BEGIN:VCALENDAR" |}.

Definition warmWorld : World := {|
  cacheStore :=
    {[ "ics:u" := {| Cache.data := "BEGIN:VCALENDAR"; Cache.expiresAt := 100 |} ]};
  requests := []
|}.

(** Two upstream events with the same identifier. *)
Definition newYearsDay : CalendarEvent := {|
  uid := "a"; summary := "元旦"; date := "2024-01-01"; endDate := None;
  description := None; isHoliday := Some true; isWorkday := Some false;
  category := None; source := icloud |}.

Definition secondOfJanuary : CalendarEvent := {|
  uid := "a"; summary := "补班"; date := "2024-01-02"; endDate := None;
  description := None; isHoliday := Some false; isWorkday := Some true;
  category := None; source := icloud |}.

(** An upstream event of three days, and an upstream event that meets a
    supplementary holiday. *)
Definition nationalDay : CalendarEvent := {|
  uid := "cn-national-day"; summary := "国庆节"; date := "2024-10-01";
  endDate := Some "2024-10-04"; description := None;
  isHoliday := Some true; isWorkday := Some false;
  category := None; source := icloud |}.

Definition upstreamValentine : CalendarEvent := {|
  uid := "cn-valentine"; summary := "情人节"; date := "2024-02-14";
  endDate := None; description := None;
  isHoliday := Some false; isWorkday := Some false;
  category := None; source := icloud |}.

Definition valentineHoliday : ExtraHolidays.Holiday :=
  ExtraHolidays.fixedHoliday 2024 "情人节" "-02-14" ExtraHolidays.western
    "西方情人节".

(** A day that carries both flags, as [parseICS] reads it from a block
    with this title and the makeup marker. *)
Definition bothFlags : CalendarEvent := {|
  uid := "cn-both"; summary := "国庆节（休）"; date := "2024-10-01";
  endDate := None; description := None;
  isHoliday := Some true; isWorkday := Some true;
  category := None; source := icloud |}.

(** Upstream events as the feed has them: a holiday of three days with
    the day-off marker, a makeup workday with a description. *)
Definition midAutumn : CalendarEvent := {|
  uid := "cn-mid-autumn"; summary := "中秋节（休）"; date := "2024-09-15";
  endDate := Some "2024-09-18"; description := None;
  isHoliday := Some true; isWorkday := Some false;
  category := None; source := icloud |}.

Definition makeupSunday : CalendarEvent := {|
  uid := "cn-makeup"; summary := "国庆节（班）"; date := "2024-09-29";
  endDate := None; description := Some "调休上班";
  isHoliday := None; isWorkday := Some true;
  category := None; source := icloud |}.

End Vocabulary.

(** ** Vocabulary of the further properties *)

(** A network that answers every request with an error. *)
Definition brokenNet (url : string) : option Response :=
  Some {| ok := false; status := 503; statusText := "Service Unavailable";
          text := "" |}.

(** The last event of a list that has the key. *)
Definition lastWithKey (k : string) (events : list CalendarEvent)
    : option CalendarEvent :=
  List.find (fun x => String.eqb (eventKey x) k) (rev events).

(** The events [mergeEvents] puts into its map, in the order it does. *)
Definition mergeInputs (h : Host) (icloudEvents : list CalendarEvent)
    (startYear endYear : Z) : list CalendarEvent :=
  map holidayToEvent (ExtraHolidays.getExtraHolidaysForYears h startYear endYear)
  ++ flat_map (splitMultiDayEvent h) icloudEvents.

(** A comparator that orders its arguments: of two of them one does not
    come after the other, and what comes not after is transitive. *)
Definition consistentComparator {A : Type} (cmp : A -> A -> Z) : Prop :=
  (forall a b, cmp a b <= 0 \/ cmp b a <= 0)
  /\ (forall a b c, cmp a b <= 0 -> cmp b c <= 0 -> cmp a c <= 0).

(** No date sorts after the date of a later event. *)
Definition sortedByDate (h : Host) (events : list CalendarEvent) : Prop :=
  StronglySorted (fun a b => localeCompare h (date a) (date b) <= 0) events.

(** The day before a day of the calendar. *)
Definition prevDay (ymd : Z * Z * Z) : Z * Z * Z :=
  let '(y, m, d) := ymd in
  if 1 <? d then (y, m, d - 1)
  else if 1 <? m then (y, m - 1, JSDate.daysInMonth y (m - 1))
  else (y - 1, 12, 31).

(** An upstream event whose end is no date, and one whose end is before
    its start. *)
Definition unreadableEnd : CalendarEvent := {|
  uid := "cn-open-end"; summary := "暑假"; date := "2024-07-01";
  endDate := Some "someday"; description := None;
  isHoliday := Some true; isWorkday := Some false;
  category := None; source := icloud |}.

Definition reversedRange : CalendarEvent := {|
  uid := "cn-reversed"; summary := "国庆节"; date := "2024-10-04";
  endDate := Some "2024-10-01"; description := None;
  isHoliday := Some true; isWorkday := Some false;
  category := None; source := icloud |}.

(** The year [groupEventsByYear] and [filterEventsByYears] read from the
    date of an event, and the key it is grouped under. *)
Definition yearOf (e : CalendarEvent) : option Z :=
  JS.parseInt (JS.slice 0 4 (date e)).

Definition yearKey (e : CalendarEvent) : string := JSDate.showNumber (yearOf e).

Definition monthKey (e : CalendarEvent) : string := JS.slice 0 7 (date e).

(** The events of a key, in the order of the list; no group when there is
    none. *)
Definition groupOf (keyOf : CalendarEvent -> string) (key : string)
    (events : list CalendarEvent) : option (list CalendarEvent) :=
  match List.filter (fun e => String.eqb (keyOf e) key) events with
  | [] => None
  | group => Some group
  end.

(** All events of the groups. *)
Definition groupedEvents (grouped : gmap string (list CalendarEvent))
    : list CalendarEvent :=
  concat (map snd (map_to_list grouped)).

(** An event whose date is the name of a method every object has. *)
Definition valueOfEvent : CalendarEvent := {|
  uid := "x"; summary := "valueOf"; date := "valueOf"; endDate := None;
  description := None; isHoliday := None; isWorkday := None;
  category := None; source := icloud |}.

(** A feed of two events, a network that serves it, and the first of June
    2024, 00:00 UTC. *)
Definition sampleFeed : string :=
  generateICS (fun _ => 0) [midAutumn; makeupSunday] defaultCalendarName.

Definition feedNet (url : string) : option Response :=
  Some {| ok := true; status := 200; statusText := "OK"; text := sampleFeed |}.

Definition juneFirst2024 : Z := JSDate.MakeDay 2024 5 1 * JSDate.msPerDay.

Definition coldWorld : World := {| cacheStore := empty; requests := [] |}.

Definition noMessage (content : string) : string := "".


Definition sampleCalendarData : list CalendarEvent :=
  match fst (getCalendarData sampleHost feedNet noMessage 0 1 juneFirst2024
               Routes.ICLOUD_CN_URL coldWorld) with
  | Returned events => events
  | Thrown _ => []
  end.

(** [MakeTime(hour, min, sec, ms)] of ECMAScript. *)
Definition MakeTime (hour min sec ms : Z) : Z :=
  hour * 3600000 + min * 60000 + sec * 1000 + ms.

(** A number written with two digits at least. *)
Definition pad2 (n : Z) : string := JS.padStart2 (JS.numberToString n).

(** The local day of midnight UTC of a day: the day itself at UTC and east
    of it, the day before west of it. *)
Definition localDayOf (h : Host) (ymd : Z * Z * Z) : Z * Z * Z :=
  if LocalTZA h <? 0 then prevDay ymd else ymd.

(** The package answers with days of the calendar. *)
Definition lunarDatesValid (h : Host) : Prop :=
  forall ly lm ld y m d,
    lunarToSolarYmd h ly lm ld = Some (y, m, d) -> validDate (y, m, d).

(** The line of the special day [generateICS] writes for an event. *)
Definition specialDayLines (event : CalendarEvent) : list string :=
  if JS.truthyBool (isHoliday event)
  then [ "X-APPLE-SPECIAL-DAY:WORK-HOLIDAY" ]
  else if JS.truthyBool (isWorkday event)
  then [ "X-APPLE-SPECIAL-DAY:ALTERNATE-WORKDAY" ]
  else [].

(* ================================================================== *)
(** * Part III. Properties                                             *)
(* ================================================================== *)

(** [lia] reads [/] and [mod] by a constant as Euclidean division. *)
Ltac Zify.zify_post_hook ::= Z.to_euclidean_division_equations.

(** ** The feed cache *)

Section CacheProperties.
Context {T : Type}.
Implicit Types (store : gmap string (Cache.CacheItem T)) (key : string).

Lemma cache_get_absent now key store :
  store !! key = None -> Cache.get now key store = (None, store).
Proof. intros E. unfold Cache.get. now rewrite E. Qed.

Lemma cache_get_fresh now key store item :
  store !! key = Some item -> now <= Cache.expiresAt item ->
  Cache.get now key store = (Some (Cache.data item), store).
Proof.
  intros E Hle. unfold Cache.get. rewrite E.
  destruct (Z.gtb_spec now (Cache.expiresAt item)); [lia | reflexivity].
Qed.

Lemma cache_get_expired now key store item :
  store !! key = Some item -> Cache.expiresAt item < now ->
  Cache.get now key store = (None, delete key store).
Proof.
  intros E Hlt. unfold Cache.get. rewrite E.
  destruct (Z.gtb_spec now (Cache.expiresAt item)); [reflexivity | lia].
Qed.

Lemma cache_set_lookup now key (v : T) ttl store :
  Cache.set now key v ttl store !! key
  = Some {| Cache.data := v; Cache.expiresAt := now + ttl |}.
Proof. unfold Cache.set. apply lookup_insert_eq. Qed.

(** C5: [get] returns [null] exactly when the key has no entry or the
    entry's expiration instant has passed; otherwise it returns the stored
    value and leaves the store as it is; a [get] that finds an expired entry
    deletes it.  After [set(k, v, ttl)] at time [now], a read up to
    [now + ttl] returns [v] and a later read returns [null]. *)
Theorem cache_get_set_spec (now : Z) key store :
  (fst (Cache.get now key store) = None <->
     store !! key = None \/
     exists item, store !! key = Some item /\ Cache.expiresAt item < now)
  /\ (forall item, store !! key = Some item -> now <= Cache.expiresAt item ->
        Cache.get now key store = (Some (Cache.data item), store))
  /\ (forall item, store !! key = Some item -> Cache.expiresAt item < now ->
        Cache.get now key store = (None, delete key store)
        /\ delete key store !! key = None)
  /\ (forall (v : T) ttl t, t <= now + ttl ->
        fst (Cache.get t key (Cache.set now key v ttl store)) = Some v)
  /\ (forall (v : T) ttl t, now + ttl < t ->
        fst (Cache.get t key (Cache.set now key v ttl store)) = None).
Proof.
  split; [split | split; [| split; [| split]]].
  - intros H. destruct (store !! key) as [item|] eqn:E; [right | now left].
    destruct (Z.lt_ge_cases (Cache.expiresAt item) now) as [Hlt|Hge].
    + exists item. now split.
    + rewrite (cache_get_fresh now key store item E) in H by lia. discriminate.
  - intros [E | (item & E & Hlt)].
    + now rewrite cache_get_absent.
    + now rewrite (cache_get_expired now key store item).
  - intros item E Hle. now apply cache_get_fresh.
  - intros item E Hlt. split.
    + now apply (cache_get_expired now key store item).
    + apply lookup_delete_eq.
  - intros v ttl t Hle.
    rewrite (cache_get_fresh t key _ _ (cache_set_lookup now key v ttl store));
      simpl; [reflexivity | exact Hle].
  - intros v ttl t Hlt.
    rewrite (cache_get_expired t key _ _ (cache_set_lookup now key v ttl store));
      simpl; [reflexivity | exact Hlt].
Qed.

End CacheProperties.

(** The worked case of the specification: a time to live of 10 ms, read at
    once and read after 20 ms. *)
Example cache_ttl_10ms (store : gmap string (Cache.CacheItem string)) :
  fst (Cache.get 1000 "k" (Cache.set 1000 "k" "v" 10 store)) = Some "v"
  /\ fst (Cache.get 1020 "k" (Cache.set 1000 "k" "v" 10 store)) = None.
Proof.
  split.
  - rewrite (cache_get_fresh 1000 "k" _ _ (cache_set_lookup 1000 "k" "v" 10 store));
      [reflexivity | simpl; lia].
  - rewrite (cache_get_expired 1020 "k" _ _ (cache_set_lookup 1000 "k" "v" 10 store));
      [reflexivity | simpl; lia].
Qed.

(** ** The lunar festivals *)

(** [lunarToSolar] asks the package for the solar day of the lunar date and
    formats it. *)
Lemma lunarToSolar_package (h : Host) (y m d : Z) :
  lunarToSolar h y m d = option_map showYmd (lunarToSolarYmd h y m d).
Proof.
  unfold lunarToSolar. now destruct (lunarToSolarYmd h y m d) as [[[sy sm] sd]|].
Qed.

(** C4: a festival of the twelfth lunar month ([laba], [xiaonian_north],
    [xiaonian_south], and no other) is converted in the lunar year
    [year - 1], every other festival ([qixi], [longtaitou]) in the lunar
    year [year]: the package is asked for that lunar year, and a conversion
    that fails gives [null]; for 2024 the three festivals of the twelfth
    month are converted in the lunar year 2023. *)
Theorem getLunarFestivalDate_lunar_year (h : Host) (year : Z) :
  (forall f, month (festivals f) = 12 <->
             f = laba \/ f = xiaonian_north \/ f = xiaonian_south)
  /\ (forall f, month (festivals f) = 12 ->
        getLunarFestivalDate h f year
        = option_map showYmd
            (lunarToSolarYmd h (year - 1) 12 (day (festivals f))))
  /\ (forall f, month (festivals f) <> 12 ->
        getLunarFestivalDate h f year
        = option_map showYmd
            (lunarToSolarYmd h year (month (festivals f)) (day (festivals f))))
  /\ getLunarFestivalDate h laba year = lunarToSolar h (year - 1) 12 8
  /\ getLunarFestivalDate h xiaonian_north year = lunarToSolar h (year - 1) 12 23
  /\ getLunarFestivalDate h xiaonian_south year = lunarToSolar h (year - 1) 12 24
  /\ getLunarFestivalDate h qixi year = lunarToSolar h year 7 7
  /\ getLunarFestivalDate h longtaitou year = lunarToSolar h year 2 2
  /\ getLunarFestivalDate h laba 2024 = lunarToSolar h 2023 12 8
  /\ getLunarFestivalDate h xiaonian_north 2024 = lunarToSolar h 2023 12 23
  /\ getLunarFestivalDate h xiaonian_south 2024 = lunarToSolar h 2023 12 24.
Proof.
  assert (G : forall f y,
    getLunarFestivalDate h f y
    = lunarToSolar h (if month (festivals f) =? 12 then y - 1 else y)
        (month (festivals f)) (day (festivals f))).
  { intros f y. unfold getLunarFestivalDate.
    now destruct (lunarToSolar h _ _ _). }
  repeat split; try (rewrite G; reflexivity).
  - destruct f; simpl; intros E; try discriminate E; auto.
  - intros [-> | [-> | ->]]; reflexivity.
  - intros f E. rewrite G, E, lunarToSolar_package. reflexivity.
  - intros f E. rewrite G, lunarToSolar_package.
    destruct (Z.eqb_spec (month (festivals f)) 12); [contradiction | reflexivity].
Qed.

(** On the sample host the festivals of solar year 2024 fall on these days. *)
Example lunar_festivals_2024 :
  map (fun f => getLunarFestivalDate sampleHost f 2024)
      [qixi; laba; xiaonian_north; xiaonian_south; longtaitou]
  = [Some "2024-08-10"; Some "2024-01-18"; Some "2024-02-02";
     Some "2024-02-03"; Some "2024-03-11"].
Proof. vm_compute. reflexivity. Qed.

(** ** The feed fetcher *)

(** An unexpired entry that holds the empty string is read back by
    [cache.get], but [if (cached)] takes it for a miss: the request is sent
    and the fresh content returned. *)
Lemma cache_hit_empty_content_refetches : ~ cache_hit_sends_nothing.
Proof.
  intros H.
  destruct (H freshNet 0 1 "u" 10 emptyContentWorld "") as [_ R].
  - vm_compute. reflexivity.
  - vm_compute in R. discriminate R.
Qed.

(** C6 (amended): whenever [cache.get] returns a non-empty stored content
    for the key of the URL, [fetchICSFromURL] returns that content, sends
    no request and leaves the cache as it is. *)
Theorem fetchICSFromURL_cache_hit net nowGet nowSet url ttl w c :
  fst (Cache.get nowGet ("ics:" +:+ url) (cacheStore w)) = Some c ->
  c <> "" ->
  fetchICSFromURL net nowGet nowSet url ttl w = (Returned c, w).
Proof.
  intros Hget Hne. unfold fetchICSFromURL.
  assert (Hstore : Cache.get nowGet ("ics:" +:+ url) (cacheStore w)
                   = (Some c, cacheStore w)).
  { revert Hget. unfold Cache.get.
    destruct (cacheStore w !! ("ics:" +:+ url)) as [item|]; [|discriminate].
    destruct (nowGet >? Cache.expiresAt item); [discriminate|].
    simpl. now intros ->. }
  rewrite Hstore. simpl.
  destruct (String.eqb_spec c "") as [->|_]; [contradiction|].
  simpl. now destruct w.
Qed.

Lemma fetchICSFromURL_cache_hit_witness :
  fetchICSFromURL freshNet 0 1 "u" 10 warmWorld
  = (Returned "BEGIN:VCALENDAR", warmWorld).
Proof.
  apply fetchICSFromURL_cache_hit.
  - vm_compute. reflexivity.
  - discriminate.
Defined.

(** On a miss the request is sent and the content stored under the key. *)
Lemma fetchICSFromURL_miss net nowGet nowSet url ttl w r :
  fst (Cache.get nowGet ("ics:" +:+ url) (cacheStore w)) = None ->
  net url = Some r -> ok r = true ->
  fetchICSFromURL net nowGet nowSet url ttl w
  = (Returned (text r),
     {| cacheStore :=
          Cache.set nowSet ("ics:" +:+ url) (text r) ttl
            (snd (Cache.get nowGet ("ics:" +:+ url) (cacheStore w)));
        requests := requests w ++ [url] |}).
Proof.
  intros Hget Hnet Hok. unfold fetchICSFromURL.
  destruct (Cache.get nowGet ("ics:" +:+ url) (cacheStore w)) as [cached s1].
  simpl in Hget. subst cached. simpl. rewrite Hnet, Hok. reflexivity.
Qed.

(** ** Thanksgiving *)

Section Thanksgiving.
Variable h : Host.

(** [nov1.getDay()]: the weekday of the local date the object holds, which
    is the first of November whatever the time zone. *)
Lemma november_first_getDay year :
  JSDate.getDay h (JSDate.ofComponents h year 10 1)
  = Some ((JSDate.MakeDay (fullYear year) 10 1 + 4) mod 7).
Proof.
  unfold JSDate.getDay, JSDate.ofComponents, JSDate.LocalTime, JSDate.MakeDate,
    JSDate.WeekDay, JSDate.Day, fullYear. simpl. f_equal.
  replace (JSDate.MakeDay _ 10 1 * JSDate.msPerDay + 0 - LocalTZA h + LocalTZA h)
    with (JSDate.MakeDay (if (0 <=? year) && (year <=? 99) then 1900 + year else year) 10 1
          * JSDate.msPerDay) by lia.
  rewrite Z.div_mul by (unfold JSDate.msPerDay; lia). reflexivity.
Qed.

Lemma MakeDay_date year m d :
  JSDate.MakeDay year m d = JSDate.MakeDay year m 1 + (d - 1).
Proof. unfold JSDate.MakeDay. lia. Qed.



End Thanksgiving.

(** ** Lists, maps and sorting *)

Section MapFacts.
Context {V : Type}.
Implicit Types (m : list (string * V)) (k : string) (v : V).

Lemma Map_get_set_eq m k v : Map_get (Map_set m k v) k = Some v.
Proof.
  induction m as [|[k' v'] m IH]; simpl.
  - now rewrite String.eqb_refl.
  - destruct (String.eqb_spec k' k) as [->|Hne]; simpl.
    + now rewrite String.eqb_refl.
    + destruct (String.eqb_spec k' k); [contradiction | exact IH].
Qed.

Lemma Map_get_set_ne m k k' v :
  k <> k' -> Map_get (Map_set m k v) k' = Map_get m k'.
Proof.
  intros Hne. induction m as [|[k0 v0] m IH]; simpl.
  - destruct (String.eqb_spec k k'); [contradiction | reflexivity].
  - destruct (String.eqb_spec k0 k) as [->|Hne0]; simpl.
    + destruct (String.eqb_spec k k'); [contradiction | reflexivity].
    + now rewrite IH.
Qed.

Lemma Map_set_keys m k v :
  map fst (Map_set m k v)
  = if existsb (String.eqb k) (map fst m) then map fst m
    else map fst m ++ [k].
Proof.
  induction m as [|[k0 v0] m IH]; simpl; [reflexivity|].
  rewrite (String.eqb_sym k k0).
  destruct (String.eqb_spec k0 k) as [->|Hne]; simpl; [reflexivity|].
  rewrite IH. now destruct (existsb _ _).
Qed.

Lemma Map_set_NoDup m k v :
  NoDup (map fst m) -> NoDup (map fst (Map_set m k v)).
Proof.
  intros Hnd. rewrite Map_set_keys.
  destruct (existsb (String.eqb k) (map fst m)) eqn:E; [exact Hnd|].
  apply NoDup_app; repeat split; auto.
  - intros x Hx Hk. apply list_elem_of_In in Hx, Hk.
    destruct Hk as [<-|[]].
    assert (existsb (String.eqb k) (map fst m) = true).
    { apply existsb_exists. exists k. split; [exact Hx|apply String.eqb_refl]. }
    congruence.
  - apply NoDup_singleton.
Qed.

Lemma Map_get_In m k v :
  NoDup (map fst m) -> (In (k, v) m <-> Map_get m k = Some v).
Proof.
  induction m as [|[k0 v0] m IH]; simpl; intros Hnd.
  - split; [contradiction | discriminate].
  - apply NoDup_cons_1_2 in Hnd as Hnd'. apply NoDup_cons_1_1 in Hnd.
    destruct (String.eqb_spec k0 k) as [->|Hne].
    + split.
      * intros [E|Hin]; [now inversion E|].
        exfalso. apply Hnd. apply list_elem_of_In.
        change k with (fst (k, v)). now apply in_map.
      * intros E. left. congruence.
    + rewrite <- (IH Hnd'). split; [|tauto].
      intros [E|Hin]; [inversion E; contradiction | exact Hin].
Qed.

Lemma Map_set_In m k v k' v' :
  In (k', v') (Map_set m k v) -> (k' = k /\ v' = v) \/ In (k', v') m.
Proof.
  induction m as [|[k0 v0] m IH]; simpl.
  - intros [E|[]]. left. now inversion E.
  - destruct (String.eqb_spec k0 k) as [->|Hne]; simpl.
    + intros [E|Hin]; [left; now inversion E | right; now right].
    + intros [E|Hin]; [right; now left|].
      destruct (IH Hin); [now left | right; now right].
Qed.

End MapFacts.

Section SortFacts.
Context {A : Type}.
Variable cmp : A -> A -> Z.

Lemma sortInsert_Permutation a (l : list A) :
  Permutation (sortInsert cmp a l) (a :: l).
Proof.
  induction l as [|b l IH]; simpl; [reflexivity|].
  destruct (cmp a b <=? 0); [reflexivity|].
  rewrite IH. apply perm_swap.
Qed.

Lemma Array_sort_Permutation (l : list A) : Permutation (Array_sort cmp l) l.
Proof.
  induction l as [|a l IH]; simpl; [reflexivity|].
  rewrite sortInsert_Permutation. now constructor.
Qed.

Lemma Array_sort_In (l : list A) x : In x (Array_sort cmp l) <-> In x l.
Proof.
  split; apply Permutation_in;
    [apply Array_sort_Permutation | symmetry; apply Array_sort_Permutation].
Qed.

End SortFacts.

Lemma filter_Permutation {A} (p : A -> bool) (l l' : list A) :
  Permutation l l' -> Permutation (List.filter p l) (List.filter p l').
Proof.
  induction 1; simpl.
  - reflexivity.
  - destruct (p x); [now constructor | assumption].
  - destruct (p x), (p y); try reflexivity. apply perm_swap.
  - etransitivity; eassumption.
Qed.

Lemma filter_none {A} (p : A -> bool) (l : list A) :
  (forall x, In x l -> p x = false) -> List.filter p l = [].
Proof.
  induction l as [|a l IH]; simpl; intros H; [reflexivity|].
  rewrite (H a) by now left. apply IH. intros x Hx. apply H. now right.
Qed.

(** In a list without two elements of the same key, the elements of a given
    key are the one that has it. *)
Lemma filter_unique_key {A} (key : A -> string) (l : list A) (k : string) x :
  NoDup (map key l) -> In x l -> key x = k ->
  List.filter (fun y => String.eqb (key y) k) l = [x].
Proof.
  induction l as [|a l IH]; simpl; intros Hnd Hin Hk; [contradiction|].
  apply NoDup_cons_1_2 in Hnd as Hnd'. apply NoDup_cons_1_1 in Hnd.
  destruct Hin as [->|Hin].
  - rewrite Hk, String.eqb_refl. f_equal. apply filter_none.
    intros y Hy. apply String.eqb_neq. intros E. apply Hnd.
    apply list_elem_of_In. rewrite Hk, <- E. now apply in_map.
  - destruct (String.eqb_spec (key a) k) as [E|_]; [|now apply IH].
    exfalso. apply Hnd. apply list_elem_of_In. rewrite E, <- Hk. now apply in_map.
Qed.


(** ** The split of an event into days: what it keeps *)

Section SplitFrame.
Variable h : Host.

Lemma splitLoop_content fuel event end_ current dayIndex e' :
  In e' (splitLoop h fuel event end_ current dayIndex) ->
  sameContent e' event /\ endDate e' = None.
Proof.
  revert current dayIndex.
  induction fuel as [|fuel IH]; simpl; intros current dayIndex; [contradiction|].
  destruct (JSDate.lt current end_); [|contradiction].
  intros [<-|Hin]; [|exact (IH _ _ Hin)].
  unfold sameContent. simpl. tauto.
Qed.

Lemma splitMultiDayEvent_content event e' :
  In e' (splitMultiDayEvent h event) ->
  sameContent e' event /\ endDate e' = None.
Proof.
  unfold splitMultiDayEvent.
  destruct (_ || _).
  - intros [<-|[]]. unfold sameContent. simpl. tauto.
  - apply splitLoop_content.
Qed.

(** C10: every event [splitMultiDayEvent] produces has the summary, the
    description, the flags [isHoliday] and [isWorkday], the category and
    the source of the event it was split from. *)
Theorem splitMultiDayEvent_frame (event e' : CalendarEvent) :
  In e' (splitMultiDayEvent h event) ->
  summary e' = summary event
  /\ description e' = description event
  /\ isHoliday e' = isHoliday event
  /\ isWorkday e' = isWorkday event
  /\ category e' = category event
  /\ source e' = source event.
Proof. intros Hin. exact (proj1 (splitMultiDayEvent_content event e' Hin)). Qed.

End SplitFrame.

(** ** The merge *)

Section Merge.
Variable h : Host.

Lemma setAll_snoc m events e :
  setAll m (events ++ [e]) = Map_set (setAll m events) (eventKey e) e.
Proof. unfold setAll. now rewrite fold_left_app. Qed.

Lemma setAll_NoDup m events :
  NoDup (map fst m) -> NoDup (map fst (setAll m events)).
Proof.
  intros Hnd. induction events as [|e events IH] using rev_ind; [exact Hnd|].
  rewrite setAll_snoc. now apply Map_set_NoDup.
Qed.

Lemma setAll_In m events k v :
  In (k, v) (setAll m events) ->
  In (k, v) m \/ (In v events /\ eventKey v = k).
Proof.
  induction events as [|e events IH] using rev_ind; [now left|].
  rewrite setAll_snoc. intros Hin.
  destruct (Map_set_In _ _ _ _ _ Hin) as [[-> ->]|Hin'].
  - right. split; [apply in_or_app; right; now left | reflexivity].
  - destruct (IH Hin') as [?|[? ?]]; [now left|].
    right. split; [apply in_or_app; now left | assumption].
Qed.

(** The entry of a key that some event of the list has is the last such
    event. *)
Lemma setAll_get_present m events k :
  (exists e, In e events /\ eventKey e = k) ->
  exists e, In e events /\ eventKey e = k
            /\ Map_get (setAll m events) k = Some e.
Proof.
  induction events as [|e events IH] using rev_ind.
  - intros (e & [] & _).
  - intros (e0 & Hin & Hk). rewrite setAll_snoc.
    destruct (String.eqb_spec (eventKey e) k) as [E|Hne].
    + exists e. rewrite <- E, Map_get_set_eq.
      split; [apply in_or_app; right; now left | now split].
    + rewrite Map_get_set_ne by exact Hne.
      apply in_app_or in Hin as [Hin|[->|[]]]; [|contradiction].
      destruct IH as (e1 & Hin1 & Hk1 & Hget); [now exists e0|].
      exists e1. split; [apply in_or_app; now left | now split].
Qed.

Lemma mergeEvents_eventMap icloudEvents startYear endYear :
  mergeEvents h icloudEvents startYear endYear
  = Array_sort (fun a b => localeCompare h (date a) (date b))
               (Map_values (eventMap h icloudEvents startYear endYear)).
Proof. reflexivity. Qed.

Lemma eventMap_NoDup icloudEvents startYear endYear :
  NoDup (map fst (eventMap h icloudEvents startYear endYear)).
Proof. unfold eventMap. do 2 apply setAll_NoDup. constructor. Qed.

Lemma eventMap_In icloudEvents startYear endYear k e :
  In (k, e) (eventMap h icloudEvents startYear endYear) ->
  eventKey e = k
  /\ (In e (flat_map (splitMultiDayEvent h) icloudEvents)
      \/ exists hol,
           In hol (ExtraHolidays.getExtraHolidaysForYears h startYear endYear)
           /\ e = holidayToEvent hol).
Proof.
  unfold eventMap. intros Hin.
  apply setAll_In in Hin as [Hin|[Hin Hk]]; [|now split; [|left]].
  apply setAll_In in Hin as [[]|[Hin Hk]].
  split; [exact Hk|]. right.
  apply in_map_iff in Hin as (hol & <- & Hin). now exists hol.
Qed.

Lemma eventMap_keys icloudEvents startYear endYear :
  map eventKey (Map_values (eventMap h icloudEvents startYear endYear))
  = map fst (eventMap h icloudEvents startYear endYear).
Proof.
  unfold Map_values. rewrite map_map. apply map_ext_in.
  intros [k e] Hin. simpl. exact (proj1 (eventMap_In _ _ _ _ _ Hin)).
Qed.

Lemma mergeEvents_In icloudEvents startYear endYear e :
  In e (mergeEvents h icloudEvents startYear endYear) ->
  In e (flat_map (splitMultiDayEvent h) icloudEvents)
  \/ exists hol,
       In hol (ExtraHolidays.getExtraHolidaysForYears h startYear endYear)
       /\ e = holidayToEvent hol.
Proof.
  rewrite mergeEvents_eventMap, Array_sort_In. unfold Map_values.
  intros Hin. apply in_map_iff in Hin as ([k e'] & <- & Hin).
  exact (proj2 (eventMap_In _ _ _ _ _ Hin)).
Qed.

(** C8: no event in the output of [mergeEvents] carries an [endDate]. *)
Theorem mergeEvents_no_endDate (icloudEvents : list CalendarEvent)
    (startYear endYear : Z) (e : CalendarEvent) :
  In e (mergeEvents h icloudEvents startYear endYear) -> endDate e = None.
Proof.
  intros Hin. apply mergeEvents_In in Hin as [Hin|(hol & _ & ->)].
  - apply in_flat_map in Hin as (u & _ & Hin).
    exact (proj2 (splitMultiDayEvent_content h u e Hin)).
  - reflexivity.
Qed.

(** C1: when a split upstream event and a supplementary holiday have the
    same key, the output of [mergeEvents] has exactly one event of that
    key, it is one of the split upstream events, and it carries the source
    [icloud] when the upstream events do. *)
Theorem mergeEvents_upstream_wins (icloudEvents : list CalendarEvent)
    (startYear endYear : Z) (s : CalendarEvent) (hol : ExtraHolidays.Holiday) :
  In s (flat_map (splitMultiDayEvent h) icloudEvents) ->
  In hol (ExtraHolidays.getExtraHolidaysForYears h startYear endYear) ->
  eventKey s = eventKey (holidayToEvent hol) ->
  exists e,
    List.filter (fun x => String.eqb (eventKey x) (eventKey s))
                (mergeEvents h icloudEvents startYear endYear) = [e]
    /\ In e (flat_map (splitMultiDayEvent h) icloudEvents)
    /\ ((forall u, In u icloudEvents -> source u = icloud) ->
        source e = icloud /\ e <> holidayToEvent hol).
Proof.
  intros Hs _ _.
  destruct (setAll_get_present
              (setAll [] (map holidayToEvent
                 (ExtraHolidays.getExtraHolidaysForYears h startYear endYear)))
              (flat_map (splitMultiDayEvent h) icloudEvents) (eventKey s))
    as (e & Hin & Hk & Hget); [now exists s|].
  fold (eventMap h icloudEvents startYear endYear) in Hget.
  exists e. split; [|split; [exact Hin|]].
  - apply Map_get_In in Hget; [|apply eventMap_NoDup].
    assert (Hv : In e (Map_values (eventMap h icloudEvents startYear endYear))).
    { unfold Map_values. change e with (snd (eventKey s, e)). now apply in_map. }
    pose proof (filter_unique_key eventKey
      (Map_values (eventMap h icloudEvents startYear endYear)) (eventKey s) e) as Hf.
    rewrite eventMap_keys in Hf.
    specialize (Hf (eventMap_NoDup _ _ _) Hv Hk).
    apply Permutation_length_1_inv. rewrite <- Hf. symmetry.
    rewrite mergeEvents_eventMap.
    apply filter_Permutation, Array_sort_Permutation.
  - intros Hsrc. apply in_flat_map in Hin as (u & Hu & Hin).
    destruct (splitMultiDayEvent_content h u e Hin) as [(_&_&_&_&_&Hsource) _].
    assert (E : source e = icloud) by (rewrite Hsource; now apply Hsrc).
    split; [exact E|]. intros ->. discriminate E.
Qed.

End Merge.

(** ** Identifiers in the output of the merge *)


Section HolidayNames.
Variable h : Host.
Import ExtraHolidays.




End HolidayNames.





(** ** Worked examples of the split and the merge *)

(** At UTC+8 the three days of the national holiday come out as they
    stand in the feed. *)
Example split_nationalDay :
  splitMultiDayEvent sampleHost nationalDay
  = [ dayOf nationalDay 0 "2024-10-01"; dayOf nationalDay 1 "2024-10-02";
      dayOf nationalDay 2 "2024-10-03" ].
Proof. vm_compute. reflexivity. Qed.

Lemma splitMultiDayEvent_frame_witness :
  summary (dayOf nationalDay 1 "2024-10-02") = summary nationalDay
  /\ description (dayOf nationalDay 1 "2024-10-02") = description nationalDay
  /\ isHoliday (dayOf nationalDay 1 "2024-10-02") = isHoliday nationalDay
  /\ isWorkday (dayOf nationalDay 1 "2024-10-02") = isWorkday nationalDay
  /\ category (dayOf nationalDay 1 "2024-10-02") = category nationalDay
  /\ source (dayOf nationalDay 1 "2024-10-02") = source nationalDay.
Proof.
  apply (splitMultiDayEvent_frame sampleHost nationalDay).
  vm_compute. right. left. reflexivity.
Defined.

(** The worked case of the specification: the upstream event and the
    supplementary holiday of 2024-02-14 are merged into the upstream one. *)
Example merge_valentine :
  List.filter (fun x => String.eqb (eventKey x) "2024-02-14-情人节")
    (mergeEvents sampleHost [upstreamValentine] 2024 2024)
  = [ {| uid := "cn-valentine"; summary := "情人节"; date := "2024-02-14";
         endDate := None; description := None;
         isHoliday := Some false; isWorkday := Some false;
         category := None; source := icloud |} ].
Proof. vm_compute. reflexivity. Qed.

Lemma mergeEvents_upstream_wins_witness :
  exists e,
    List.filter (fun x => String.eqb (eventKey x) (eventKey upstreamValentine))
      (mergeEvents sampleHost [upstreamValentine] 2024 2024) = [e]
    /\ In e (flat_map (splitMultiDayEvent sampleHost) [upstreamValentine])
    /\ ((forall u, In u [upstreamValentine] -> source u = icloud) ->
        source e = icloud /\ e <> holidayToEvent valentineHoliday).
Proof.
  apply (mergeEvents_upstream_wins sampleHost [upstreamValentine] 2024 2024
           upstreamValentine valentineHoliday).
  - vm_compute. left. reflexivity.
  - vm_compute. left. reflexivity.
  - vm_compute. reflexivity.
Defined.

Lemma mergeEvents_no_endDate_witness :
  endDate (dayOf nationalDay 0 "2024-10-01") = None.
Proof.
  apply (mergeEvents_no_endDate sampleHost [nationalDay] 2024 2023).
  vm_compute. left. reflexivity.
Defined.


(** ** Calendar arithmetic of [Date] *)

Section DateArithmetic.
Import JSDate.

Ltac case_ifs :=
  repeat match goal with
         | |- context [if ?c then _ else _] => destruct c eqn:?
         end.

Lemma DaysInYear_cases y : DaysInYear y = 365 \/ DaysInYear y = 366.
Proof. unfold DaysInYear. case_ifs; auto. Qed.

Lemma DayFromYear_succ y : DayFromYear (y + 1) = DayFromYear y + DaysInYear y.
Proof.
  unfold DayFromYear, DaysInYear.
  destruct (Z.eqb_spec (y mod 4) 0); simpl; [|lia].
  destruct (Z.eqb_spec (y mod 100) 0); simpl; [|lia].
  destruct (Z.eqb_spec (y mod 400) 0); simpl; lia.
Qed.

Lemma DayFromYear_le y y' : y <= y' -> DayFromYear y <= DayFromYear y'.
Proof. unfold DayFromYear. lia. Qed.

Lemma YearFromDay_spec d :
  DayFromYear (YearFromDay d) <= d < DayFromYear (YearFromDay d + 1).
Proof.
  unfold YearFromDay.
  set (y := 1970 + 400 * d / 146097).
  assert (Hy : 146097 * (y - 1970) <= 400 * d
               < 146097 * (y - 1970) + 146097) by (unfold y; lia).
  clearbody y.
  destruct (Z.ltb_spec d (DayFromYear y)).
  - replace (y - 1 + 1) with y by lia. split; [|lia].
    unfold DayFromYear in *. lia.
  - destruct (Z.leb_spec (DayFromYear (y + 1)) d); [|lia].
    split; [lia|]. unfold DayFromYear in *. lia.
Qed.

(** [YearFromDay d] is the year whose days include [d]. *)
Lemma YearFromDay_unique y d :
  DayFromYear y <= d < DayFromYear (y + 1) -> YearFromDay d = y.
Proof.
  intros Hy. pose proof (YearFromDay_spec d) as Hs.
  destruct (Z.lt_trichotomy (YearFromDay d) y) as [Hlt|[E|Hgt]]; [|exact E|].
  - pose proof (DayFromYear_le (YearFromDay d + 1) y). lia.
  - pose proof (DayFromYear_le (y + 1) (YearFromDay d)). lia.
Qed.

Lemma leapOf_range y : 0 <= leapOf y <= 1 /\ DaysInYear y = 365 + leapOf y.
Proof.
  unfold leapOf. destruct (DaysInYear_cases y) as [E|E]; rewrite E; simpl; lia.
Qed.

Lemma twelve_cases m :
  0 <= m <= 11 ->
  m = 0 \/ m = 1 \/ m = 2 \/ m = 3 \/ m = 4 \/ m = 5 \/ m = 6 \/ m = 7
  \/ m = 8 \/ m = 9 \/ m = 10 \/ m = 11.
Proof. lia. Qed.

Lemma monthOfDayWithinYear_spec leap d :
  0 <= leap <= 1 -> 0 <= d < 365 + leap ->
  0 <= monthOfDayWithinYear leap d <= 11
  /\ daysBeforeMonth leap (monthOfDayWithinYear leap d) <= d
     < daysBeforeMonth leap (monthOfDayWithinYear leap d + 1).
Proof.
  intros Hl Hd. unfold monthOfDayWithinYear.
  case_ifs; (split; [lia|]); unfold daysBeforeMonth; simpl; lia.
Qed.

Lemma monthOfDayWithinYear_unique leap m d :
  0 <= leap <= 1 -> 0 <= m <= 11 ->
  daysBeforeMonth leap m <= d < daysBeforeMonth leap (m + 1) ->
  monthOfDayWithinYear leap d = m.
Proof.
  intros Hl Hm.
  destruct (twelve_cases m Hm) as [->|[->|[->|[->|[->|[->|[->|[->|[->|[->|[->| ->]]]]]]]]]]];
    unfold daysBeforeMonth; simpl; intros Hd;
    unfold monthOfDayWithinYear; case_ifs; lia.
Qed.

Lemma daysBeforeMonth_next y m :
  0 <= m <= 11 ->
  daysBeforeMonth (leapOf y) (m + 1)
  = daysBeforeMonth (leapOf y) m + daysInMonth y (m + 1).
Proof.
  intros Hm. unfold daysInMonth. fold (leapOf y).
  destruct (leapOf_range y) as [Hl _].
  assert (El : (if DaysInYear y =? 366 then 29 else 28) = 28 + leapOf y).
  { unfold leapOf. now destruct (DaysInYear y =? 366). }
  rewrite El.
  destruct (twelve_cases m Hm) as [->|[->|[->|[->|[->|[->|[->|[->|[->|[->|[->| ->]]]]]]]]]]];
    unfold daysBeforeMonth; simpl; lia.
Qed.

Lemma daysBeforeMonth_range leap m :
  0 <= leap <= 1 -> 0 <= m <= 11 ->
  0 <= daysBeforeMonth leap m /\ daysBeforeMonth leap (m + 1) <= 365 + leap.
Proof.
  intros Hl Hm.
  destruct (twelve_cases m Hm) as [->|[->|[->|[->|[->|[->|[->|[->|[->|[->|[->| ->]]]]]]]]]]];
    unfold daysBeforeMonth; simpl; lia.
Qed.

Lemma daysInMonth_range y m : 28 <= daysInMonth y m <= 31.
Proof. unfold daysInMonth. case_ifs; lia. Qed.

Lemma MakeDay_in_year y m d :
  validMd y m d ->
  MakeDay y (m - 1) d = DayFromYear y + daysBeforeMonth (leapOf y) (m - 1) + d - 1
  /\ DayFromYear y <= MakeDay y (m - 1) d < DayFromYear (y + 1)
  /\ daysBeforeMonth (leapOf y) (m - 1) <= MakeDay y (m - 1) d - DayFromYear y
     < daysBeforeMonth (leapOf y) (m - 1 + 1).
Proof.
  intros [Hm Hd].
  assert (E : MakeDay y (m - 1) d
              = DayFromYear y + daysBeforeMonth (leapOf y) (m - 1) + d - 1).
  { unfold MakeDay, leapOf.
    replace ((m - 1) / 12) with 0 by lia.
    replace ((m - 1) mod 12) with (m - 1) by lia.
    now replace (y + 0) with y by lia. }
  split; [exact E|]. rewrite E, DayFromYear_succ.
  destruct (leapOf_range y) as [Hl ->].
  pose proof (daysBeforeMonth_next y (m - 1)) as Hn.
  replace (m - 1 + 1) with m in * by lia.
  pose proof (daysBeforeMonth_range (leapOf y) (m - 1) Hl).
  replace (m - 1 + 1) with m in * by lia. lia.
Qed.

Lemma civil_of_time t :
  (YearFromTime t, MonthFromTime t + 1, DateFromTime t) = civilOfDay (Day t).
Proof. reflexivity. Qed.

Lemma civilOfDay_MakeDay y m d :
  validMd y m d -> civilOfDay (MakeDay y (m - 1) d) = (y, m, d).
Proof.
  intros Hv. destruct (MakeDay_in_year y m d Hv) as (E & Hy & Hw).
  destruct Hv as [Hm Hd]. unfold civilOfDay.
  rewrite (YearFromDay_unique y _ Hy).
  rewrite (monthOfDayWithinYear_unique (leapOf y) (m - 1));
    [|apply leapOf_range | lia | exact Hw].
  f_equal; [f_equal; lia | lia].
Qed.

Lemma civilOfDay_valid n :
  let '(y, m, d) := civilOfDay n in
  validMd y m d /\ MakeDay y (m - 1) d = n.
Proof.
  unfold civilOfDay.
  pose proof (YearFromDay_spec n) as Hs. set (y := YearFromDay n) in *.
  rewrite DayFromYear_succ in Hs.
  destruct (leapOf_range y) as [Hl El]. rewrite El in Hs.
  destruct (monthOfDayWithinYear_spec (leapOf y) (n - DayFromYear y) Hl)
    as [Hm Hw]; [lia|].
  set (m := monthOfDayWithinYear (leapOf y) (n - DayFromYear y)) in *.
  rewrite daysBeforeMonth_next in Hw by exact Hm.
  assert (Hv : validMd y (m + 1) (n - DayFromYear y - daysBeforeMonth (leapOf y) m + 1)).
  { unfold validMd. lia. }
  split; [exact Hv|].
  destruct (MakeDay_in_year _ _ _ Hv) as (E & _).
  rewrite E. replace (m + 1 - 1) with m by lia. lia.
Qed.

Lemma nextDay_MakeDay y m d :
  validMd y m d ->
  let '(y', m', d') := nextDay (y, m, d) in
  validMd y' m' d' /\ MakeDay y' (m' - 1) d' = MakeDay y (m - 1) d + 1.
Proof.
  intros Hv. destruct (MakeDay_in_year y m d Hv) as (E & _).
  destruct Hv as [Hm Hd]. unfold nextDay.
  destruct (Z.ltb_spec d (daysInMonth y m)).
  - assert (Hv' : validMd y m (d + 1)) by (unfold validMd; lia).
    split; [exact Hv'|].
    destruct (MakeDay_in_year _ _ _ Hv') as (E' & _). lia.
  - pose proof (daysBeforeMonth_next y (m - 1)) as Hn.
    replace (m - 1 + 1) with m in Hn by lia.
    destruct (Z.ltb_spec m 12).
    + assert (Hv' : validMd y (m + 1) 1).
      { unfold validMd. pose proof (daysInMonth_range y (m + 1)). lia. }
      split; [exact Hv'|].
      destruct (MakeDay_in_year _ _ _ Hv') as (E' & _).
      specialize (Hn ltac:(lia)).
      replace (m + 1 - 1) with m in * by lia. lia.
    + assert (m = 12) by lia. subst m.
      assert (Hv' : validMd (y + 1) 1 1).
      { unfold validMd. pose proof (daysInMonth_range (y + 1) 1). lia. }
      split; [exact Hv'|].
      destruct (MakeDay_in_year _ _ _ Hv') as (E' & _).
      rewrite E', DayFromYear_succ. destruct (leapOf_range y) as [_ ->].
      change (daysBeforeMonth (leapOf (y + 1)) (1 - 1)) with 0.
      change (12 - 1 + 1) with 12 in Hn. change (12 - 1) with 11 in *.
      unfold daysBeforeMonth in Hn at 1. simpl in Hn. lia.
Qed.

Lemma civilOfDay_succ n : civilOfDay (n + 1) = nextDay (civilOfDay n).
Proof.
  pose proof (civilOfDay_valid n) as Hv.
  destruct (civilOfDay n) as [[y m] d]. destruct Hv as [Hv <-].
  pose proof (nextDay_MakeDay y m d Hv) as Hn.
  destruct (nextDay (y, m, d)) as [[y' m'] d']. destruct Hn as [Hv' <-].
  now apply civilOfDay_MakeDay.
Qed.

Lemma civilOfDay_add n (k : nat) :
  civilOfDay (n + Z.of_nat k) = Nat.iter k nextDay (civilOfDay n).
Proof.
  induction k as [|k IH]; simpl.
  - f_equal. lia.
  - rewrite <- IH, <- civilOfDay_succ. f_equal. lia.
Qed.

Lemma daysBeforeMonth_mono leap m m' :
  0 <= leap <= 1 -> 0 <= m <= 11 -> 0 <= m' <= 11 -> m + 1 <= m' ->
  daysBeforeMonth leap (m + 1) <= daysBeforeMonth leap m'.
Proof.
  intros Hl Hm Hm' Hlt.
  destruct (twelve_cases m Hm) as [->|[->|[->|[->|[->|[->|[->|[->|[->|[->|[->| ->]]]]]]]]]]];
  destruct (twelve_cases m' Hm') as [->|[->|[->|[->|[->|[->|[->|[->|[->|[->|[->| ->]]]]]]]]]]];
    try lia; unfold daysBeforeMonth; simpl; lia.
Qed.

Lemma MakeDay_before y m d y' m' d' :
  validMd y m d -> validMd y' m' d' -> before (y, m, d) (y', m', d') ->
  MakeDay y (m - 1) d < MakeDay y' (m' - 1) d'.
Proof.
  intros Hv Hv' Hb.
  destruct (MakeDay_in_year y m d Hv) as (E & Hy & Hw).
  destruct (MakeDay_in_year y' m' d' Hv') as (E' & Hy' & Hw').
  destruct Hb as [Hlt|[<- [Hlt|[<- Hlt]]]].
  - pose proof (DayFromYear_le (y + 1) y'). lia.
  - destruct Hv as [Hm _], Hv' as [Hm' _].
    pose proof (daysBeforeMonth_mono (leapOf y) (m - 1) (m' - 1)
                  (proj1 (leapOf_range y))). lia.
  - lia.
Qed.

End DateArithmetic.

(** ** Dates as strings *)

Section DateStrings.
Import JSDate.

Lemma forallb_range (f : Z -> bool) (lo len : Z) :
  forallb f (map (fun i => lo + Z.of_nat i) (seq 0 (Z.to_nat len))) = true ->
  forall n, lo <= n < lo + len -> f n = true.
Proof.
  intros H n Hn. rewrite forallb_forall in H. apply H.
  apply in_map_iff. exists (Z.to_nat (n - lo)). split; [lia|].
  apply in_seq. lia.
Qed.

Lemma fourDigits_years y : 1000 <= y <= 9999 -> fourDigits y = true.
Proof.
  intros Hy. apply (forallb_range fourDigits 1000 9000); [|lia].
  vm_compute. reflexivity.
Qed.

Lemma twoDigits_small n : 0 <= n <= 99 -> twoDigits n = true.
Proof.
  intros Hn. apply (forallb_range twoDigits 0 100); [|lia].
  vm_compute. reflexivity.
Qed.

Lemma digitsValue_step acc a s :
  JS.isDigit a = true ->
  JS.digitsValue acc (String a s) = JS.digitsValue (10 * acc + JS.digitValue a) s.
Proof. intros H. cbn [JS.digitsValue]. now rewrite H. Qed.

Lemma parseIsoDate_chars a b c d m1 m2 d1 d2 :
  parseIsoDate
    (dateChars a b c d m1 m2 d1 d2)
  = match JS.parseDigits (String a (String b (String c (String d ""))))
    with
    | Some y =>
        match JS.parseDigits (String m1 (String m2 "")) with
        | Some m =>
            match JS.parseDigits (String d1 (String d2 "")) with
            | Some dd => Some (y, m, dd)
            | None => None
            end
        | None => None
        end
    | None => None
    end.
Proof.
  unfold parseIsoDate, dateChars.
  change (JS.slice 0 4 _) with (String a (String b (String c (String d "")))).
  change (JS.slice 5 7 _) with (String m1 (String m2 "")).
  change (JS.slice 8 10 _) with (String d1 (String d2 "")).
  change (JS.slice 4 5 _) with "-". change (JS.slice 7 8 _) with "-".
  change ((String.length _ =? 10)%nat && String.eqb "-" "-"
          && String.eqb "-" "-") with true.
  cbv iota.
  destruct (JS.parseDigits (String a _)) as [y|]; [|reflexivity].
  destruct (JS.parseDigits (String m1 _)) as [m|]; [|reflexivity].
  destruct (JS.parseDigits (String d1 _)) as [dd|]; reflexivity.
Qed.

(** The characters of a date in the format [YYYY-MM-DD]. *)
Lemma showYmd_chars y m d :
  1000 <= y <= 9999 -> 0 <= m <= 99 -> 0 <= d <= 99 ->
  exists a b c e m1 m2 d1 d2,
    showYmd (y, m, d)
    = dateChars a b c e m1 m2 d1 d2
    /\ JS.parseDigits (String a (String b (String c (String e "")))) = Some y
    /\ JS.parseDigits (String m1 (String m2 "")) = Some m
    /\ JS.parseDigits (String d1 (String d2 "")) = Some d
    /\ JS.isDigit a = true /\ JS.isDigit b = true /\ JS.isDigit c = true
    /\ JS.isDigit e = true /\ JS.isDigit m1 = true /\ JS.isDigit m2 = true
    /\ JS.isDigit d1 = true /\ JS.isDigit d2 = true.
Proof.
  intros Hy Hm Hd.
  pose proof (fourDigits_years y Hy) as Fy.
  pose proof (twoDigits_small m Hm) as Fm.
  pose proof (twoDigits_small d Hd) as Fd.
  unfold showYmd, fourDigits, twoDigits in *.
  destruct (JS.numberToString y) as [|a [|b [|c [|e [|? ?]]]]];
    try discriminate Fy.
  destruct (JS.padStart2 (JS.numberToString m)) as [|m1 [|m2 [|? ?]]];
    try discriminate Fm.
  destruct (JS.padStart2 (JS.numberToString d)) as [|d1 [|d2 [|? ?]]];
    try discriminate Fd.
  do 4 (apply andb_true_iff in Fy as [Fy ?]).
  do 2 (apply andb_true_iff in Fm as [Fm ?]).
  do 2 (apply andb_true_iff in Fd as [Fd ?]).
  exists a, b, c, e, m1, m2, d1, d2.
  split; [reflexivity|].
  unfold JS.parseDigits.
  rewrite !digitsValue_step by assumption. cbn [JS.digitsValue].
  repeat split; try assumption; f_equal; lia.
Qed.

Lemma parseIsoDate_showYmd ymd :
  validDate ymd -> parseIsoDate (showYmd ymd) = Some ymd.
Proof.
  destruct ymd as [[y m] d]. intros [Hy [Hm Hd]].
  pose proof (daysInMonth_range y m).
  destruct (showYmd_chars y m d) as
    (a & b & c & e & m1 & m2 & d1 & d2 & -> & Py & Pm & Pd & _);
    [lia | lia | lia |].
  rewrite parseIsoDate_chars, Py, Pm, Pd. reflexivity.
Qed.

Lemma showYmd_inj a b :
  validDate a -> validDate b -> showYmd a = showYmd b -> a = b.
Proof.
  intros Ha Hb E. apply parseIsoDate_showYmd in Ha, Hb.
  rewrite E in Ha. congruence.
Qed.

Lemma showYmd_nonempty ymd : validDate ymd -> String.eqb (showYmd ymd) "" = false.
Proof.
  destruct ymd as [[y m] d]. intros [Hy [Hm Hd]].
  pose proof (daysInMonth_range y m).
  destruct (showYmd_chars y m d) as (a & b & c & e & m1 & m2 & d1 & d2 & -> & _);
    [lia | lia | lia |]. reflexivity.
Qed.

Lemma validDate_validYmd y m d : validDate (y, m, d) -> validYmd y m d = true.
Proof.
  intros [Hy [Hm Hd]]. unfold validYmd.
  repeat (apply andb_true_intro; split); apply Z.leb_le; lia.
Qed.

(** [new Date("YYYY-MM-DD")] is midnight UTC of that day. *)
Lemma ofString_showYmd h y m d :
  validDate (y, m, d) ->
  ofString h (showYmd (y, m, d)) = Some (MakeDay y (m - 1) d * msPerDay).
Proof.
  intros Hv. unfold ofString.
  rewrite (parseIsoDate_showYmd _ Hv), (validDate_validYmd _ _ _ Hv).
  unfold MakeDate. f_equal. lia.
Qed.

End DateStrings.

(** ** The split of an event into days: which days *)

Section SplitDays.
Import JSDate.
Variable h : Host.

(** One round of the loop moves [current] on by one day. *)
Lemma setDate_next_day t :
  setDate h (Some t) (option_map (fun d => d + 1) (getDate h (Some t)))
  = Some (t + msPerDay).
Proof.
  unfold setDate, getDate, option_map, LocalTime, UTC, MakeDate.
  set (l := t + LocalTZA h). f_equal.
  pose proof (civilOfDay_valid (Day l)) as Hv.
  rewrite <- civil_of_time in Hv. destruct Hv as [_ Hv].
  replace (MonthFromTime l + 1 - 1) with (MonthFromTime l) in Hv by lia.
  rewrite MakeDay_date in Hv.
  rewrite MakeDay_date.
  assert (E : MakeDay (YearFromTime l) (MonthFromTime l) 1
                + (DateFromTime l + 1 - 1) = Day l + 1) by lia.
  rewrite E. unfold Day, TimeWithinDay, msPerDay, l. lia.
Qed.

Lemma splitLoop_S fuel event end_ current dayIndex :
  splitLoop h (S fuel) event end_ current dayIndex
  = if lt current end_ then
      dayOf event dayIndex (formatDateString h current)
      :: splitLoop h fuel event end_
           (setDate h current
              (option_map (fun d => d + 1) (getDate h current)))
           (dayIndex + 1)
    else [].
Proof. reflexivity. Qed.

(** The loop has come to its end before the fuel runs out: more fuel does
    not change its result. *)
Lemma splitLoop_fuel_enough event e fuel c dayIndex extra :
  e - c < Z.of_nat fuel * msPerDay ->
  splitLoop h (fuel + extra) event (Some e) (Some c) dayIndex
  = splitLoop h fuel event (Some e) (Some c) dayIndex.
Proof.
  revert c dayIndex. induction fuel as [|fuel IH]; intros c dayIndex Hlt.
  - change (0 + extra)%nat with extra.
    destruct extra; [reflexivity|]. rewrite splitLoop_S. unfold lt.
    destruct (Z.ltb_spec c e); [lia | reflexivity].
  - change (S fuel + extra)%nat with (S (fuel + extra)).
    rewrite !splitLoop_S. destruct (lt (Some c) (Some e)); [|reflexivity].
    f_equal. rewrite !setDate_next_day. apply IH. unfold msPerDay in *. lia.
Qed.

Lemma splitLoop_invalid fuel event end_ current dayIndex :
  end_ = None \/ current = None ->
  splitLoop h fuel event end_ current dayIndex = [].
Proof.
  intros H. destruct fuel; [reflexivity|]. rewrite splitLoop_S.
  destruct H as [-> | ->]; [now destruct current | reflexivity].
Qed.

(** X3: the loop of [splitMultiDayEvent] has ended within the rounds
    [splitFuel] allows: with more fuel the result is the same. *)
Lemma splitLoop_fuel event start end_ extra :
  splitLoop h (splitFuel start end_ + extra) event end_ start 0
  = splitLoop h (splitFuel start end_) event end_ start 0.
Proof.
  destruct start as [c|]; [destruct end_ as [e|]|].
  - apply splitLoop_fuel_enough. unfold splitFuel, msPerDay.
    destruct (Z.le_gt_cases 0 (e - c)); lia.
  - rewrite !splitLoop_invalid; auto.
  - rewrite !splitLoop_invalid; auto.
Qed.

Lemma formatDateString_civil t :
  formatDateString h (Some t) = showYmd (civilOfDay (Day (LocalTime h t))).
Proof. reflexivity. Qed.

Hypothesis east_of_UTC : 0 <= LocalTZA h < msPerDay.

Lemma local_day n : Day (LocalTime h (n * msPerDay)) = n.
Proof. unfold Day, LocalTime, msPerDay in *. lia. Qed.

(** From midnight UTC of day [n] to midnight UTC of day [n + k] the loop
    produces the [k] days from [n] on. *)
Lemma splitLoop_days event (k : nat) : forall fuel n dayIndex,
  (k <= fuel)%nat ->
  splitLoop h fuel event (Some ((n + Z.of_nat k) * msPerDay))
            (Some (n * msPerDay)) dayIndex
  = map (fun i => dayOf event (dayIndex + Z.of_nat i)
                    (showYmd (civilOfDay (n + Z.of_nat i))))
        (seq 0 k).
Proof.
  induction k as [|k IH]; intros fuel n dayIndex Hk.
  - replace (n + Z.of_nat 0) with n by lia.
    destruct fuel; [reflexivity|]. rewrite splitLoop_S. unfold lt.
    now rewrite Z.ltb_irrefl.
  - destruct fuel as [|fuel]; [lia|]. rewrite splitLoop_S. unfold lt.
    destruct (Z.ltb_spec (n * msPerDay) ((n + Z.of_nat (S k)) * msPerDay))
      as [_|Hge]; [|unfold msPerDay in Hge; lia].
    rewrite formatDateString_civil, local_day, setDate_next_day.
    replace (n * msPerDay + msPerDay) with ((n + 1) * msPerDay) by lia.
    replace (n + Z.of_nat (S k)) with (n + 1 + Z.of_nat k) by lia.
    rewrite IH by lia.
    cbn [seq map]. rewrite <- seq_shift, map_map. f_equal.
    + do 2 f_equal; f_equal; lia.
    + apply map_ext. intros i. f_equal; [lia | do 2 f_equal; lia].
Qed.

End SplitDays.

(** X2: an event that has no [endDate], or whose [endDate] is its [date],
    comes back alone, without [endDate] and otherwise as it was, on every
    host. *)
Lemma splitMultiDayEvent_single (h : Host) (event : CalendarEvent) :
  endDate event = None \/ endDate event = Some (date event) ->
  splitMultiDayEvent h event
  = [ {| uid := uid event; summary := summary event; date := date event;
         endDate := None; description := description event;
         isHoliday := isHoliday event; isWorkday := isWorkday event;
         category := category event; source := source event |} ].
Proof.
  intros [E|E]; unfold splitMultiDayEvent; rewrite E; simpl.
  - reflexivity.
  - rewrite String.eqb_refl. now rewrite orb_true_r.
Qed.

Lemma splitMultiDayEvent_single_witness :
  splitMultiDayEvent westernHost upstreamValentine
  = [ {| uid := uid upstreamValentine; summary := summary upstreamValentine;
         date := date upstreamValentine; endDate := None;
         description := description upstreamValentine;
         isHoliday := isHoliday upstreamValentine;
         isWorkday := isWorkday upstreamValentine;
         category := category upstreamValentine;
         source := source upstreamValentine |} ].
Proof.
  apply (splitMultiDayEvent_single westernHost upstreamValentine).
  left. reflexivity.
Defined.

(** X1: where the local time zone is UTC or east of it, an event from the day
    [a] to the later day [b] is split into one event for each day from [a]
    up to, not including, [b], in this order; the event of index [i] has
    the identifier of the event followed by [-day] and [i], the [i]-th day
    after [a] as its date, and no [endDate]. *)
Theorem splitMultiDayEvent_days (h : Host) (event : CalendarEvent)
    (a b : Z * Z * Z) :
  0 <= LocalTZA h < JSDate.msPerDay ->
  validDate a -> validDate b -> before a b ->
  date event = showYmd a -> endDate event = Some (showYmd b) ->
  exists k : nat,
    (0 < k)%nat
    /\ Nat.iter k nextDay a = b
    /\ (forall i, (i < k)%nat -> before (Nat.iter i nextDay a) b)
    /\ splitMultiDayEvent h event
       = map (fun i => dayOf event (Z.of_nat i)
                         (showYmd (Nat.iter i nextDay a)))
             (seq 0 k).
Proof.
  intros Htz Ha Hb Hab Hdate Hend.
  destruct a as [[y m] d], b as [[y' m'] d'].
  pose proof (MakeDay_before y m d y' m' d' (proj2 Ha) (proj2 Hb) Hab) as Hlt.
  set (n := JSDate.MakeDay y (m - 1) d) in *.
  set (n' := JSDate.MakeDay y' (m' - 1) d') in *.
  pose proof (civilOfDay_MakeDay y m d (proj2 Ha)) as Ca. fold n in Ca.
  pose proof (civilOfDay_MakeDay y' m' d' (proj2 Hb)) as Cb. fold n' in Cb.
  exists (Z.to_nat (n' - n)).
  assert (En' : n' = n + Z.of_nat (Z.to_nat (n' - n))) by lia.
  split; [lia|]. split; [|split].
  - rewrite <- Ca, <- civilOfDay_add, <- En'. exact Cb.
  - intros i Hi. rewrite <- Ca, <- civilOfDay_add.
    pose proof (civilOfDay_valid (n + Z.of_nat i)) as Hv.
    destruct (civilOfDay (n + Z.of_nat i)) as [[yi mi] di].
    destruct Hv as [Hv Hn].
    destruct (Z.lt_trichotomy yi y') as [?|[->|Hgt]]; [now left | |].
    + right. split; [reflexivity|].
      destruct (Z.lt_trichotomy mi m') as [?|[->|Hgt]]; [now left | |].
      * right. split; [reflexivity|].
        destruct (Z.lt_ge_cases di d') as [?|Hge]; [assumption|].
        exfalso. pose proof (MakeDay_date y' (m' - 1) di).
        pose proof (MakeDay_date y' (m' - 1) d'). unfold n' in *. lia.
      * exfalso.
        pose proof (MakeDay_before y' m' d' y' mi di (proj2 Hb) Hv) as Hc.
        simpl in Hc. fold n' in Hc. lia.
    + exfalso.
      pose proof (MakeDay_before y' m' d' yi mi di (proj2 Hb) Hv) as Hc.
      simpl in Hc. fold n' in Hc. lia.
  - unfold splitMultiDayEvent. rewrite Hend, Hdate.
    cbn [JS.truthyString negb orb].
    rewrite (showYmd_nonempty _ Hb). cbn [negb orb].
    destruct (String.eqb_spec (showYmd (y, m, d)) (showYmd (y', m', d'))) as [E|_].
    { apply showYmd_inj in E; [|assumption..]. inversion E; subst.
      unfold n, n' in Hlt. lia. }
    rewrite !ofString_showYmd by assumption. fold n n'.
    rewrite En' at 2.
    rewrite <- (Nat.add_0_r (splitFuel _ _)).
    rewrite En' at 1.
    rewrite Nat.add_0_r.
    rewrite splitLoop_days; [|exact Htz|].
    + apply map_ext. intros i. rewrite <- Ca, civilOfDay_add. reflexivity.
    + unfold splitFuel. rewrite <- En'.
      replace (n' * JSDate.msPerDay - n * JSDate.msPerDay)
        with ((n' - n) * JSDate.msPerDay) by lia.
      rewrite Z.div_mul by (unfold JSDate.msPerDay; lia). lia.
Qed.

Lemma splitMultiDayEvent_days_witness :
  exists k : nat,
    (0 < k)%nat
    /\ Nat.iter k nextDay (2024, 10, 1) = (2024, 10, 4)
    /\ (forall i, (i < k)%nat ->
          before (Nat.iter i nextDay (2024, 10, 1)) (2024, 10, 4))
    /\ splitMultiDayEvent sampleHost nationalDay
       = map (fun i => dayOf nationalDay (Z.of_nat i)
                         (showYmd (Nat.iter i nextDay (2024, 10, 1))))
             (seq 0 k).
Proof.
  apply (splitMultiDayEvent_days sampleHost nationalDay (2024, 10, 1) (2024, 10, 4)).
  - vm_compute. split; [discriminate | reflexivity].
  - vm_compute. intuition discriminate.
  - vm_compute. intuition discriminate.
  - vm_compute. right. split; [reflexivity|]. right. split; reflexivity.
  - vm_compute. reflexivity.
  - vm_compute. reflexivity.
Defined.

(** C2: west of UTC the split of the event from 2024-10-01 to 2024-10-04
    does not yield the days 2024-10-01, 2024-10-02 and 2024-10-03: it yields
    three events dated one day early, from 2024-09-30 on (the date string is
    read as midnight UTC and written back as a local date). *)
Theorem splitMultiDayEvent_west_of_UTC :
  splitMultiDayEvent westernHost nationalDay
  = [ dayOf nationalDay 0 "2024-09-30"; dayOf nationalDay 1 "2024-10-01";
      dayOf nationalDay 2 "2024-10-02" ].
Proof. vm_compute. reflexivity. Qed.

(** ** The serializer read back by the parser: lines *)

Section Lines.
Import ICAL.

Lemma append_cons x (a b : string) : String x a +:+ b = String x (a +:+ b).
Proof. reflexivity. Qed.

Lemma append_nil (b : string) : "" +:+ b = b.
Proof. reflexivity. Qed.

Lemma append_assoc (a b c : string) : (a +:+ b) +:+ c = a +:+ (b +:+ c).
Proof.
  induction a as [|x a IH]; [reflexivity|].
  rewrite !append_cons. now f_equal.
Qed.

Lemma append_empty_r (a : string) : a +:+ "" = a.
Proof.
  induction a as [|x a IH]; [reflexivity|].
  rewrite append_cons. now f_equal.
Qed.

Lemma splitLF_cons (s : string) : exists p ps, splitLF s = p :: ps.
Proof.
  induction s as [|c s (p & ps & E)]; simpl; [now eauto|].
  destruct (Ascii.eqb c LF); [now eauto|]. rewrite E. now eauto.
Qed.

Lemma splitLF_noLF a : noLF a = true -> splitLF a = [a].
Proof.
  induction a as [|c a IH]; simpl; [reflexivity|].
  intros H. apply andb_true_iff in H as [Hc Ha].
  apply negb_true_iff in Hc. rewrite Hc, (IH Ha). reflexivity.
Qed.

Lemma splitLF_app a b :
  noLF a = true -> splitLF (a +:+ String LF b) = a :: splitLF b.
Proof.
  induction a as [|c a IH]; [reflexivity|].
  rewrite append_cons. simpl.
  intros H. apply andb_true_iff in H as [Hc Ha].
  apply negb_true_iff in Hc. rewrite Hc, (IH Ha). reflexivity.
Qed.

Lemma stripCR_append l : stripCR (l +:+ String CR "") = l.
Proof.
  induction l as [|c l IH]; [reflexivity|].
  change (String c l +:+ String CR "") with (String c (l +:+ String CR "")).
  destruct l as [|c' l]; [reflexivity|].
  change (stripCR (String c (String c' l +:+ String CR "")))
    with (String c (stripCR (String c' l +:+ String CR ""))).
  now rewrite IH.
Qed.

Lemma noLF_append a b : noLF (a +:+ b) = noLF a && noLF b.
Proof.
  induction a as [|c a IH]; [reflexivity|].
  rewrite append_cons. simpl. now rewrite IH, andb_assoc.
Qed.

Lemma splitLF_concat l ls :
  noLF l = true -> Forall (fun x => noLF x = true) ls ->
  splitLF (String.concat CRLF (l :: ls)) = pieces l ls.
Proof.
  revert l. induction ls as [|l' ls IH]; intros l Hl Hls.
  - simpl. now apply splitLF_noLF.
  - inversion Hls as [|? ? Hl' Hls']; subst.
    change (String.concat CRLF (l :: l' :: ls))
      with (l +:+ CRLF +:+ String.concat CRLF (l' :: ls)).
    change (l +:+ CRLF +:+ String.concat CRLF (l' :: ls))
      with (l +:+ (String CR "" +:+ String LF (String.concat CRLF (l' :: ls)))).
    rewrite <- append_assoc, splitLF_app.
    + simpl. f_equal. now apply IH.
    + rewrite noLF_append, Hl. reflexivity.
Qed.

Lemma emit_nonempty l : l <> EmptyString -> emit l = [l].
Proof. now destruct l. Qed.

Lemma pieces_cons l ls : exists p ps, pieces l ls = p :: ps.
Proof. destruct ls; simpl; eauto. Qed.

Lemma startsBlank_append l s :
  l <> EmptyString -> startsBlank (l +:+ s) = startsBlank l.
Proof. now destruct l. Qed.

Lemma last_cons_default (ls : list string) (x d : string) :
  List.last (x :: ls) d = List.last ls x.
Proof.
  revert x d. induction ls as [|y ls IH]; intros x d; [reflexivity|].
  change (List.last (x :: y :: ls) d) with (List.last (y :: ls) d).
  now rewrite !IH.
Qed.

Lemma last_In_cons (ls : list string) (x : string) :
  In (List.last ls x) (x :: ls).
Proof.
  revert x. induction ls as [|y ls IH]; intros x; [now left|].
  right. rewrite last_cons_default. apply IH.
Qed.

Lemma unfoldLines_pieces cur l ls :
  Forall goodLine (l :: ls) ->
  unfoldLines cur (pieces l ls)
  = emit cur ++ removelast (l :: ls) ++ emit (trim (List.last ls l)).
Proof.
  revert cur l. induction ls as [|l' ls IH]; intros cur l Hg.
  - inversion Hg as [|? ? (Hn & Hb & Hne) _]; subst.
    destruct l as [|c l]; [contradiction|].
    cbn [pieces unfoldLines removelast List.last app]. rewrite Hb.
    reflexivity.
  - inversion Hg as [|? ? (Hn & Hb & Hne) Hg']; subst.
    change (pieces l (l' :: ls)) with ((l +:+ String CR "") :: pieces l' ls).
    destruct (pieces_cons l' ls) as (p & ps & E).
    assert (U : unfoldLines cur ((l +:+ String CR "") :: pieces l' ls)
                = emit cur ++ unfoldLines l (pieces l' ls)).
    { rewrite E. cbn [unfoldLines].
      rewrite startsBlank_append by exact Hne. rewrite Hb.
      now rewrite stripCR_append. }
    rewrite U, IH by exact Hg'. rewrite (emit_nonempty l) by exact Hne.
    now rewrite (last_cons_default ls l' l).
Qed.

Lemma dropWhile_isBlank_good l s :
  l <> EmptyString -> startsBlank l = false ->
  dropWhile isBlank (l +:+ s) = l +:+ s.
Proof. destruct l as [|c l]; [contradiction|]. simpl. now intros _ ->. Qed.

Lemma concat_cons_append l ls :
  exists s, String.concat CRLF (l :: ls) = l +:+ s.
Proof.
  destruct ls as [|l' ls].
  - exists "". simpl. now rewrite append_empty_r.
  - now exists (CRLF +:+ String.concat CRLF (l' :: ls)).
Qed.

(** [_eachLine] gives back the lines that were joined. *)
Lemma eachLine_concat l ls :
  Forall goodLine (l :: ls) -> trim (List.last ls l) = List.last ls l ->
  eachLine (String.concat CRLF (l :: ls)) = l :: ls.
Proof.
  intros Hg Ht. unfold eachLine.
  inversion Hg as [|? ? (Hn & Hb & Hne) Hg']; subst.
  destruct (concat_cons_append l ls) as (s & Es).
  rewrite Es, dropWhile_isBlank_good, <- Es by assumption.
  rewrite splitLF_concat.
  - rewrite unfoldLines_pieces by exact Hg. rewrite Ht.
    rewrite (emit_nonempty (List.last ls l)).
    + change (emit "") with (@nil string).
      change ([] ++ removelast (l :: ls) ++ [List.last ls l])
        with (removelast (l :: ls) ++ [List.last ls l]).
      rewrite <- (last_cons_default ls l l).
      symmetry. apply app_removelast_last. discriminate.
    + pose proof (last_In_cons ls l) as Hl.
      rewrite List.Forall_forall in Hg. now destruct (Hg _ Hl) as (_ & _ & ?).
  - exact Hn.
  - apply List.Forall_forall. intros x Hx. rewrite List.Forall_forall in Hg'.
    now destruct (Hg' x Hx).
Qed.

End Lines.

(** ** The serializer read back by the parser: components *)

Section Components.
Import ICAL.

Lemma eventLines_propertyLines now event :
  eventLines now event
  = "BEGIN:VEVENT" :: propertyLines now event ++ [ "END:VEVENT" ].
Proof.
  unfold eventLines, propertyLines. rewrite <- !app_assoc. reflexivity.
Qed.

Lemma propertyLines_read now event :
  Forall2 readsAs (propertyLines now event) (eventProps now event).
Proof.
  unfold propertyLines, eventProps.
  repeat apply Forall2_app.
  - repeat constructor.
  - destruct (JS.truthyString (endDate event)); [|constructor].
    destruct (endDate event); repeat constructor.
  - repeat constructor.
  - destruct (JS.truthyString (description event)); [|constructor].
    destruct (description event); repeat constructor.
  - repeat constructor.
  - destruct (JS.truthyBool (isHoliday event)); [repeat constructor|].
    destruct (JS.truthyBool (isWorkday event)); repeat constructor.
Qed.

Lemma handleLines_app st ls ls' :
  handleLines st (ls ++ ls')
  = match handleLines st ls with
    | Some st' => handleLines st' ls'
    | None => None
    end.
Proof.
  revert st. induction ls as [|l ls IH]; intros st; [reflexivity|].
  cbn [handleLines app]. destruct (handleLine st l); [apply IH | reflexivity].
Qed.

Lemma handleLines_props ls ps : Forall2 readsAs ls ps ->
  forall r f fs,
    handleLines {| roots := r; stack := f :: fs |} ls
    = Some {| roots := r; stack := addProps f ps :: fs |}.
Proof.
  induction 1 as [|l p ls ps Hr _ IH]; intros r f fs.
  - unfold addProps. rewrite app_nil_r. now destruct f.
  - cbn [handleLines]. unfold handleLine. rewrite Hr. cbn [stack roots].
    rewrite IH. unfold addProps. cbn [frName frProps frSubs].
    now rewrite <- app_assoc.
Qed.

Lemma handleLines_event now event r f fs :
  handleLines {| roots := r; stack := f :: fs |} (eventLines now event)
  = Some {| roots := r; stack := addSub f (veventOf now event) :: fs |}.
Proof.
  rewrite eventLines_propertyLines.
  change ("BEGIN:VEVENT" :: propertyLines now event ++ ["END:VEVENT"])
    with (["BEGIN:VEVENT"] ++ propertyLines now event ++ ["END:VEVENT"]).
  rewrite handleLines_app.
  change (handleLines {| roots := r; stack := f :: fs |} ["BEGIN:VEVENT"])
    with (Some {| roots := r;
                  stack := {| frName := "vevent"; frProps := [];
                              frSubs := [] |} :: f :: fs |}).
  cbv beta iota. rewrite handleLines_app.
  rewrite (handleLines_props _ _ (propertyLines_read now event)).
  reflexivity.
Qed.

Lemma handleLines_events clock events : forall i r f fs,
  handleLines {| roots := r; stack := f :: fs |} (eventsLines clock i events)
  = Some {| roots := r;
            stack := {| frName := frName f; frProps := frProps f;
                        frSubs := frSubs f ++ veventsOf clock i events |}
                     :: fs |}.
Proof.
  induction events as [|event events IH]; intros i r f fs.
  - cbn [eventsLines veventsOf handleLines]. rewrite app_nil_r. now destruct f.
  - cbn [eventsLines veventsOf]. rewrite handleLines_app, handleLines_event.
    cbv beta iota. rewrite IH. unfold addSub. cbn [frName frProps frSubs].
    now rewrite <- app_assoc.
Qed.

Lemma generateICS_lines clock events calendarName :
  generateICS clock events calendarName
  = String.concat CRLF (calendarLines clock events calendarName).
Proof. reflexivity. Qed.

Lemma handleLines_calendar clock events calendarName :
  handleLines {| roots := []; stack := [] |}
    (calendarLines clock events calendarName)
  = Some {| roots := [ Comp "vcalendar" (calendarProps calendarName)
                         (veventsOf clock 0 events) ];
            stack := [] |}.
Proof.
  unfold calendarLines. rewrite handleLines_app.
  change (handleLines {| roots := []; stack := [] |} _)
    with (Some {| roots := [];
                  stack := [ {| frName := "vcalendar";
                                frProps := calendarProps calendarName;
                                frSubs := [] |} ] |}) at 1.
  cbv beta iota. rewrite handleLines_app, handleLines_events. reflexivity.
Qed.

End Components.

(** ** The serializer read back by the parser: the whole calendar *)

Section RoundTrip.
Import ICAL.

Lemma noLF_uint d : noLF (NilEmpty.string_of_uint d) = true.
Proof. induction d; simpl; auto. Qed.

Lemma noLF_numberToString z : noLF (JS.numberToString z) = true.
Proof.
  unfold JS.numberToString, NilZero.string_of_int, NilZero.string_of_uint.
  destruct (Z.to_int z) as [d|d]; destruct d; simpl; auto using noLF_uint.
Qed.

Lemma noLF_showNumber n : noLF (JSDate.showNumber n) = true.
Proof. destruct n; [apply noLF_numberToString | reflexivity]. Qed.

Lemma noLF_padStart2 s : noLF s = true -> noLF (JS.padStart2 s) = true.
Proof.
  intros H. unfold JS.padStart2.
  destruct s as [|a [|b s]]; [reflexivity | | exact H].
  cbn [String.length]. rewrite append_cons, append_nil. exact H.
Qed.

Lemma noLF_formatDateToICS d : noLF (formatDateToICS d) = true.
Proof.
  unfold formatDateToICS. rewrite !noLF_append.
  rewrite !noLF_padStart2 by apply noLF_showNumber.
  now rewrite noLF_showNumber.
Qed.

Lemma noLF_removeHyphens s : noLF s = true -> noLF (JS.removeHyphens s) = true.
Proof.
  induction s as [|c s IH]; [reflexivity|]. simpl.
  intros H. apply andb_true_iff in H as [Hc Hs].
  destruct (Ascii.eqb c "-"); [now apply IH|].
  simpl. now rewrite Hc, IH.
Qed.

Lemma goodLine_prefixed c p s :
  noLF (String c p) = true -> isBlank c = false -> noLF s = true ->
  goodLine (String c p +:+ s).
Proof.
  intros Hp Hb Hs. repeat split.
  - now rewrite noLF_append, Hp, Hs.
  - exact Hb.
  - rewrite append_cons. discriminate.
Qed.

Lemma goodLine_literal c p :
  noLF (String c p) = true -> isBlank c = false -> goodLine (String c p).
Proof. intros Hp Hb. repeat split; [exact Hp | exact Hb | discriminate]. Qed.

Lemma digit_differs c x :
  JS.isDigit c = true -> (nat_of_ascii x < 48)%nat -> Ascii.eqb c x = false.
Proof.
  intros Hd Hx. apply Ascii.eqb_neq. intros ->.
  unfold JS.isDigit in Hd. apply andb_true_iff in Hd as [Hd _].
  apply Nat.leb_le in Hd. lia.
Qed.

Lemma noLF_dateChars a b c e m1 m2 d1 d2 :
  JS.isDigit a = true -> JS.isDigit b = true -> JS.isDigit c = true ->
  JS.isDigit e = true -> JS.isDigit m1 = true -> JS.isDigit m2 = true ->
  JS.isDigit d1 = true -> JS.isDigit d2 = true ->
  noLF (dateChars a b c e m1 m2 d1 d2) = true.
Proof.
  intros. unfold dateChars. cbn [noLF].
  rewrite (digit_differs a LF), (digit_differs b LF), (digit_differs c LF),
    (digit_differs e LF), (digit_differs m1 LF), (digit_differs m2 LF),
    (digit_differs d1 LF), (digit_differs d2 LF)
    by (assumption || (vm_compute; lia)).
  reflexivity.
Qed.

Lemma noLF_showYmd ymd : validDate ymd -> noLF (showYmd ymd) = true.
Proof.
  destruct ymd as [[y m] d]. intros [Hy [Hm Hd]].
  pose proof (daysInMonth_range y m) as R.
  destruct (showYmd_chars y m d) as
    (a & b & c & e & m1 & m2 & d1 & d2 & -> & _ & _ & _ & Hs);
    [lia | lia | lia |].
  now apply noLF_dateChars.
Qed.

Ltac good_lines :=
  repeat first [apply List.Forall_cons | apply List.Forall_nil];
  try (apply goodLine_literal; reflexivity);
  try (apply goodLine_prefixed; [reflexivity | reflexivity | ]).

Lemma goodLine_eventLines now e :
  wellDated e -> plainEvent e -> Forall goodLine (eventLines now e).
Proof.
  intros (a & Ha & Hdate & Hend) ((Hu & _) & (Hs & _) & Hdesc).
  unfold eventLines. repeat apply Forall_app_2.
  - good_lines.
    + exact Hu.
    + apply noLF_formatDateToICS.
    + rewrite Hdate. now apply noLF_removeHyphens, noLF_showYmd.
  - destruct (JS.truthyString (endDate e)); [|constructor].
    destruct Hend as [->|(b & Hb & -> & _)]; good_lines.
    now apply noLF_removeHyphens, noLF_showYmd.
  - good_lines. exact Hs.
  - destruct (JS.truthyString (description e)); [|constructor].
    destruct (description e) as [d|] eqn:E; good_lines.
    now destruct (Hdesc d).
  - good_lines.
  - destruct (JS.truthyBool (isHoliday e)); [good_lines|].
    destruct (JS.truthyBool (isWorkday e)); good_lines.
  - good_lines.
Qed.

Lemma goodLine_eventsLines clock events : forall i,
  Forall wellDated events -> Forall plainEvent events ->
  Forall goodLine (eventsLines clock i events).
Proof.
  induction events as [|e events IH]; intros i Hw Hp; [constructor|].
  inversion Hw; inversion Hp; subst. cbn [eventsLines].
  apply Forall_app_2; [now apply goodLine_eventLines | now apply IH].
Qed.

Lemma goodLine_calendarLines clock events calendarName :
  Forall wellDated events -> Forall plainEvent events ->
  plainText calendarName ->
  Forall goodLine (calendarLines clock events calendarName).
Proof.
  intros Hw Hp [Hn _]. unfold calendarLines. repeat apply Forall_app_2.
  - good_lines. exact Hn.
  - now apply goodLine_eventsLines.
  - good_lines.
Qed.

(** [ICAL.parse] reads the calendar [generateICS] wrote. *)
Lemma parse_generateICS clock events calendarName :
  Forall wellDated events -> Forall plainEvent events ->
  plainText calendarName ->
  parse (generateICS clock events calendarName)
  = Some (Comp "vcalendar" (calendarProps calendarName)
            (veventsOf clock 0 events)).
Proof.
  intros Hw Hp Hn. unfold parse. rewrite generateICS_lines.
  pose proof (goodLine_calendarLines clock events calendarName Hw Hp Hn) as Hg.
  pose proof (handleLines_calendar clock events calendarName) as Hh.
  set (tl := [ "VERSION:2.0"; "PRODID:-//Holiday Calendar//CN";
               "CALSCALE:GREGORIAN"; "X-WR-CALNAME:" +:+ calendarName;
               "X-APPLE-LANGUAGE:zh"; "X-APPLE-REGION:CN" ]
             ++ eventsLines clock 0 events ++ [ "END:VCALENDAR" ]).
  change (calendarLines clock events calendarName)
    with ("BEGIN:VCALENDAR" :: tl) in *.
  assert (El : List.last tl "BEGIN:VCALENDAR" = "END:VCALENDAR").
  { unfold tl. rewrite !app_assoc. apply last_last. }
  rewrite eachLine_concat; [now rewrite Hh | exact Hg |].
  rewrite El. vm_compute. reflexivity.
Qed.

End RoundTrip.

(** ** The serializer read back by the parser: the events *)

Section ReadEvents.
Import ICAL.

Lemma unescapeText_plain s : noBackslash s = true -> unescapeText s = s.
Proof.
  induction s as [|c s IH]; [reflexivity|]. cbn [noBackslash unescapeText].
  intros H. apply andb_true_iff in H as [Hc Hs].
  apply negb_true_iff in Hc. rewrite Hc. now rewrite IH.
Qed.

Lemma removeHyphens_dateChars a b c e m1 m2 d1 d2 :
  JS.isDigit a = true -> JS.isDigit b = true -> JS.isDigit c = true ->
  JS.isDigit e = true -> JS.isDigit m1 = true -> JS.isDigit m2 = true ->
  JS.isDigit d1 = true -> JS.isDigit d2 = true ->
  JS.removeHyphens (dateChars a b c e m1 m2 d1 d2)
  = dateDigits a b c e m1 m2 d1 d2.
Proof.
  intros. unfold dateChars, dateDigits. cbn [JS.removeHyphens].
  rewrite (digit_differs a "-"), (digit_differs b "-"), (digit_differs c "-"),
    (digit_differs e "-"), (digit_differs m1 "-"), (digit_differs m2 "-"),
    (digit_differs d1 "-"), (digit_differs d2 "-")
    by (assumption || (vm_compute; lia)).
  reflexivity.
Qed.

Lemma decodeValue_dateDigits a b c e m1 m2 d1 d2 :
  decodeValue "date" (dateDigits a b c e m1 m2 d1 d2)
  = match JS.parseDigits (String a (String b (String c (String e "")))),
          JS.parseDigits (String m1 (String m2 "")),
          JS.parseDigits (String d1 (String d2 "")) with
    | Some y, Some m, Some d =>
        if JSDate.validYmd y m d then Some (VTime y m d) else None
    | _, _, _ => None
    end.
Proof. reflexivity. Qed.

(** A date written by [generateICS] is read as the [ICAL.Time] of that
    day. *)
Lemma decodeValue_date y m d :
  validDate (y, m, d) ->
  decodeValue "date" (JS.removeHyphens (showYmd (y, m, d)))
  = Some (VTime y m d).
Proof.
  intros Hv. pose proof Hv as [Hy [Hm Hd]].
  pose proof (daysInMonth_range y m) as R.
  destruct (showYmd_chars y m d) as
    (a & b & c & e & m1 & m2 & d1 & d2 & -> & Py & Pm & Pd
     & ? & ? & ? & ? & ? & ? & ? & ?); [lia | lia | lia |].
  rewrite removeHyphens_dateChars by assumption.
  rewrite decodeValue_dateDigits, Py, Pm, Pd.
  now rewrite (validDate_validYmd _ _ _ Hv).
Qed.

Lemma formatICALDate_VTime y m d :
  formatICALDate (VTime y m d) = showYmd (y, m, d).
Proof. reflexivity. Qed.

Ltac event_cases event :=
  unfold firstProp, eventProps;
  destruct (JS.truthyString (endDate event));
  destruct (endDate event);
  destruct (JS.truthyString (description event));
  destruct (description event);
  destruct (JS.truthyBool (isHoliday event));
  destruct (JS.truthyBool (isWorkday event));
  reflexivity.

Lemma firstProp_summary now event :
  firstProp "summary" (eventProps now event)
  = Some (prop "summary" [("language", "zh_CN")] (summary event)).
Proof. event_cases event. Qed.

Lemma firstProp_uid now event :
  firstProp "uid" (eventProps now event) = Some (prop "uid" [] (uid event)).
Proof. event_cases event. Qed.

Lemma firstProp_dtstart now event :
  firstProp "dtstart" (eventProps now event)
  = Some (prop "dtstart" [("value", "DATE")] (JS.removeHyphens (date event))).
Proof. event_cases event. Qed.

Lemma firstProp_dtend now event :
  firstProp "dtend" (eventProps now event)
  = if JS.truthyString (endDate event) then
      match endDate event with
      | Some e => Some (prop "dtend" [("value", "DATE")] (JS.removeHyphens e))
      | None => None
      end
    else None.
Proof. event_cases event. Qed.

Lemma firstProp_special now event :
  firstProp "x-apple-special-day" (eventProps now event)
  = if JS.truthyBool (isHoliday event)
    then Some (prop "x-apple-special-day" [] "WORK-HOLIDAY")
    else if JS.truthyBool (isWorkday event)
    then Some (prop "x-apple-special-day" [] "ALTERNATE-WORKDAY")
    else None.
Proof. event_cases event. Qed.

Lemma getFirstPropertyValue_firstProp n c ps subs :
  getFirstPropertyValue (Comp c ps subs) n
  = match firstProp n ps with
    | None => Some None
    | Some p =>
        match decodeValue (valueType p) (propValue p) with
        | Some v => Some (Some v)
        | None => None
        end
    end.
Proof. reflexivity. Qed.

End ReadEvents.

Section ReadBack.
Import ICAL.
Variable h : Host.

Lemma decode_summary s :
  decodeValue (valueType (prop "summary" [("language", "zh_CN")] s))
              (propValue (prop "summary" [("language", "zh_CN")] s))
  = Some (VString (unescapeText s)).
Proof. reflexivity. Qed.

Lemma decode_uid s :
  decodeValue (valueType (prop "uid" [] s)) (propValue (prop "uid" [] s))
  = Some (VString (unescapeText s)).
Proof. reflexivity. Qed.

Lemma decode_dates n v :
  decodeValue (valueType (prop n [("value", "DATE")] v))
              (propValue (prop n [("value", "DATE")] v))
  = decodeValue "date" v.
Proof. reflexivity. Qed.

Lemma decode_special v :
  decodeValue (valueType (prop "x-apple-special-day" [] v))
              (propValue (prop "x-apple-special-day" [] v))
  = Some (VString v).
Proof. reflexivity. Qed.

(** What [parseICS] makes of the component of one event. *)
Lemma parseVevents_cons n now e rest :
  wellDated e -> noBackslash (summary e) = true -> flagsAgree e ->
  exists p n',
    parseVevents h n (veventOf now e :: rest)
    = match parseVevents h n' rest with
      | Some events => Some (p :: events)
      | None => None
      end
    /\ date p = date e /\ endDate p = endDate e /\ summary p = summary e
    /\ JS.truthyBool (isHoliday p) = JS.truthyBool (isHoliday e)
    /\ JS.truthyBool (isWorkday p) = JS.truthyBool (isWorkday e).
Proof.
  intros ([[y m] d] & Ha & Hdate & Hend) Hs (F1 & F2 & F3).
  cbn [parseVevents]. unfold veventOf.
  rewrite !getFirstPropertyValue_firstProp, firstProp_summary, firstProp_uid,
    firstProp_dtstart, firstProp_dtend, firstProp_special.
  rewrite decode_summary, decode_uid, decode_dates.
  rewrite (unescapeText_plain _ Hs), Hdate, (decodeValue_date _ _ _ Ha).
  set (sd := if JS.truthyBool (isHoliday e)
             then Some (prop "x-apple-special-day" [] "WORK-HOLIDAY")
             else if JS.truthyBool (isWorkday e)
             then Some (prop "x-apple-special-day" [] "ALTERNATE-WORKDAY")
             else None).
  assert (Hsd : exists v,
    match sd with
    | None => Some None
    | Some p => match decodeValue (valueType p) (propValue p) with
                | Some v => Some (Some v)
                | None => None
                end
    end = Some v
    /\ (isString v "WORK-HOLIDAY" || JS.includes "（休）" (summary e)
        = JS.truthyBool (isHoliday e))
    /\ (isString v "ALTERNATE-WORKDAY" || JS.includes "（班）" (summary e)
        = JS.truthyBool (isWorkday e))).
  { unfold sd.
    destruct (JS.truthyBool (isHoliday e)) eqn:EH;
      destruct (JS.truthyBool (isWorkday e)) eqn:EW;
      destruct (JS.includes "（休）" (summary e)) eqn:I1;
      destruct (JS.includes "（班）" (summary e)) eqn:I2;
      try (specialize (F1 eq_refl); discriminate F1);
      try (specialize (F2 eq_refl); discriminate F2);
      try (specialize (F3 eq_refl eq_refl); discriminate F3);
      eexists; (split; [reflexivity|]); split; reflexivity. }
  destruct Hsd as (v & -> & Hh & Hw).
  assert (He : exists w,
    match (if JS.truthyString (endDate e) then
             match endDate e with
             | Some x => Some (prop "dtend" [("value", "DATE")]
                                 (JS.removeHyphens x))
             | None => None
             end
           else None) with
    | None => Some None
    | Some p => match decodeValue (valueType p) (propValue p) with
                | Some v => Some (Some v)
                | None => None
                end
    end = Some w
    /\ match w with
       | Some x => if truthyValue w then Some (formatICALDate x) else None
       | None => None
       end = endDate e).
  { destruct Hend as [->|([[y' m'] d'] & Hb & -> & _)].
    - exists None. now split.
    - exists (Some (VTime y' m' d')). cbn [JS.truthyString].
      rewrite (showYmd_nonempty _ Hb). cbn [negb].
      rewrite decode_dates, (decodeValue_date _ _ _ Hb). now split. }
  destruct He as (w & -> & Hw').
  destruct (String.eqb (unescapeText (uid e)) "") eqn:Eu;
    eexists _, _; (split; [reflexivity|]);
    cbn [date endDate summary isHoliday isWorkday JS.truthyBool];
    rewrite Hw', Hh, Hw; repeat split; assumption || reflexivity.
Qed.

End ReadBack.

(** ** The round trip of the serializer, the parser and the split *)

Section RoundTripTheorem.
Variable h : Host.

Lemma parseVevents_events clock events : forall i n,
  Forall roundTrippable events ->
  exists parsed,
    parseVevents h n (veventsOf clock i events) = Some parsed
    /\ Forall2 readBackAs events parsed.
Proof.
  induction events as [|e events IH]; intros i n Hr.
  - exists []. split; [reflexivity | constructor].
  - inversion Hr as [|? ? (Hw & _ & Hs & Hf) Hr']; subst.
    cbn [veventsOf].
    destruct (parseVevents_cons h n (clock i) e (veventsOf clock (S i) events)
                Hw Hs Hf) as (p & n' & -> & Hp).
    destruct (IH (S i) n' Hr') as (parsed & -> & Hall).
    exists (p :: parsed). split; [reflexivity | now constructor].
Qed.

Lemma splitLoop_tuples fuel e p end_ : forall current dayIndex,
  summary p = summary e ->
  JS.truthyBool (isHoliday p) = JS.truthyBool (isHoliday e) ->
  JS.truthyBool (isWorkday p) = JS.truthyBool (isWorkday e) ->
  map tuple (splitLoop h fuel p end_ current dayIndex)
  = map tuple (splitLoop h fuel e end_ current dayIndex).
Proof.
  induction fuel as [|fuel IH]; intros current dayIndex Hs Hh Hw;
    [reflexivity|].
  rewrite !splitLoop_S. destruct (JSDate.lt current end_); [|reflexivity].
  cbn [map]. f_equal; [|now apply IH].
  unfold tuple, dayOf. cbn [date summary isHoliday isWorkday].
  now rewrite Hs, Hh, Hw.
Qed.

Lemma splitMultiDayEvent_tuples e p :
  readBackAs e p ->
  map tuple (splitMultiDayEvent h p) = map tuple (splitMultiDayEvent h e).
Proof.
  intros (Hd & He & Hs & Hh & Hw). unfold splitMultiDayEvent.
  rewrite Hd, He. destruct (_ || _).
  - unfold tuple. cbn [map date summary isHoliday isWorkday].
    now rewrite Hs, Hh, Hw.
  - now apply splitLoop_tuples.
Qed.

Lemma flat_map_tuples events parsed :
  Forall2 readBackAs events parsed ->
  map tuple (flat_map (splitMultiDayEvent h) parsed)
  = map tuple (flat_map (splitMultiDayEvent h) events).
Proof.
  induction 1 as [|e p events parsed Hp _ IH]; [reflexivity|].
  cbn [flat_map]. rewrite !map_app, IH.
  now rewrite (splitMultiDayEvent_tuples e p Hp).
Qed.

(** C3 (amended): for a calendar name without line breaks and events
    whose dates are days of the calendar in the format [YYYY-MM-DD] (with
    an [endDate] not before the [date]), whose identifier, title and
    description have no line breaks, whose title has no backslash, and
    whose flags agree with the markers in the title ([flagsAgree]),
    [parseICS] reads the output of [generateICS], and the split of the
    parsed events has the same [(date, title, isDayOff, isMakeupWorkday)]
    tuples, in the same order, as the split of the events. *)
Theorem generateICS_parseICS_roundtrip (clock : nat -> Z)
    (calendarName : string) (events : list CalendarEvent) :
  plainText calendarName ->
  Forall roundTrippable events ->
  exists parsed,
    parseICS h (generateICS clock events calendarName) = Some parsed
    /\ map tuple (flat_map (splitMultiDayEvent h) parsed)
       = map tuple (flat_map (splitMultiDayEvent h) events)
    /\ (forall t,
          In t (map tuple (flat_map (splitMultiDayEvent h) parsed))
          <-> In t (map tuple (flat_map (splitMultiDayEvent h) events))).
Proof.
  intros Hn Hr.
  assert (Hw : Forall wellDated events).
  { eapply List.Forall_impl; [|exact Hr]. now intros e (? & _). }
  assert (Hp : Forall plainEvent events).
  { eapply List.Forall_impl; [|exact Hr]. now intros e (_ & ? & _). }
  unfold parseICS. rewrite (parse_generateICS clock events calendarName Hw Hp Hn).
  assert (Ev : ICAL.getAllSubcomponents
                 (ICAL.Comp "vcalendar" (calendarProps calendarName)
                    (veventsOf clock 0 events)) "vevent"
               = veventsOf clock 0 events).
  { unfold ICAL.getAllSubcomponents. cbn [ICAL.compSubs].
    generalize 0%nat. clear. induction events as [|e events IH]; intros i;
      [reflexivity|].
    cbn [veventsOf List.filter]. unfold veventOf at 1. cbn [ICAL.compName].
    change (String.eqb "vevent" "vevent") with true. cbv iota.
    now rewrite IH. }
  rewrite Ev.
  destruct (parseVevents_events clock events 0%nat 0%nat Hr)
    as (parsed & -> & Hall).
  exists parsed. split; [reflexivity|].
  rewrite (flat_map_tuples events parsed Hall). split; [reflexivity | tauto].
Qed.

End RoundTripTheorem.

Example roundtrip_bothFlags :
  option_map (map tuple)
    (parseICS sampleHost (generateICS (fun _ => 0) [bothFlags] "X"))
  = Some [ ("2024-10-01", "国庆节（休）", true, false) ].
Proof. vm_compute. reflexivity. Qed.

(** For an event with both flags set only the day-off marker is written,
    and the makeup flag is lost on the way back. *)
Lemma roundtrip_loses_makeup_flag : ~ roundtrip_keeps_tuples.
Proof.
  intros H.
  assert (Hw : Forall wellDated [bothFlags]).
  { constructor; [|constructor]. exists (2024, 10, 1).
    split; [vm_compute; intuition discriminate|].
    split; [vm_compute; reflexivity | now left]. }
  specialize (H sampleHost (fun _ => 0) "X" [bothFlags]
                (NoDup_singleton _) Hw
                [ {| uid := "cn-both"; summary := "国庆节（休）";
                     date := "2024-10-01"; endDate := None;
                     description := None; isHoliday := Some true;
                     isWorkday := Some false; category := None;
                     source := icloud |} ]).
  specialize (H ltac:(vm_compute; reflexivity)
                ("2024-10-01", "国庆节（休）", true, true)).
  destruct H as [_ H]. vm_compute in H.
  destruct H as [E|[]]; [now left | discriminate E].
Qed.

Ltac concrete_flags :=
  repeat split; intros;
  first [ reflexivity
        | match goal with
          | H : _ = true |- _ => vm_compute in H; discriminate H
          end ].

Ltac concrete_plain :=
  split; [split; reflexivity|];
  split; [split; reflexivity|];
  intros ? E;
  first [ discriminate E | injection E as <-; split; reflexivity ].

Lemma midAutumn_roundTrippable : roundTrippable midAutumn.
Proof.
  split; [|split; [|split]].
  - exists (2024, 9, 15). split; [vm_compute; intuition discriminate|].
    split; [vm_compute; reflexivity|]. right. exists (2024, 9, 18).
    split; [vm_compute; intuition discriminate|].
    split; [vm_compute; reflexivity|]. right. vm_compute. tauto.
  - concrete_plain.
  - reflexivity.
  - concrete_flags.
Qed.

Lemma makeupSunday_roundTrippable : roundTrippable makeupSunday.
Proof.
  split; [|split; [|split]].
  - exists (2024, 9, 29). split; [vm_compute; intuition discriminate|].
    split; [vm_compute; reflexivity | now left].
  - concrete_plain.
  - reflexivity.
  - concrete_flags.
Qed.

Lemma generateICS_parseICS_roundtrip_witness :
  exists parsed,
    parseICS sampleHost
      (generateICS (fun _ => 1727740800000) [midAutumn; makeupSunday]
         defaultCalendarName) = Some parsed
    /\ map tuple (flat_map (splitMultiDayEvent sampleHost) parsed)
       = map tuple (flat_map (splitMultiDayEvent sampleHost)
                      [midAutumn; makeupSunday])
    /\ (forall t,
          In t (map tuple (flat_map (splitMultiDayEvent sampleHost) parsed))
          <-> In t (map tuple (flat_map (splitMultiDayEvent sampleHost)
                                 [midAutumn; makeupSunday]))).
Proof.
  apply (generateICS_parseICS_roundtrip sampleHost).
  - split; reflexivity.
  - apply List.Forall_cons; [exact midAutumn_roundTrippable|].
    apply List.Forall_cons; [exact makeupSunday_roundTrippable|].
    apply List.Forall_nil.
Defined.

(** The tuples the round trip of these two events ends in. *)
Example roundtrip_tuples :
  option_map (fun parsed => map tuple (flat_map (splitMultiDayEvent sampleHost) parsed))
    (parseICS sampleHost
       (generateICS (fun _ => 1727740800000) [midAutumn; makeupSunday]
          defaultCalendarName))
  = Some [ ("2024-09-15", "中秋节（休）", true, false);
           ("2024-09-16", "中秋节（休）", true, false);
           ("2024-09-17", "中秋节（休）", true, false);
           ("2024-09-29", "国庆节（班）", false, true) ].
Proof. vm_compute. reflexivity. Qed.

(** ** Keys and pairs *)

Lemma append_same_length (a b x y : string) :
  String.length a = String.length b -> a +:+ x = b +:+ y -> a = b /\ x = y.
Proof.
  revert b. induction a as [|c a IH]; intros [|c' b] Hl E;
    try discriminate Hl.
  - now split.
  - rewrite !append_cons in E. injection E as -> E.
    injection Hl as Hl. destruct (IH b Hl E) as [-> ->]. now split.
Qed.

(** X4: for dates of the same length, as dates in the format [YYYY-MM-DD]
    are, two events have the same key exactly when they have the same date
    and the same title. *)
Lemma eventKey_pair (a b : CalendarEvent) :
  String.length (date a) = String.length (date b) ->
  (eventKey a = eventKey b <-> date a = date b /\ summary a = summary b).
Proof.
  intros Hl. unfold eventKey. split.
  - intros E. apply append_same_length in E as [Hd E]; [|exact Hl].
    split; [exact Hd|]. now injection E.
  - now intros [-> ->].
Qed.

Lemma eventKey_pair_witness :
  eventKey upstreamValentine = eventKey (holidayToEvent valentineHoliday)
  <-> date upstreamValentine = date (holidayToEvent valentineHoliday)
      /\ summary upstreamValentine = summary (holidayToEvent valentineHoliday).
Proof.
  apply (eventKey_pair upstreamValentine (holidayToEvent valentineHoliday)).
  reflexivity.
Defined.

(** ** The filter by years *)

Lemma parseInt_year y m d :
  validDate (y, m, d) -> JS.parseInt (JS.slice 0 4 (showYmd (y, m, d))) = Some y.
Proof.
  intros [Hy [Hm Hd]]. pose proof (daysInMonth_range y m) as R.
  destruct (showYmd_chars y m d) as
    (a & b & c & e & m1 & m2 & d1 & d2 & -> & Py & _ & _
     & Ha & Hb & Hc & He & _); [lia | lia | lia |].
  unfold dateChars.
  change (JS.slice 0 4 _) with (String a (String b (String c (String e "")))).
  unfold JS.parseInt.
  assert (Hw : JS.isWhiteSpace a = false).
  { unfold JS.isDigit in Ha. unfold JS.isWhiteSpace.
    apply andb_true_iff in Ha as [Ha _]. apply Nat.leb_le in Ha.
    apply orb_false_iff. split.
    - apply andb_false_iff. right. apply Nat.leb_gt. lia.
    - apply Nat.eqb_neq. lia. }
  cbn [JS.skipWhiteSpace]. rewrite Hw.
  rewrite (digit_differs a "-"), (digit_differs a "+")
    by (assumption || (vm_compute; lia)).
  cbn [JS.leadingDigits]. rewrite Ha, Hb, Hc, He.
  unfold JS.parseDigits in Py. rewrite !digitsValue_step in Py by assumption.
  cbn [JS.digitsValue] in Py. injection Py as <-. reflexivity.
Qed.

(** X5: [filterEventsByYears] keeps an event dated on a day of the calendar
    exactly when the year of the day is one of the years. *)
Lemma filterEventsByYears_keeps (events : list CalendarEvent) (years : list Z)
    (e : CalendarEvent) (y m d : Z) :
  validDate (y, m, d) -> date e = showYmd (y, m, d) ->
  (In e (filterEventsByYears events years) <-> In e events /\ In y years).
Proof.
  intros Hv Hdate. unfold filterEventsByYears.
  rewrite filter_In, Hdate, (parseInt_year _ _ _ Hv). cbn [Set_has].
  rewrite existsb_exists. split; intros [Hin Hy]; (split; [exact Hin|]).
  - destruct Hy as (y' & Hy' & E). apply Z.eqb_eq in E. now subst.
  - exists y. split; [exact Hy | apply Z.eqb_refl].
Qed.

Lemma filterEventsByYears_keeps_witness :
  In nationalDay (filterEventsByYears [newYearsDay; nationalDay] [2024])
  <-> In nationalDay [newYearsDay; nationalDay] /\ In 2024 [2024].
Proof.
  apply (filterEventsByYears_keeps _ _ nationalDay 2024 10 1).
  - vm_compute. intuition discriminate.
  - vm_compute. reflexivity.
Defined.

(** The worked case of the specification: of three events of 2023, 2024 and
    2025 the filter for 2024 keeps the one of 2024. *)
Example filterEventsByYears_2024 :
  map date
    (filterEventsByYears
       [ dayOf nationalDay 0 "2023-10-01"; dayOf nationalDay 0 "2024-10-01";
         dayOf nationalDay 0 "2025-10-01" ] [2024])
  = [ "2024-10-01" ].
Proof. vm_compute. reflexivity. Qed.

(** ** More on the feed cache *)

Section CacheLaws.
Context {T : Type}.
Implicit Types (store : gmap string (Cache.CacheItem T)) (key : string).

Lemma cache_get_value t key store :
  fst (Cache.get t key store)
  = match store !! key with
    | Some item => if t >? Cache.expiresAt item then None
                   else Some (Cache.data item)
    | None => None
    end.
Proof.
  unfold Cache.get. destruct (store !! key) as [item|]; [|reflexivity].
  now destruct (t >? Cache.expiresAt item).
Qed.

Lemma cache_cleanup_lookup now store key item :
  Cache.cleanup now store !! key = Some item
  <-> store !! key = Some item /\ now <= Cache.expiresAt item.
Proof.
  unfold Cache.cleanup. rewrite map_lookup_filter_Some. cbn [snd].
  destruct (Z.gtb_spec now (Cache.expiresAt item)); cbn [negb];
    intuition (discriminate || lia).
Qed.

(** X6: [cleanup] is not seen by the readers of the cache: at the time
    of the cleanup and at any later time, [get] returns for every key what
    it would have returned without the cleanup. *)
Theorem cache_cleanup_unobservable (now t : Z) key store :
  now <= t ->
  fst (Cache.get t key (Cache.cleanup now store)) = fst (Cache.get t key store).
Proof.
  intros Hle. rewrite !cache_get_value.
  destruct (Cache.cleanup now store !! key) as [item|] eqn:E.
  - apply cache_cleanup_lookup in E as [-> _]. reflexivity.
  - destruct (store !! key) as [item|] eqn:E'; [|reflexivity].
    destruct (Z.gtb_spec t (Cache.expiresAt item)) as [_|Hfresh]; [reflexivity|].
    assert (Hin : Cache.cleanup now store !! key = Some item)
      by (apply cache_cleanup_lookup; split; [exact E' | lia]).
    congruence.
Qed.

(** X7: the eviction of an expired entry by [get] is not seen by later
    reads: with a clock that does not go back, a [get] after another [get]
    returns what it would have returned without the first one. *)
Theorem cache_get_eviction_unobservable (t t' : Z) key key' store :
  t <= t' ->
  fst (Cache.get t' key' (snd (Cache.get t key store)))
  = fst (Cache.get t' key' store).
Proof.
  intros Hle. unfold Cache.get at 2.
  destruct (store !! key) as [item|] eqn:E; [|reflexivity].
  destruct (Z.gtb_spec t (Cache.expiresAt item)) as [Hexp|_]; [|reflexivity].
  cbn [snd]. rewrite !cache_get_value.
  destruct (decide (key = key')) as [<-|Hne].
  - rewrite lookup_delete_eq, E.
    destruct (Z.gtb_spec t' (Cache.expiresAt item)); [reflexivity | lia].
  - now rewrite lookup_delete_ne.
Qed.

(** X8: the keys of the cache are independent: [set] and [delete] on a
    key leave what [get] returns for every other key as it was; after
    [delete] on a key, and after [clear], [get] finds nothing under it. *)
Theorem cache_keys_independent (now ttl t : Z) key key' (v : T) store :
  key <> key' ->
  fst (Cache.get t key' (Cache.set now key v ttl store))
  = fst (Cache.get t key' store)
  /\ fst (Cache.get t key' (Cache.delete key store))
     = fst (Cache.get t key' store)
  /\ fst (Cache.get t key (Cache.delete key store)) = None
  /\ fst (Cache.get t key (Cache.clear store)) = None.
Proof.
  intros Hne. rewrite !cache_get_value. unfold Cache.set, Cache.delete, Cache.clear.
  rewrite lookup_insert_ne, lookup_delete_ne, lookup_delete_eq, lookup_empty
    by exact Hne.
  repeat split; reflexivity.
Qed.

End CacheLaws.

Lemma cache_cleanup_unobservable_witness :
  fst (Cache.get 50 "ics:u" (Cache.cleanup 20 (cacheStore warmWorld)))
  = fst (Cache.get 50 "ics:u" (cacheStore warmWorld)).
Proof. apply (cache_cleanup_unobservable 20 50). lia. Defined.

Lemma cache_get_eviction_unobservable_witness :
  fst (Cache.get 300 "ics:u" (snd (Cache.get 200 "ics:u" (cacheStore warmWorld))))
  = fst (Cache.get 300 "ics:u" (cacheStore warmWorld)).
Proof. apply (cache_get_eviction_unobservable 200 300). lia. Defined.

Lemma cache_keys_independent_witness :
  fst (Cache.get 50 "ics:u" (Cache.set 0 "ics:v" "x" 10 (cacheStore warmWorld)))
  = fst (Cache.get 50 "ics:u" (cacheStore warmWorld))
  /\ fst (Cache.get 50 "ics:u" (Cache.delete "ics:v" (cacheStore warmWorld)))
     = fst (Cache.get 50 "ics:u" (cacheStore warmWorld))
  /\ fst (Cache.get 50 "ics:v" (Cache.delete "ics:v" (cacheStore warmWorld))) = None
  /\ fst (Cache.get 50 "ics:v" (Cache.clear (cacheStore warmWorld))) = None.
Proof. apply (cache_keys_independent 0 10 50 "ics:v" "ics:u" "x"). discriminate. Defined.

(** ** More on the fetcher *)

Lemma fetchICSFromURL_on_miss net nowGet nowSet url ttl w :
  JS.truthyString (fst (Cache.get nowGet ("ics:" +:+ url) (cacheStore w))) = false ->
  fetchICSFromURL net nowGet nowSet url ttl w
  = let store1 := snd (Cache.get nowGet ("ics:" +:+ url) (cacheStore w)) in
    let sent := requests w ++ [url] in
    match net url with
    | None => (Thrown "fetch failed", {| cacheStore := store1; requests := sent |})
    | Some response =>
        if negb (ok response) then
          (Thrown ("Failed to fetch ICS: "
                   +:+ JS.numberToString (status response) +:+ " "
                   +:+ statusText response),
           {| cacheStore := store1; requests := sent |})
        else
          (Returned (text response),
           {| cacheStore :=
                Cache.set nowSet ("ics:" +:+ url) (text response) ttl store1;
              requests := sent |})
    end.
Proof.
  intros Hmiss. unfold fetchICSFromURL.
  destruct (Cache.get nowGet ("ics:" +:+ url) (cacheStore w)) as [cached store1].
  cbn [fst snd] in *. now rewrite Hmiss.
Qed.

Lemma fetchICSFromURL_on_hit net nowGet nowSet url ttl w c :
  fst (Cache.get nowGet ("ics:" +:+ url) (cacheStore w)) = Some c -> c <> "" ->
  fetchICSFromURL net nowGet nowSet url ttl w = (Returned c, w).
Proof.
  intros Hget Hc. unfold fetchICSFromURL.
  rewrite cache_get_value in Hget. unfold Cache.get.
  destruct (cacheStore w !! ("ics:" +:+ url)) as [item|]; [|discriminate].
  destruct (nowGet >? Cache.expiresAt item); [discriminate|].
  injection Hget as ->. cbn [JS.truthyString].
  destruct (String.eqb_spec c ""); [contradiction|]. cbn [negb].
  now destruct w.
Qed.

(** X9: after a call of [fetchICSFromURL] that missed the cache and
    fetched a content that is not empty, a second call for the same URL
    that reads the clock not after the expiry returns the same content from
    the cache: it sends no request, whatever the network would answer, and
    leaves the cache as it is. *)
Theorem fetchICSFromURL_second_call_cached
    (net net' : string -> option Response)
    (nowGet nowSet nowGet' nowSet' ttl ttl' : Z) (url : string) (w : World)
    (r : Response) :
  JS.truthyString (fst (Cache.get nowGet ("ics:" +:+ url) (cacheStore w))) = false ->
  net url = Some r -> ok r = true -> text r <> "" ->
  nowGet' <= nowSet + ttl ->
  fst (fetchICSFromURL net nowGet nowSet url ttl w) = Returned (text r)
  /\ requests (snd (fetchICSFromURL net nowGet nowSet url ttl w))
     = requests w ++ [url]
  /\ fetchICSFromURL net' nowGet' nowSet' url ttl'
       (snd (fetchICSFromURL net nowGet nowSet url ttl w))
     = (Returned (text r), snd (fetchICSFromURL net nowGet nowSet url ttl w)).
Proof.
  intros Hmiss Hnet Hok Htext Hfresh.
  rewrite (fetchICSFromURL_on_miss _ _ _ _ _ _ Hmiss). cbv zeta.
  rewrite Hnet, Hok. cbn [negb fst snd requests].
  split; [reflexivity|]. split; [reflexivity|].
  apply fetchICSFromURL_on_hit; [|exact Htext].
  cbn [cacheStore]. rewrite cache_get_value, cache_set_lookup.
  cbn [Cache.expiresAt Cache.data].
  destruct (Z.gtb_spec nowGet' (nowSet + ttl)); [lia | reflexivity].
Qed.

Lemma fetchICSFromURL_second_call_cached_witness :
  fst (fetchICSFromURL freshNet 0 1 "u" 10 emptyContentWorld)
  = Returned "BEGIN:VCALENDAR"
  /\ requests (snd (fetchICSFromURL freshNet 0 1 "u" 10 emptyContentWorld))
     = requests emptyContentWorld ++ ["u"]
  /\ fetchICSFromURL (fun _ => None) 5 6 "u" 10
       (snd (fetchICSFromURL freshNet 0 1 "u" 10 emptyContentWorld))
     = (Returned "BEGIN:VCALENDAR",
        snd (fetchICSFromURL freshNet 0 1 "u" 10 emptyContentWorld)).
Proof.
  apply (fetchICSFromURL_second_call_cached freshNet (fun _ => None) 0 1 5 6 10 10
           "u" emptyContentWorld
           {| ok := true; status := 200; statusText := "OK";
              text := "BEGIN:VCALENDAR" |}).
  - vm_compute. reflexivity.
  - reflexivity.
  - reflexivity.
  - discriminate.
  - lia.
Defined.

(** X10: a response that is not [ok] is not cached: the call throws
    [Failed to fetch ICS: status statusText], it adds no entry to the
    cache, and the next call for the URL, whenever it comes, sends a
    request again. *)
Theorem fetchICSFromURL_failure_not_cached
    (net net' : string -> option Response)
    (nowGet nowSet nowGet' nowSet' ttl ttl' : Z) (url : string) (w : World)
    (r : Response) :
  JS.truthyString (fst (Cache.get nowGet ("ics:" +:+ url) (cacheStore w))) = false ->
  net url = Some r -> ok r = false ->
  fst (fetchICSFromURL net nowGet nowSet url ttl w)
  = Thrown ("Failed to fetch ICS: " +:+ JS.numberToString (status r) +:+ " "
            +:+ statusText r)
  /\ (forall k item,
        cacheStore (snd (fetchICSFromURL net nowGet nowSet url ttl w)) !! k
        = Some item -> cacheStore w !! k = Some item)
  /\ requests (snd (fetchICSFromURL net' nowGet' nowSet' url ttl'
                      (snd (fetchICSFromURL net nowGet nowSet url ttl w))))
     = requests w ++ [url; url].
Proof.
  intros Hmiss Hnet Hok.
  rewrite (fetchICSFromURL_on_miss _ _ _ _ _ _ Hmiss). cbv zeta.
  rewrite Hnet, Hok. cbn [negb fst snd cacheStore].
  set (key := "ics:" +:+ url) in *.
  split; [reflexivity|]. split.
  - intros k item. unfold Cache.get.
    destruct (cacheStore w !! key) as [it|] eqn:E; [|auto].
    destruct (nowGet >? Cache.expiresAt it); [|auto].
    cbn [snd]. intros Hk. apply lookup_delete_Some in Hk. tauto.
  - rewrite fetchICSFromURL_on_miss.
    + cbv zeta. cbn [requests].
      destruct (net' url) as [r'|]; [destruct (negb (ok r'))|];
        cbn [snd requests]; now rewrite <- app_assoc.
    + cbn [cacheStore]. fold key.
      rewrite cache_get_value in Hmiss. rewrite cache_get_value.
      unfold Cache.get.
      destruct (cacheStore w !! key) as [it|] eqn:E.
      * destruct (nowGet >? Cache.expiresAt it) eqn:Hexp; cbn [snd].
        -- now rewrite lookup_delete_eq.
        -- rewrite E. destruct (nowGet' >? Cache.expiresAt it); [reflexivity|].
           exact Hmiss.
      * cbn [snd]. now rewrite E.
Qed.

Lemma fetchICSFromURL_failure_not_cached_witness :
  fst (fetchICSFromURL brokenNet 0 1 "u" 10 emptyContentWorld)
  = Thrown ("Failed to fetch ICS: " +:+ JS.numberToString 503 +:+ " "
            +:+ "Service Unavailable")
  /\ (forall k item,
        cacheStore (snd (fetchICSFromURL brokenNet 0 1 "u" 10 emptyContentWorld)) !! k
        = Some item -> cacheStore emptyContentWorld !! k = Some item)
  /\ requests (snd (fetchICSFromURL freshNet 5 6 "u" 10
                      (snd (fetchICSFromURL brokenNet 0 1 "u" 10 emptyContentWorld))))
     = requests emptyContentWorld ++ ["u"; "u"].
Proof.
  apply (fetchICSFromURL_failure_not_cached brokenNet freshNet 0 1 5 6 10 10 "u"
           emptyContentWorld
           {| ok := false; status := 503; statusText := "Service Unavailable";
              text := "" |}).
  - vm_compute. reflexivity.
  - reflexivity.
  - reflexivity.
Defined.

(** ** More on the merge *)

Section MergeOrder.
Variable h : Host.

Lemma setAll_app m l1 l2 : setAll (setAll m l1) l2 = setAll m (l1 ++ l2).
Proof. unfold setAll. now rewrite fold_left_app. Qed.

Lemma setAll_get m events k :
  Map_get (setAll m events) k
  = match lastWithKey k events with
    | Some e => Some e
    | None => Map_get m k
    end.
Proof.
  unfold lastWithKey.
  induction events as [|e events IH] using rev_ind; [reflexivity|].
  rewrite setAll_snoc, rev_app_distr. cbn [rev app List.find].
  destruct (String.eqb_spec (eventKey e) k) as [<-|Hne].
  - apply Map_get_set_eq.
  - rewrite Map_get_set_ne by exact Hne. exact IH.
Qed.

Lemma eventMap_get icloudEvents startYear endYear k :
  Map_get (eventMap h icloudEvents startYear endYear) k
  = lastWithKey k (mergeInputs h icloudEvents startYear endYear).
Proof.
  unfold eventMap, mergeInputs. rewrite setAll_app, setAll_get.
  now destruct (lastWithKey _ _).
Qed.

(** X11: for every key, the output of [mergeEvents] has exactly one
    event of this key when the supplementary events followed by the split
    upstream events have one, namely the last of them, and none
    otherwise. *)
Theorem mergeEvents_last_wins (icloudEvents : list CalendarEvent)
    (startYear endYear : Z) (k : string) :
  List.filter (fun x => String.eqb (eventKey x) k)
              (mergeEvents h icloudEvents startYear endYear)
  = match lastWithKey k (mergeInputs h icloudEvents startYear endYear) with
    | Some e => [e]
    | None => []
    end.
Proof.
  rewrite <- eventMap_get.
  set (m := eventMap h icloudEvents startYear endYear).
  assert (Hperm : Permutation
            (List.filter (fun x => String.eqb (eventKey x) k)
               (mergeEvents h icloudEvents startYear endYear))
            (List.filter (fun x => String.eqb (eventKey x) k) (Map_values m))).
  { rewrite mergeEvents_eventMap. apply filter_Permutation, Array_sort_Permutation. }
  destruct (Map_get m k) as [e|] eqn:Hget.
  - apply Map_get_In in Hget; [|apply eventMap_NoDup].
    assert (Hv : In e (Map_values m)).
    { unfold Map_values. change e with (snd (k, e)). now apply in_map. }
    pose proof (filter_unique_key eventKey (Map_values m) k e) as Hf.
    unfold m in Hf at 1. rewrite eventMap_keys in Hf.
    rewrite Hf in Hperm.
    + symmetry in Hperm. now apply Permutation_length_1_inv in Hperm.
    + apply eventMap_NoDup.
    + exact Hv.
    + exact (proj1 (eventMap_In _ _ _ _ _ _ Hget)).
  - rewrite (filter_none _ (Map_values m)) in Hperm.
    + symmetry in Hperm. now apply Permutation_nil in Hperm.
    + intros x Hx. apply String.eqb_neq. intros Hk.
      unfold Map_values in Hx. apply in_map_iff in Hx as ([k' e'] & <- & Hin).
      cbn [snd] in Hk.
      pose proof (proj1 (eventMap_In _ _ _ _ _ _ Hin)) as Hk'.
      rewrite Hk in Hk'. subst k'.
      apply Map_get_In in Hin; [|apply eventMap_NoDup]. fold m in Hin. congruence.
Qed.

(** X12: no two events in the output of [mergeEvents] have the same key
    [date-summary]. *)
Theorem mergeEvents_keys_unique (icloudEvents : list CalendarEvent)
    (startYear endYear : Z) :
  NoDup (map eventKey (mergeEvents h icloudEvents startYear endYear)).
Proof.
  rewrite mergeEvents_eventMap.
  assert (P : Permutation
            (map eventKey
               (Array_sort (fun a b => localeCompare h (date a) (date b))
                  (Map_values (eventMap h icloudEvents startYear endYear))))
            (map eventKey
               (Map_values (eventMap h icloudEvents startYear endYear))))
    by apply Permutation_map, Array_sort_Permutation.
  rewrite P, eventMap_keys. apply eventMap_NoDup.
Qed.

End MergeOrder.

Section SortOrder.
Context {A : Type}.
Variable cmp : A -> A -> Z.
Hypothesis cmp_consistent : consistentComparator cmp.

Lemma sortInsert_Sorted a (l : list A) :
  Sorted (fun x y => cmp x y <= 0) l ->
  Sorted (fun x y => cmp x y <= 0) (sortInsert cmp a l).
Proof.
  assert (Hafter : forall x y, 0 < cmp x y -> cmp y x <= 0).
  { intros x y Hxy. destruct (proj1 cmp_consistent x y); [lia | assumption]. }
  induction 1 as [|b l Hs IH Hb]; cbn [sortInsert].
  - repeat constructor.
  - destruct (Z.leb_spec (cmp a b) 0) as [Hle|Hgt].
    + constructor; [now constructor | now constructor].
    + constructor; [exact IH|].
      destruct Hb as [|c l Hbc]; cbn [sortInsert].
      * constructor. now apply Hafter.
      * destruct (Z.leb_spec (cmp a c) 0);
          constructor; [now apply Hafter | exact Hbc].
Qed.

Lemma Array_sort_StronglySorted (l : list A) :
  StronglySorted (fun x y => cmp x y <= 0) (Array_sort cmp l).
Proof.
  apply Sorted_StronglySorted.
  - intros x y z. apply (proj2 cmp_consistent).
  - induction l as [|a l IH]; [constructor|].
    cbn [Array_sort fold_right]. now apply sortInsert_Sorted.
Qed.

End SortOrder.

(** The order of the code units of two strings is consistent. *)
Lemma compare_consistent :
  consistentComparator
    (fun a b => match String.compare a b with Lt => -1 | Eq => 0 | Gt => 1 end).
Proof.
  assert (Hle : forall a b,
            match String.compare a b with Lt => -1 | Eq => 0 | Gt => 1 end <= 0
            <-> a = b \/ OrderedTypeEx.String_as_OT.lt a b).
  { intros a b. rewrite <- OrderedTypeEx.String_as_OT.cmp_lt.
    rewrite <- (OrderedTypeEx.String_as_OT.cmp_eq a b).
    unfold OrderedTypeEx.String_as_OT.cmp.
    destruct (String.compare a b); intuition (discriminate || lia). }
  split.
  - intros a b. rewrite (String.compare_antisym a b).
    destruct (String.compare b a); cbn [CompOpp]; lia.
  - intros a b c Hab Hbc. apply Hle in Hab, Hbc. apply Hle.
    destruct Hab as [->|Hab]; [exact Hbc|].
    destruct Hbc as [<-|Hbc]; [now right|].
    right. exact (OrderedTypeEx.String_as_OT.lt_trans _ _ _ Hab Hbc).
Qed.

(** X13: where [localeCompare] is a consistent comparator, the output of
    [mergeEvents] is sorted by date: no event's date sorts after the date
    of an event that comes later. *)
Theorem mergeEvents_sorted (h : Host) (icloudEvents : list CalendarEvent)
    (startYear endYear : Z) :
  consistentComparator (localeCompare h) ->
  sortedByDate h (mergeEvents h icloudEvents startYear endYear).
Proof.
  intros [Htotal Htrans]. unfold sortedByDate. rewrite mergeEvents_eventMap.
  apply (Array_sort_StronglySorted (fun a b => localeCompare h (date a) (date b))).
  split.
  - intros a b. apply Htotal.
  - intros a b c. apply Htrans.
Qed.

Lemma mergeEvents_sorted_witness :
  sortedByDate sampleHost
    (mergeEvents sampleHost [nationalDay; upstreamValentine] 2024 2024).
Proof.
  apply (mergeEvents_sorted sampleHost [nationalDay; upstreamValentine] 2024 2024).
  exact compare_consistent.
Defined.

(** ** More on the split *)

Section SplitEdges.
Import JSDate.
Variable h : Host.

Lemma splitLoop_not_lt fuel event end_ current dayIndex :
  lt current end_ = false ->
  splitLoop h fuel event end_ current dayIndex = [].
Proof.
  intros Hlt. destruct fuel; [reflexivity|]. rewrite splitLoop_S. now rewrite Hlt.
Qed.

Lemma splitMultiDayEvent_loop event e :
  endDate event = Some e -> e <> "" -> e <> date event ->
  splitMultiDayEvent h event
  = splitLoop h (splitFuel (ofString h (date event)) (ofString h e)) event
      (ofString h e) (ofString h (date event)) 0.
Proof.
  intros Hend Hne Hdiff. unfold splitMultiDayEvent. rewrite Hend.
  cbn [JS.truthyString].
  destruct (String.eqb_spec e ""); [contradiction|].
  destruct (String.eqb_spec (date event) e); [congruence|].
  reflexivity.
Qed.

(** X14: an event whose [endDate] is a day of the calendar before its
    [date] is dropped by the split: the result is empty, on every host. *)
Theorem splitMultiDayEvent_reversed (event : CalendarEvent) (a b : Z * Z * Z) :
  validDate a -> validDate b -> before b a ->
  date event = showYmd a -> endDate event = Some (showYmd b) ->
  splitMultiDayEvent h event = [].
Proof.
  intros Ha Hb Hba Hdate Hend.
  destruct a as [[y m] d], b as [[y' m'] d'].
  pose proof (MakeDay_before y' m' d' y m d (proj2 Hb) (proj2 Ha) Hba) as Hlt.
  rewrite (splitMultiDayEvent_loop event _ Hend).
  - rewrite Hdate, !ofString_showYmd by assumption.
    apply splitLoop_not_lt. unfold lt, msPerDay.
    apply Z.ltb_ge. lia.
  - intros E. pose proof (showYmd_nonempty _ Hb) as Hn.
    rewrite E in Hn. discriminate Hn.
  - rewrite Hdate. intros E. apply showYmd_inj in E; [|assumption..].
    inversion E; subst. lia.
Qed.

(** X15: an event with an [endDate] (not empty, not the [date]) is
    dropped by the split when [new Date] does not read its [date] or its
    [endDate] as a date: the result is empty. *)
Theorem splitMultiDayEvent_unreadable (event : CalendarEvent) (e : string) :
  endDate event = Some e -> e <> "" -> e <> date event ->
  ofString h (date event) = None \/ ofString h e = None ->
  splitMultiDayEvent h event = [].
Proof.
  intros Hend Hne Hdiff Hnan.
  rewrite (splitMultiDayEvent_loop event e Hend Hne Hdiff).
  apply splitLoop_invalid. tauto.
Qed.

Lemma local_day_shift n :
  Day (LocalTime h (n * msPerDay)) = n + LocalTZA h / msPerDay.
Proof. unfold Day, LocalTime, msPerDay. lia. Qed.

(** From midnight UTC of day [n] to midnight UTC of day [n + k] the loop
    makes [k] events, dated by the local days of these instants. *)
Lemma splitLoop_local_days event (k : nat) : forall fuel n dayIndex,
  (k <= fuel)%nat ->
  splitLoop h fuel event (Some ((n + Z.of_nat k) * msPerDay))
            (Some (n * msPerDay)) dayIndex
  = map (fun i => dayOf event (dayIndex + Z.of_nat i)
                    (showYmd (civilOfDay
                       (n + Z.of_nat i + LocalTZA h / msPerDay))))
        (seq 0 k).
Proof.
  induction k as [|k IH]; intros fuel n dayIndex Hk.
  - replace (n + Z.of_nat 0) with n by lia.
    apply splitLoop_not_lt. unfold lt. now rewrite Z.ltb_irrefl.
  - destruct fuel as [|fuel]; [lia|]. rewrite splitLoop_S. unfold lt.
    destruct (Z.ltb_spec (n * msPerDay) ((n + Z.of_nat (S k)) * msPerDay))
      as [_|Hge]; [|unfold msPerDay in Hge; lia].
    rewrite formatDateString_civil, local_day_shift, setDate_next_day.
    replace (n * msPerDay + msPerDay) with ((n + 1) * msPerDay) by lia.
    replace (n + Z.of_nat (S k)) with (n + 1 + Z.of_nat k) by lia.
    rewrite IH by lia.
    cbn [seq map]. rewrite <- seq_shift, map_map. f_equal.
    + do 2 f_equal; f_equal; lia.
    + apply map_ext. intros i. f_equal; [lia | do 2 f_equal; lia].
Qed.

Lemma prevDay_nextDay y m d :
  validMd y m d -> prevDay (nextDay (y, m, d)) = (y, m, d).
Proof.
  intros [Hm Hd]. unfold nextDay, prevDay.
  destruct (Z.ltb_spec d (daysInMonth y m)) as [Hlt|Hge].
  - destruct (Z.ltb_spec 1 (d + 1)); [|lia]. do 2 f_equal. lia.
  - destruct (Z.ltb_spec m 12) as [Hm12|Hm12].
    + cbn [Z.ltb]. destruct (Z.ltb_spec 1 (m + 1)); [|lia].
      replace (m + 1 - 1) with m by lia. do 2 f_equal. lia.
    + cbn [Z.ltb]. assert (m = 12) by lia. subst m.
      change (daysInMonth y 12) with 31 in *.
      do 2 f_equal; lia.
Qed.

Lemma civilOfDay_pred n : civilOfDay (n - 1) = prevDay (civilOfDay n).
Proof.
  replace n with (n - 1 + 1) at 2 by lia. rewrite civilOfDay_succ.
  pose proof (civilOfDay_valid (n - 1)) as Hv.
  destruct (civilOfDay (n - 1)) as [[y m] d].
  symmetry. apply prevDay_nextDay. exact (proj1 Hv).
Qed.

End SplitEdges.

(** X16: west of UTC (an offset down to minus one day) an event from
    the day [a] to the later day [b] is split into one event for each day
    from [a] up to, not including, [b], and each of them is dated the day
    before the day it stands for. *)
Theorem splitMultiDayEvent_days_west (h : Host) (event : CalendarEvent)
    (a b : Z * Z * Z) :
  - JSDate.msPerDay <= LocalTZA h < 0 ->
  validDate a -> validDate b -> before a b ->
  date event = showYmd a -> endDate event = Some (showYmd b) ->
  exists k : nat,
    (0 < k)%nat
    /\ Nat.iter k nextDay a = b
    /\ splitMultiDayEvent h event
       = map (fun i => dayOf event (Z.of_nat i)
                         (showYmd (prevDay (Nat.iter i nextDay a))))
             (seq 0 k).
Proof.
  intros Htz Ha Hb Hab Hdate Hend.
  destruct a as [[y m] d], b as [[y' m'] d'].
  pose proof (MakeDay_before y m d y' m' d' (proj2 Ha) (proj2 Hb) Hab) as Hlt.
  set (n := JSDate.MakeDay y (m - 1) d) in *.
  set (n' := JSDate.MakeDay y' (m' - 1) d') in *.
  pose proof (civilOfDay_MakeDay y m d (proj2 Ha)) as Ca. fold n in Ca.
  pose proof (civilOfDay_MakeDay y' m' d' (proj2 Hb)) as Cb. fold n' in Cb.
  set (k := Z.to_nat (n' - n)).
  assert (En' : n' = n + Z.of_nat k) by lia.
  assert (Hk : (0 < k)%nat) by lia.
  clearbody k. exists k.
  split; [exact Hk|]. split.
  - rewrite <- Ca, <- civilOfDay_add, <- En'. exact Cb.
  - rewrite (splitMultiDayEvent_loop h event _ Hend).
    + rewrite Hdate, !ofString_showYmd by assumption. fold n n'.
      rewrite En'.
      assert (Hfuel : splitFuel (Some (n * JSDate.msPerDay))
                        (Some ((n + Z.of_nat k) * JSDate.msPerDay))
                      = S k).
      { unfold splitFuel.
        replace ((n + Z.of_nat k) * JSDate.msPerDay - n * JSDate.msPerDay)
          with (Z.of_nat k * JSDate.msPerDay) by lia.
        rewrite Z.div_mul by (unfold JSDate.msPerDay; lia). lia. }
      rewrite Hfuel, splitLoop_local_days by lia.
      apply map_ext. intros i. cbn [Z.add]. f_equal.
      rewrite <- Ca, <- civilOfDay_add, <- civilOfDay_pred. do 2 f_equal.
      unfold JSDate.msPerDay in *. lia.
    + intros E. pose proof (showYmd_nonempty _ Hb) as Hn.
      rewrite E in Hn. discriminate Hn.
    + rewrite Hdate. intros E. apply showYmd_inj in E; [|assumption..].
      inversion E; subst. unfold n, n' in Hlt. lia.
Qed.

Lemma splitMultiDayEvent_reversed_witness :
  splitMultiDayEvent sampleHost reversedRange = [].
Proof.
  apply (splitMultiDayEvent_reversed sampleHost reversedRange
           (2024, 10, 4) (2024, 10, 1)).
  - vm_compute. intuition discriminate.
  - vm_compute. intuition discriminate.
  - vm_compute. right. split; [reflexivity|]. right. split; reflexivity.
  - vm_compute. reflexivity.
  - vm_compute. reflexivity.
Defined.

Lemma splitMultiDayEvent_unreadable_witness :
  splitMultiDayEvent sampleHost unreadableEnd = [].
Proof.
  apply (splitMultiDayEvent_unreadable sampleHost unreadableEnd "someday").
  - reflexivity.
  - discriminate.
  - discriminate.
  - right. vm_compute. reflexivity.
Defined.

Lemma splitMultiDayEvent_days_west_witness :
  exists k : nat,
    (0 < k)%nat
    /\ Nat.iter k nextDay (2024, 10, 1) = (2024, 10, 4)
    /\ splitMultiDayEvent westernHost nationalDay
       = map (fun i => dayOf nationalDay (Z.of_nat i)
                         (showYmd (prevDay (Nat.iter i nextDay (2024, 10, 1)))))
             (seq 0 k).
Proof.
  apply (splitMultiDayEvent_days_west westernHost nationalDay
           (2024, 10, 1) (2024, 10, 4)).
  - vm_compute. split; [discriminate | reflexivity].
  - vm_compute. intuition discriminate.
  - vm_compute. intuition discriminate.
  - vm_compute. right. split; [reflexivity|]. right. split; reflexivity.
  - vm_compute. reflexivity.
  - vm_compute. reflexivity.
Defined.

(** ** The groups by year and by month *)

Section Groups.
Variable name : string.
Variable keyOf : CalendarEvent -> string.

Lemma groupLoop_thrown events message :
  groupLoop name keyOf events (Thrown message) = Thrown message.
Proof. induction events as [|e events IH]; [reflexivity | exact IH]. Qed.

Lemma groupLoop_cons e events grouped :
  groupLoop name keyOf (e :: events) (Returned grouped)
  = groupLoop name keyOf events (pushGrouped name grouped (keyOf e) e).
Proof. reflexivity. Qed.

Lemma pushGrouped_own grouped e :
  existsb (String.eqb (keyOf e)) objectPrototype = false ->
  pushGrouped name grouped (keyOf e) e
  = Returned (<[keyOf e := default [] (grouped !! keyOf e) ++ [e]]> grouped).
Proof.
  intros Hown. unfold pushGrouped.
  destruct (grouped !! keyOf e); [reflexivity|]. now rewrite Hown.
Qed.

Lemma pushGrouped_inherited grouped e :
  existsb (String.eqb (keyOf e)) objectPrototype = true ->
  grouped !! keyOf e = None ->
  pushGrouped name grouped (keyOf e) e
  = Thrown ("grouped[" +:+ name +:+ "].push is not a function").
Proof. intros Hin Hnone. unfold pushGrouped. now rewrite Hnone, Hin. Qed.

(** The loop, started on groups that exist already, appends to each group
    the events of its key, in their order, and opens the groups that are
    missing. *)
Lemma groupLoop_groups events : forall grouped,
  (forall e, In e events ->
     existsb (String.eqb (keyOf e)) objectPrototype = false) ->
  exists grouped',
    groupLoop name keyOf events (Returned grouped) = Returned grouped'
    /\ (forall key,
          grouped' !! key
          = match grouped !! key, groupOf keyOf key events with
            | None, None => None
            | o, g => Some (default [] o ++ default [] g)
            end)
    /\ Permutation (groupedEvents grouped') (groupedEvents grouped ++ events).
Proof.
  induction events as [|e events IH]; intros grouped Hown.
  - exists grouped. split; [reflexivity|]. split.
    + intros key. unfold groupOf. cbn [List.filter].
      destruct (grouped !! key); cbn [default from_option id];
        [now rewrite app_nil_r | reflexivity].
    + now rewrite app_nil_r.
  - rewrite groupLoop_cons, pushGrouped_own by (apply Hown; now left).
    destruct (IH (<[keyOf e := default [] (grouped !! keyOf e) ++ [e]]> grouped))
      as (grouped' & Hrun & Hget & Hperm).
    { intros e' He'. apply Hown. now right. }
    exists grouped'. split; [exact Hrun|]. split.
    + intros key. rewrite Hget. unfold groupOf. cbn [List.filter].
      destruct (String.eqb_spec (keyOf e) key) as [<-|Hne].
      * rewrite lookup_insert_eq.
        destruct (List.filter _ events) as [|e1 group];
          destruct (grouped !! keyOf e); cbn [default from_option id app];
          rewrite ?app_nil_r, <- ?app_assoc; reflexivity.
      * rewrite lookup_insert_ne by exact Hne. reflexivity.
    + rewrite Hperm. unfold groupedEvents.
      change (e :: events) with ([e] ++ events). rewrite app_assoc.
      apply Permutation_app_tail.
      destruct (grouped !! keyOf e) as [group|] eqn:E; cbn [default from_option id].
      * rewrite <- (insert_delete_eq grouped).
        rewrite map_to_list_insert by apply lookup_delete_eq.
        rewrite <- (map_to_list_delete grouped _ _ E).
        cbn [map snd concat]. rewrite <- !app_assoc.
        apply Permutation_app_head. apply Permutation_app_comm.
      * rewrite map_to_list_insert by exact E.
        cbn [map snd concat app]. apply Permutation_cons_append.
Qed.

(** The loop throws at the first event whose key is a name the object
    inherits. *)
Lemma groupLoop_throws events1 e events2 grouped :
  (forall e', In e' events1 ->
     existsb (String.eqb (keyOf e')) objectPrototype = false) ->
  existsb (String.eqb (keyOf e)) objectPrototype = true ->
  (forall key group, grouped !! key = Some group ->
     existsb (String.eqb key) objectPrototype = false) ->
  groupLoop name keyOf (events1 ++ e :: events2) (Returned grouped)
  = Thrown ("grouped[" +:+ name +:+ "].push is not a function").
Proof.
  revert grouped. induction events1 as [|e1 events1 IH]; intros grouped Hown Hin Hkeys.
  - cbn [app]. rewrite groupLoop_cons, pushGrouped_inherited.
    + apply groupLoop_thrown.
    + exact Hin.
    + destruct (grouped !! keyOf e) as [group|] eqn:E; [|reflexivity].
      rewrite (Hkeys _ _ E) in Hin. discriminate Hin.
  - cbn [app]. rewrite groupLoop_cons, pushGrouped_own by (apply Hown; now left).
    apply IH.
    + intros e' He'. apply Hown. now right.
    + exact Hin.
    + intros key group Hget.
      destruct (String.eqb_spec (keyOf e1) key) as [<-|Hne].
      * apply Hown. now left.
      * rewrite lookup_insert_ne in Hget by exact Hne. exact (Hkeys _ _ Hget).
Qed.

End Groups.

(** A numeral begins with a digit or with the sign. *)
Lemma numberToString_head n :
  exists c s, JS.numberToString n = String c s
              /\ (JS.isDigit c = true \/ c = "-"%char).
Proof.
  unfold JS.numberToString, NilZero.string_of_int, NilZero.string_of_uint.
  destruct (Z.to_int n) as [d|d].
  - destruct d; cbn [NilEmpty.string_of_uint]; do 2 eexists;
      (split; [reflexivity | left; reflexivity]).
  - do 2 eexists. split; [reflexivity | now right].
Qed.

Lemma numberToString_inj n n' :
  JS.numberToString n = JS.numberToString n' -> n = n'.
Proof.
  unfold JS.numberToString. intros E.
  apply DecimalZ.to_int_inj.
  assert (Hnn : forall z, Z.to_int z <> Decimal.Pos Decimal.Nil
                          /\ Z.to_int z <> Decimal.Neg Decimal.Nil).
  { intros [|p|p]; cbn [Z.to_int]; split; try discriminate;
      intros H; injection H; apply DecimalPos.Unsigned.to_uint_nonnil. }
  apply (f_equal NilZero.int_of_string) in E.
  rewrite !NilZero.isi in E by apply Hnn.
  now injection E.
Qed.

Lemma showNumber_inj a b : JSDate.showNumber a = JSDate.showNumber b -> a = b.
Proof.
  destruct a as [a|], b as [b|]; cbn [JSDate.showNumber]; intros E.
  - f_equal. now apply numberToString_inj.
  - destruct (numberToString_head a) as (c & s & Hs & [Hc| ->]);
      rewrite Hs in E; inversion E; subst; discriminate.
  - destruct (numberToString_head b) as (c & s & Hs & [Hc| ->]);
      rewrite Hs in E; inversion E; subst; discriminate.
  - reflexivity.
Qed.

(** No name of [Object.prototype] begins like a numeral or like [NaN]. *)
Lemma yearKey_own e : existsb (String.eqb (yearKey e)) objectPrototype = false.
Proof.
  unfold yearKey. destruct (yearOf e) as [y|]; [|reflexivity].
  cbn [JSDate.showNumber].
  destruct (numberToString_head y) as (c & s & -> & [Hc| ->]); [|reflexivity].
  unfold objectPrototype. cbn [existsb String.eqb].
  assert (Hl : forall x, (57 < nat_of_ascii x)%nat -> Ascii.eqb c x = false).
  { intros x Hx. apply Ascii.eqb_neq. intros ->.
    unfold JS.isDigit in Hc. apply andb_true_iff in Hc as [_ Hc].
    apply Nat.leb_le in Hc. lia. }
  rewrite !Hl by (vm_compute; lia). reflexivity.
Qed.

Lemma groupEventsByYear_returns (events : list CalendarEvent) :
  exists grouped,
    groupEventsByYear events = Returned grouped
    /\ (forall key, grouped !! key = groupOf yearKey key events)
    /\ Permutation (groupedEvents grouped) events.
Proof.
  destruct (groupLoop_groups "year" yearKey events empty)
    as (grouped & Hrun & Hget & Hperm).
  { intros e _. apply yearKey_own. }
  exists grouped. split; [exact Hrun|]. split.
  - intros key. rewrite Hget, lookup_empty.
    destruct (groupOf yearKey key events); reflexivity.
  - rewrite Hperm. unfold groupedEvents. now rewrite map_to_list_empty.
Qed.

(** X17: [groupEventsByYear] never throws; the group under the key of a
    year (or of [NaN]) has exactly the events whose date reads as this
    year, in the order of the input; every group has an event of its key;
    and the groups together have each event once. *)
Theorem groupEventsByYear_groups (events : list CalendarEvent) :
  exists grouped,
    groupEventsByYear events = Returned grouped
    /\ (forall year,
          grouped !! JSDate.showNumber year
          = match List.filter (fun e => bool_decide (yearOf e = year)) events with
            | [] => None
            | group => Some group
            end)
    /\ (forall key group, grouped !! key = Some group ->
          exists e, In e group /\ key = JSDate.showNumber (yearOf e))
    /\ Permutation (groupedEvents grouped) events.
Proof.
  destruct (groupEventsByYear_returns events) as (grouped & Hrun & Hkeys & Hperm).
  exists grouped. split; [exact Hrun|]. split; [|split; [|exact Hperm]].
  - intros year. rewrite Hkeys. unfold groupOf.
    erewrite filter_ext; [reflexivity|].
    intros e. cbv beta. unfold yearKey.
    destruct (String.eqb_spec (JSDate.showNumber (yearOf e)) (JSDate.showNumber year))
      as [E|Hne].
    + apply showNumber_inj in E. now rewrite bool_decide_eq_true_2.
    + rewrite bool_decide_eq_false_2; [reflexivity|]. intros E. now rewrite E in Hne.
  - intros key group. rewrite Hkeys. unfold groupOf.
    destruct (List.filter _ events) as [|e l] eqn:E; [discriminate|].
    intros [= <-]. exists e. split; [now left|].
    assert (Hin : In e (List.filter (fun e => String.eqb (yearKey e) key) events))
      by (rewrite E; now left).
    apply filter_In in Hin as [_ Hk]. apply String.eqb_eq in Hk. now rewrite <- Hk.
Qed.

(** The first characters of a text are a given text when the text begins
    with it. *)
Lemma slice_prefix (p s : string) :
  String.eqb (JS.slice 0 (String.length p) s) p = JS.startsWith p s.
Proof.
  unfold JS.slice, JS.startsWith. rewrite Nat.sub_0_r.
  revert s. induction p as [|c p IH]; intros [|c' s]; cbn; try reflexivity.
  rewrite IH. destruct (Ascii.eqb_spec c' c) as [->|Hne].
  - destruct (ascii_dec c c); [reflexivity | contradiction].
  - destruct (ascii_dec c c'); [congruence | reflexivity].
Qed.

Lemma slice_length n s : (String.length (JS.slice 0 n s) <= n)%nat.
Proof.
  unfold JS.slice. rewrite Nat.sub_0_r.
  revert s. induction n as [|n IH]; intros [|c s]; cbn; try lia.
  specialize (IH s). lia.
Qed.

Lemma eqb_length a b : String.eqb a b = true -> String.length a = String.length b.
Proof. intros E. apply String.eqb_eq in E. now subst. Qed.

(** Of the names of [Object.prototype] only [valueOf] has seven characters
    or less. *)
Lemma monthKey_inherited e :
  existsb (String.eqb (monthKey e)) objectPrototype
  = JS.startsWith "valueOf" (date e).
Proof.
  rewrite <- slice_prefix. change (String.length "valueOf") with 7%nat.
  fold (monthKey e). pose proof (slice_length 7 (date e)) as Hlen.
  fold (monthKey e) in Hlen.
  assert (Hlong : forall n, (7 < String.length n)%nat ->
                            String.eqb (monthKey e) n = false).
  { intros n Hn. destruct (String.eqb (monthKey e) n) eqn:E; [|reflexivity].
    apply eqb_length in E. lia. }
  unfold objectPrototype. cbn [existsb].
  repeat match goal with
         | |- context [String.eqb (monthKey e) ?n] =>
             rewrite (Hlong n) by (cbn; lia)
         end.
  cbn [orb]. apply orb_false_r.
Qed.

(** X18: when no date begins with [valueOf], [groupEventsByMonth]
    returns groups: under each key the events whose date has this key as
    its first seven characters, in the order of the input, no group for a
    key without events, and the groups together have each event once. *)
Theorem groupEventsByMonth_groups (events : list CalendarEvent) :
  (forall e, In e events -> JS.startsWith "valueOf" (date e) = false) ->
  exists grouped,
    groupEventsByMonth events = Returned grouped
    /\ (forall key,
          grouped !! key
          = match List.filter (fun e => String.eqb (JS.slice 0 7 (date e)) key)
                    events with
            | [] => None
            | group => Some group
            end)
    /\ Permutation (groupedEvents grouped) events.
Proof.
  intros Hdates.
  destruct (groupLoop_groups "yearMonth" monthKey events empty)
    as (grouped & Hrun & Hget & Hperm).
  { intros e He. rewrite monthKey_inherited. now apply Hdates. }
  exists grouped. split; [exact Hrun|]. split.
  - intros key. rewrite Hget, lookup_empty.
    transitivity (groupOf monthKey key events); [|reflexivity].
    destruct (groupOf monthKey key events); reflexivity.
  - rewrite Hperm. unfold groupedEvents. now rewrite map_to_list_empty.
Qed.

Lemma first_with {A} (p : A -> bool) (l : list A) x :
  In x l -> p x = true ->
  exists l1 y l2, l = l1 ++ y :: l2 /\ p y = true
                  /\ (forall z, In z l1 -> p z = false).
Proof.
  induction l as [|a l IH]; intros Hin Hp; [contradiction|].
  destruct (p a) eqn:Ha.
  - exists [], a, l. split; [reflexivity|]. split; [exact Ha|]. intros z [].
  - destruct Hin as [->|Hin]; [congruence|].
    destruct (IH Hin Hp) as (l1 & y & l2 & -> & Hy & Hl1).
    exists (a :: l1), y, l2. split; [reflexivity|]. split; [exact Hy|].
    intros z [<-|Hz]; [exact Ha | now apply Hl1].
Qed.

(** X19: [groupEventsByMonth] throws a [TypeError] when the date of
    some event begins with [valueOf]: the key is then read from
    [Object.prototype], and the function found there has no [push]. *)
Theorem groupEventsByMonth_throws (events : list CalendarEvent)
    (e : CalendarEvent) :
  In e events -> JS.startsWith "valueOf" (date e) = true ->
  groupEventsByMonth events
  = Thrown "grouped[yearMonth].push is not a function".
Proof.
  intros Hin Hstart.
  destruct (first_with (fun x => JS.startsWith "valueOf" (date x)) events e Hin Hstart)
    as (l1 & y & l2 & -> & Hy & Hl1).
  unfold groupEventsByMonth.
  apply (groupLoop_throws "yearMonth" monthKey l1 y l2 empty).
  - intros e' He'. rewrite monthKey_inherited. now apply Hl1.
  - now rewrite monthKey_inherited.
  - intros key group Hget. rewrite lookup_empty in Hget. discriminate Hget.
Qed.

Lemma groupEventsByMonth_groups_witness :
  exists grouped,
    groupEventsByMonth [newYearsDay; secondOfJanuary; nationalDay] = Returned grouped
    /\ (forall key,
          grouped !! key
          = match List.filter (fun e => String.eqb (JS.slice 0 7 (date e)) key)
                    [newYearsDay; secondOfJanuary; nationalDay] with
            | [] => None
            | group => Some group
            end)
    /\ Permutation (groupedEvents grouped)
         [newYearsDay; secondOfJanuary; nationalDay].
Proof.
  apply (groupEventsByMonth_groups [newYearsDay; secondOfJanuary; nationalDay]).
  intros e [<-|[<-|[<-|[]]]]; reflexivity.
Defined.

Lemma groupEventsByMonth_throws_witness :
  groupEventsByMonth [newYearsDay; valueOfEvent]
  = Thrown "grouped[yearMonth].push is not a function".
Proof.
  apply (groupEventsByMonth_throws [newYearsDay; valueOfEvent] valueOfEvent).
  - right. left. reflexivity.
  - reflexivity.
Defined.

(** ** What [parseICS] reads *)





(** ** The pipeline *)

Lemma filter_NoDup_map {A B} (f : A -> B) (p : A -> bool) (l : list A) :
  NoDup (map f l) -> NoDup (map f (List.filter p l)).
Proof.
  induction l as [|a l IH]; cbn [map List.filter]; intros Hnd; [constructor|].
  apply NoDup_cons_1_2 in Hnd as Hnd'. apply NoDup_cons_1_1 in Hnd.
  destruct (p a); [|now apply IH].
  cbn [map]. apply NoDup_cons_2; [|now apply IH].
  intros Hin. apply Hnd. apply list_elem_of_In in Hin. apply list_elem_of_In.
  apply in_map_iff in Hin as (x & Hx & Hin). apply filter_In in Hin as [Hin _].
  rewrite <- Hx. now apply in_map.
Qed.

Lemma Set_has_range (y : Z) (year : option Z) :
  Set_has [y - 1; y; y + 1] year = true ->
  exists y', year = Some y' /\ y - 1 <= y' <= y + 1.
Proof.
  destruct year as [y'|]; [|discriminate]. cbn [Set_has existsb].
  intros H. exists y'. split; [reflexivity|].
  repeat (apply orb_true_iff in H as [H|H]); try discriminate;
    apply Z.eqb_eq in H; lia.
Qed.

(** X21: when [getCalendarData] returns, no two of its events have the
    same key, none has an [endDate], and the year each date begins with is
    the current year of the host, the year before or the year after. *)
Theorem getCalendarData_events (h : Host) (net : string -> option Response)
    (icalError : string -> string) (nowGet nowSet today : Z)
    (icloudUrl : string) (w : World) (events : list CalendarEvent) :
  fst (getCalendarData h net icalError nowGet nowSet today icloudUrl w)
  = Returned events ->
  NoDup (map eventKey events)
  /\ (forall e, In e events ->
        endDate e = None
        /\ exists year,
             yearOf e = Some year
             /\ JSDate.YearFromTime (JSDate.LocalTime h today) - 1 <= year
                <= JSDate.YearFromTime (JSDate.LocalTime h today) + 1).
Proof.
  unfold getCalendarData.
  destruct (fetchICSFromURL net nowGet nowSet icloudUrl defaultFetchTtl w)
    as [[icsContent|message] w']; [|discriminate].
  destruct (parseICS h icsContent) as [icloudEvents|]; [|discriminate].
  set (Y := JSDate.YearFromTime (JSDate.LocalTime h today)).
  cbn [getYearRange fst]. intros [= <-]. split.
  - apply filter_NoDup_map. rewrite mergeEvents_eventMap.
    assert (P : Permutation
              (map eventKey
                 (Array_sort (fun a b => localeCompare h (date a) (date b))
                    (Map_values (eventMap h icloudEvents (Y - 1) (Y + 1)))))
              (map eventKey (Map_values (eventMap h icloudEvents (Y - 1) (Y + 1)))))
      by apply Permutation_map, Array_sort_Permutation.
    rewrite P, eventMap_keys. apply eventMap_NoDup.
  - intros e He. unfold filterEventsByYears in He.
    apply filter_In in He as [Hin Hyear]. split.
    + apply mergeEvents_In in Hin as [Hin|(hol & _ & ->)]; [|reflexivity].
      apply in_flat_map in Hin as (u & _ & Hin).
      exact (proj2 (splitMultiDayEvent_content h u e Hin)).
    + now apply Set_has_range.
Qed.

Lemma getCalendarData_events_witness :
  NoDup (map eventKey sampleCalendarData)
  /\ (forall e, In e sampleCalendarData ->
        endDate e = None
        /\ exists year,
             yearOf e = Some year
             /\ JSDate.YearFromTime (JSDate.LocalTime sampleHost juneFirst2024) - 1
                <= year
                <= JSDate.YearFromTime (JSDate.LocalTime sampleHost juneFirst2024) + 1).
Proof.
  apply (getCalendarData_events sampleHost feedNet noMessage 0 1 juneFirst2024
           Routes.ICLOUD_CN_URL coldWorld sampleCalendarData).
  vm_compute. reflexivity.
Defined.

Example sampleCalendarData_dates :
  List.length sampleCalendarData = 51%nat
  /\ List.filter (fun e => String.eqb (summary e) "中秋节（休）") sampleCalendarData
     = [ dayOf midAutumn 0 "2024-09-15"; dayOf midAutumn 1 "2024-09-16";
         dayOf midAutumn 2 "2024-09-17" ].
Proof. vm_compute. split; reflexivity. Qed.

(** ** The routes *)

Section RoutesProperties.
Import Routes.

Lemma load_getCalendarData h net icalError nowGet nowSet today w :
  load h net icalError nowGet nowSet today w
  = let result :=
      getCalendarData h net icalError nowGet nowSet today ICLOUD_CN_URL w in
    (match fst result with
     | Returned events =>
         match groupEventsByYear events with
         | Returned eventsByYear =>
             {| events := events; eventsByYear := eventsByYear;
                totalCount := Z.of_nat (List.length events); error := None |}
         | Thrown message =>
             {| events := []; eventsByYear := empty; totalCount := 0;
                error := Some message |}
         end
     | Thrown message =>
         {| events := []; eventsByYear := empty; totalCount := 0;
            error := Some message |}
     end, snd result).
Proof.
  unfold load. cbv zeta.
  destruct (getCalendarData _ _ _ _ _ _ _ _) as [[events|message] w'];
    cbn [fst snd]; [|reflexivity].
  now destruct (groupEventsByYear events).
Qed.

(** X22: the data of [load] are consistent in every case: [totalCount]
    is the number of events, [eventsByYear] has under each key the events
    of that year in their order, the groups together have each event once,
    [error] is [null] exactly when [getCalendarData] returned, and with an
    error there are no events. *)
Theorem load_page_consistent (h : Host) (net : string -> option Response)
    (icalError : string -> string) (nowGet nowSet today : Z) (w : World) :
  let page := fst (load h net icalError nowGet nowSet today w) in
  totalCount page = Z.of_nat (List.length (events page))
  /\ (forall key, eventsByYear page !! key = groupOf yearKey key (events page))
  /\ Permutation (groupedEvents (eventsByYear page)) (events page)
  /\ (error page = None
        <-> exists events,
              fst (getCalendarData h net icalError nowGet nowSet today
                     ICLOUD_CN_URL w) = Returned events)
  /\ (error page <> None -> events page = []).
Proof.
  rewrite load_getCalendarData. cbv zeta. cbn [fst].
  destruct (fst (getCalendarData _ _ _ _ _ _ _ _)) as [evs|message].
  - destruct (groupEventsByYear_returns evs) as (grouped & -> & Hkeys & Hperm).
    cbn [totalCount events eventsByYear error].
    split; [reflexivity|]. split; [exact Hkeys|]. split; [exact Hperm|].
    split; [|congruence]. split; [eauto | reflexivity].
  - cbn [totalCount events eventsByYear error].
    split; [reflexivity|]. split; [intros key; apply lookup_empty|].
    split; [unfold groupedEvents; now rewrite map_to_list_empty|].
    split; [|reflexivity]. split; [discriminate | intros (? & [=])].
Qed.

(** X23: when the cache has no usable content and the feed answers
    with a status that is not [ok], [load] returns the empty page with the
    error [Failed to fetch ICS: status statusText], [GET] answers 500 with
    the text [Failed to generate calendar], and each of them has sent one
    request, to the feed. *)
Theorem routes_report_feed_failure (h : Host) (net : string -> option Response)
    (icalError : string -> string) (nowGet nowSet today : Z)
    (clock : nat -> Z) (w : World) (r : Response) :
  JS.truthyString
    (fst (Cache.get nowGet ("ics:" +:+ ICLOUD_CN_URL) (cacheStore w))) = false ->
  net ICLOUD_CN_URL = Some r -> ok r = false ->
  fst (load h net icalError nowGet nowSet today w)
  = {| events := []; eventsByYear := empty; totalCount := 0;
       error := Some ("Failed to fetch ICS: " +:+ JS.numberToString (status r)
                      +:+ " " +:+ statusText r) |}
  /\ fst (GET h net icalError nowGet nowSet today clock w)
     = {| body := "Failed to generate calendar"; httpStatus := 500;
          headers := [ ("Content-Type", "text/plain") ] |}
  /\ requests (snd (load h net icalError nowGet nowSet today w))
     = requests w ++ [ICLOUD_CN_URL]
  /\ requests (snd (GET h net icalError nowGet nowSet today clock w))
     = requests w ++ [ICLOUD_CN_URL].
Proof.
  intros Hmiss Hnet Hok.
  unfold load, GET, getCalendarData.
  rewrite (fetchICSFromURL_on_miss _ _ _ _ _ _ Hmiss). cbv zeta.
  rewrite Hnet, Hok. cbn [negb fst snd requests].
  repeat split; reflexivity.
Qed.

End RoutesProperties.

Lemma routes_report_feed_failure_witness :
  fst (Routes.load sampleHost brokenNet noMessage 0 1 juneFirst2024 coldWorld)
  = {| Routes.events := []; Routes.eventsByYear := empty; Routes.totalCount := 0;
       Routes.error :=
         Some ("Failed to fetch ICS: " +:+ JS.numberToString 503
               +:+ " " +:+ "Service Unavailable") |}
  /\ fst (Routes.GET sampleHost brokenNet noMessage 0 1 juneFirst2024
            (fun _ => 0) coldWorld)
     = {| Routes.body := "Failed to generate calendar"; Routes.httpStatus := 500;
          Routes.headers := [ ("Content-Type", "text/plain") ] |}
  /\ requests (snd (Routes.load sampleHost brokenNet noMessage 0 1 juneFirst2024
                      coldWorld))
     = requests coldWorld ++ [Routes.ICLOUD_CN_URL]
  /\ requests (snd (Routes.GET sampleHost brokenNet noMessage 0 1 juneFirst2024
                      (fun _ => 0) coldWorld))
     = requests coldWorld ++ [Routes.ICLOUD_CN_URL].
Proof.
  apply (routes_report_feed_failure sampleHost brokenNet noMessage 0 1
           juneFirst2024 (fun _ => 0) coldWorld
           {| ok := false; status := 503; statusText := "Service Unavailable";
              text := "" |}).
  - vm_compute. reflexivity.
  - reflexivity.
  - reflexivity.
Defined.

(** ** The time stamp of the serializer *)

Section Stamp.
Import JSDate.

(** X24: [formatDateToICS] writes the instant [hour]:[min]:[sec].[ms]
    UTC of the day [y]-[m]-[d] as year, month, day, [T], hour, minute,
    second, [Z], month to second with two digits each; the milliseconds
    are dropped. *)
Theorem formatDateToICS_stamp (y m d hour min sec ms : Z) :
  validMd y m d ->
  0 <= hour < 24 -> 0 <= min < 60 -> 0 <= sec < 60 -> 0 <= ms < 1000 ->
  formatDateToICS
    (Some (MakeDate (MakeDay y (m - 1) d) (MakeTime hour min sec ms)))
  = JS.numberToString y +:+ pad2 m +:+ pad2 d +:+ "T"
      +:+ pad2 hour +:+ pad2 min +:+ pad2 sec +:+ "Z".
Proof.
  intros Hmd Hh Hmin Hs Hms.
  set (t := MakeDate (MakeDay y (m - 1) d) (MakeTime hour min sec ms)).
  assert (HD : Day t = MakeDay y (m - 1) d).
  { unfold t, Day, MakeDate, MakeTime, msPerDay.
    generalize (MakeDay y (m - 1) d). intros n. lia. }
  assert (HT : TimeWithinDay t = MakeTime hour min sec ms).
  { unfold t, TimeWithinDay, MakeDate, MakeTime, msPerDay.
    generalize (MakeDay y (m - 1) d). intros n. lia. }
  pose proof (civil_of_time t) as C.
  rewrite HD, civilOfDay_MakeDay in C by exact Hmd.
  injection C as Cy Cm Cd.
  unfold formatDateToICS, getUTCFullYear, getUTCMonth, getUTCDate, getUTCHours,
    getUTCMinutes, getUTCSeconds, option_map, showNumber, pad2.
  rewrite Cy, Cm, Cd, HT.
  replace (MakeTime hour min sec ms / 3600000) with hour
    by (unfold MakeTime; lia).
  replace (MakeTime hour min sec ms / 60000 mod 60) with min
    by (unfold MakeTime; lia).
  replace (MakeTime hour min sec ms / 1000 mod 60) with sec
    by (unfold MakeTime; lia).
  reflexivity.
Qed.

End Stamp.

Lemma formatDateToICS_stamp_witness :
  formatDateToICS
    (Some (JSDate.MakeDate (JSDate.MakeDay 2024 (10 - 1) 1) (MakeTime 8 30 5 250)))
  = JS.numberToString 2024 +:+ pad2 10 +:+ pad2 1 +:+ "T"
      +:+ pad2 8 +:+ pad2 30 +:+ pad2 5 +:+ "Z".
Proof.
  apply (formatDateToICS_stamp 2024 10 1 8 30 5 250).
  - vm_compute. intuition discriminate.
  - lia.
  - lia.
  - lia.
  - lia.
Defined.

Example formatDateToICS_2024 :
  formatDateToICS
    (Some (JSDate.MakeDate (JSDate.MakeDay 2024 9 1) (MakeTime 8 30 5 250)))
  = "20241001T083005Z".
Proof. vm_compute. reflexivity. Qed.

(** ** The page *)

Section Page.
Import JSDate Routes.
Variable h : Host.

(** The month and the day [formatDate] shows are those of the local day of
    midnight UTC of the date. *)
Lemma formatDate_valid y m d :
  validDate (y, m, d) ->
  formatDate h (showYmd (y, m, d))
  = (let '(_, m', d') :=
       civilOfDay (MakeDay y (m - 1) d + LocalTZA h / msPerDay) in
     JS.numberToString m' +:+ "月" +:+ JS.numberToString d' +:+ "日").
Proof.
  intros Hv. unfold formatDate. rewrite (ofString_showYmd h y m d Hv).
  unfold getMonth, getDate, option_map, showNumber.
  pose proof (civil_of_time (LocalTime h (MakeDay y (m - 1) d * msPerDay))) as C.
  rewrite local_day_shift in C.
  destruct (civilOfDay _) as [[y' m'] d'].
  injection C as _ Cm Cd. now rewrite Cm, Cd.
Qed.

Lemma getWeekday_valid y m d :
  validDate (y, m, d) ->
  getWeekday h (showYmd (y, m, d))
  = nth_error weekdays
      (Z.to_nat ((MakeDay y (m - 1) d + LocalTZA h / msPerDay + 4) mod 7)).
Proof.
  intros Hv. unfold getWeekday. rewrite (ofString_showYmd h y m d Hv).
  unfold getDay, option_map, WeekDay. now rewrite local_day_shift.
Qed.

Hypothesis real_zone : - msPerDay <= LocalTZA h < msPerDay.

(** X25: on a host whose zone is less than a day from UTC, [formatDate]
    shows for a date string the month and the day, not padded, of the local
    day of midnight UTC of that date: the day itself at UTC and east of
    it, the day before west of it. *)
Theorem formatDate_local_day (ymd : Z * Z * Z) :
  validDate ymd ->
  formatDate h (showYmd ymd)
  = (let '(_, m, d) := localDayOf h ymd in
     JS.numberToString m +:+ "月" +:+ JS.numberToString d +:+ "日").
Proof.
  destruct ymd as [[y m] d]. intros Hv.
  rewrite (formatDate_valid y m d Hv). unfold localDayOf.
  destruct (Z.ltb_spec (LocalTZA h) 0) as [Hw|He].
  - replace (LocalTZA h / msPerDay) with (-1) by (unfold msPerDay in *; lia).
    replace (MakeDay y (m - 1) d + -1) with (MakeDay y (m - 1) d - 1) by lia.
    now rewrite civilOfDay_pred, (civilOfDay_MakeDay y m d (proj2 Hv)).
  - replace (LocalTZA h / msPerDay) with 0 by (unfold msPerDay in *; lia).
    now rewrite Z.add_0_r, (civilOfDay_MakeDay y m d (proj2 Hv)).
Qed.

End Page.

Lemma getThanksgivingDate_showYmd (h : Host) (year : Z) :
  1000 <= year <= 9999 ->
  exists D, 22 <= D <= 28
            /\ getThanksgivingDate h year = showYmd (year, 11, D)
            /\ (JSDate.MakeDay year 10 D + 4) mod 7 = 4.
Proof.
  intros Hy.
  set (wd := (JSDate.MakeDay year 10 1 + 4) mod 7).
  assert (Hwd : 0 <= wd <= 6) by (unfold wd; lia).
  assert (Hfull : fullYear year = year).
  { unfold fullYear. destruct (Z.leb_spec 0 year), (Z.leb_spec year 99);
      cbn [andb]; lia. }
  exists ((if wd <=? 4 then 1 + (4 - wd) else 1 + (11 - wd)) + 21).
  split; [destruct (Z.leb_spec wd 4); lia|]. split.
  - unfold getThanksgivingDate. rewrite november_first_getDay, Hfull. fold wd.
    cbn [option_map JSDate.showNumber]. unfold showYmd.
    reflexivity.
  - rewrite MakeDay_date. fold wd in Hwd |- *.
    unfold wd. generalize (JSDate.MakeDay year 10 1). intros d1.
    destruct (Z.leb_spec ((d1 + 4) mod 7) 4); lia.
Qed.

(** X26: for a year of four digits, the page of a browser at UTC or
    east of it shows the date that [getThanksgivingDate] computes, on any
    server, as a Thursday of November between the 22nd and the 28th. *)
Theorem page_shows_thanksgiving_on_thursday (server browser : Host) (year : Z) :
  0 <= LocalTZA browser < JSDate.msPerDay ->
  1000 <= year <= 9999 ->
  Routes.getWeekday browser (getThanksgivingDate server year) = Some "周四"
  /\ exists D, 22 <= D <= 28
       /\ Routes.formatDate browser (getThanksgivingDate server year)
          = "11月" +:+ JS.numberToString D +:+ "日".
Proof.
  intros Hz Hy.
  destruct (getThanksgivingDate_showYmd server year Hy) as (D & HD & -> & Hthu).
  assert (Hv : validDate (year, 11, D)).
  { split; [exact Hy|]. split; [lia|].
    change (JSDate.daysInMonth year 11) with 30. lia. }
  split.
  - rewrite getWeekday_valid by exact Hv.
    replace (LocalTZA browser / JSDate.msPerDay) with 0
      by (unfold JSDate.msPerDay in *; lia).
    replace (11 - 1) with 10 by lia. rewrite Z.add_0_r, Hthu. reflexivity.
  - exists D. split; [exact HD|].
    rewrite (formatDate_valid browser year 11 D Hv).
    replace (LocalTZA browser / JSDate.msPerDay) with 0
      by (unfold JSDate.msPerDay in *; lia).
    rewrite Z.add_0_r.
    rewrite (civilOfDay_MakeDay year 11 D (proj2 Hv)). reflexivity.
Qed.

Lemma formatDate_local_day_witness :
  Routes.formatDate westernHost (showYmd (2024, 10, 1))
  = (let '(_, m, d) := localDayOf westernHost (2024, 10, 1) in
     JS.numberToString m +:+ "月" +:+ JS.numberToString d +:+ "日").
Proof.
  apply (formatDate_local_day westernHost).
  - vm_compute. split; [discriminate | reflexivity].
  - vm_compute. intuition discriminate.
Defined.

Example formatDate_west_of_UTC :
  Routes.formatDate westernHost "2024-10-01" = "9月30日"
  /\ Routes.formatDate sampleHost "2024-10-01" = "10月1日"
  /\ Routes.getWeekday westernHost "2024-10-01" = Some "周一"
  /\ Routes.getWeekday sampleHost "2024-10-01" = Some "周二".
Proof. vm_compute. repeat split; reflexivity. Qed.

Lemma page_shows_thanksgiving_on_thursday_witness :
  Routes.getWeekday sampleHost (getThanksgivingDate westernHost 2024) = Some "周四"
  /\ exists D, 22 <= D <= 28
       /\ Routes.formatDate sampleHost (getThanksgivingDate westernHost 2024)
          = "11月" +:+ JS.numberToString D +:+ "日".
Proof.
  apply (page_shows_thanksgiving_on_thursday westernHost sampleHost 2024).
  - vm_compute. split; [discriminate | reflexivity].
  - lia.
Defined.

(** ** The supplementary holidays *)

Section HolidayDates.
Import ExtraHolidays.
Variable h : Host.

Lemma fixedHoliday_date year n m d md c text :
  1000 <= year <= 9999 -> 1 <= m <= 12 ->
  1 <= d <= 28 \/ (d = 31 /\ m = 10) ->
  "-" +:+ pad2 m +:+ "-" +:+ pad2 d = md ->
  exists a, validDate a /\ date (fixedHoliday year n md c text) = showYmd a.
Proof.
  intros Hy Hm Hd <-. exists (year, m, d). split.
  - split; [exact Hy|]. split; [exact Hm|].
    pose proof (daysInMonth_range year m) as R.
    destruct Hd as [Hd|[-> ->]]; [lia|].
    change (JSDate.daysInMonth year 10) with 31. lia.
  - reflexivity.
Qed.

Lemma lunarHoliday_date f year n d hol :
  lunarDatesValid h -> In hol (lunarHoliday h f year n d) ->
  exists a, validDate a /\ date hol = showYmd a.
Proof.
  intros Hvalid. unfold lunarHoliday, getLunarFestivalDate.
  rewrite lunarToSolar_package.
  destruct (lunarToSolarYmd h _ _ _) as [[[y m] dd]|] eqn:E;
    cbn [option_map]; [|intros []].
  destruct (JS.truthyString _); [|intros []].
  intros [<-|[]]. exists (y, m, dd). split; [exact (Hvalid _ _ _ _ _ _ E)|].
  reflexivity.
Qed.

Ltac fixed_on m d :=
  match goal with
  | Hy : 1000 <= ?year <= 9999 |- _ =>
      apply (fixedHoliday_date year _ m d _ _ _ Hy);
      [lia | first [left; lia | right; lia] | reflexivity]
  end.

(** X27: where the lunar package answers with days of the calendar,
    every holiday of [getExtraHolidays] of a year from 1000 to 9999 is
    dated by a day of the calendar in the format [YYYY-MM-DD]. *)
Theorem getExtraHolidays_dates (year : Z) (hol : Holiday) :
  lunarDatesValid h -> 1000 <= year <= 9999 ->
  In hol (getExtraHolidays h year) ->
  exists a, validDate a /\ date hol = showYmd a.
Proof.
  intros Hvalid Hy Hin. unfold getExtraHolidays in Hin.
  apply in_app_or in Hin as [Hin|Hin]; [|apply in_app_or in Hin as [Hin|Hin]].
  - unfold getFixedHolidays in Hin.
    destruct Hin as [<-|[<-|[<-|[<-|[<-|[<-|[<-|[<-|[<-|[<-|[<-|[<-|[<-|[]]]]]]]]]]]]]];
      [ fixed_on 2 14 | fixed_on 3 14 | fixed_on 4 1 | fixed_on 10 31
      | fixed_on 12 24 | fixed_on 12 25 | fixed_on 5 20 | fixed_on 11 11
      | fixed_on 12 12 | fixed_on 3 8 | fixed_on 5 4 | fixed_on 6 1
      | fixed_on 9 10 ].
  - destruct Hin as [<-|[]]. cbn [date].
    destruct (getThanksgivingDate_showYmd h year Hy) as (D & HD & -> & _).
    exists (year, 11, D). split; [|reflexivity].
    split; [exact Hy|]. split; [lia|].
    change (JSDate.daysInMonth year 11) with 30. lia.
  - unfold getLunarHolidays in Hin.
    repeat (apply in_app_or in Hin as [Hin|Hin];
            [exact (lunarHoliday_date _ _ _ _ _ Hvalid Hin)|]).
    exact (lunarHoliday_date _ _ _ _ _ Hvalid Hin).
Qed.

Lemma yearsFromTo_In startYear endYear y :
  In y (yearsFromTo startYear endYear) <-> startYear <= y <= endYear.
Proof.
  unfold yearsFromTo. rewrite in_map_iff. split.
  - intros (i & <- & Hi). apply in_seq in Hi. lia.
  - intros Hy. exists (Z.to_nat (y - startYear)). split; [lia|].
    apply in_seq. lia.
Qed.

(** X28: the loop of [getExtraHolidaysForYears]: a holiday is in the
    result exactly when it is a holiday of a year from [startYear] to
    [endYear]; the result is empty when [endYear] is before [startYear],
    and otherwise it is the holidays of [startYear] followed by those of
    the years after it. *)
Theorem getExtraHolidaysForYears_years (startYear endYear : Z) :
  (forall hol,
     In hol (getExtraHolidaysForYears h startYear endYear)
     <-> exists year, startYear <= year <= endYear
                      /\ In hol (getExtraHolidays h year))
  /\ (endYear < startYear -> getExtraHolidaysForYears h startYear endYear = [])
  /\ (startYear <= endYear ->
      getExtraHolidaysForYears h startYear endYear
      = getExtraHolidays h startYear
        ++ getExtraHolidaysForYears h (startYear + 1) endYear).
Proof.
  unfold getExtraHolidaysForYears. split; [|split].
  - intros hol. rewrite in_flat_map. split.
    + intros (y & Hy & Hin). exists y. split; [|exact Hin].
      now apply yearsFromTo_In.
    + intros (y & Hy & Hin). exists y. split; [|exact Hin].
      now apply yearsFromTo_In.
  - intros Hlt. unfold yearsFromTo.
    replace (Z.to_nat (endYear - startYear + 1)) with 0%nat by lia. reflexivity.
  - intros Hle. unfold yearsFromTo.
    replace (Z.to_nat (endYear - startYear + 1))
      with (S (Z.to_nat (endYear - (startYear + 1) + 1))) by lia.
    cbn [seq map flat_map]. rewrite Z.add_0_r. f_equal.
    rewrite <- seq_shift, map_map. f_equal. apply map_ext. intros i. lia.
Qed.

End HolidayDates.

Lemma sampleHost_lunarDatesValid : lunarDatesValid sampleHost.
Proof.
  intros ly lm ld y m d. cbn [lunarToSolarYmd sampleHost].
  repeat (destruct (_ && _);
          [intros [= <- <- <-]; vm_compute; intuition discriminate|]).
  discriminate.
Qed.

Lemma getExtraHolidays_dates_witness :
  exists a, validDate a
            /\ ExtraHolidays.date
                 (ExtraHolidays.fixedHoliday 2024 "万圣节" "-10-31"
                    ExtraHolidays.western "西方鬼节") = showYmd a.
Proof.
  apply (getExtraHolidays_dates sampleHost 2024).
  - exact sampleHost_lunarDatesValid.
  - lia.
  - vm_compute. do 3 right. left. reflexivity.
Defined.

(** ** The badge of the page and the line of the feed *)

(** Of the lines of an event only the line of the special day begins with
    the letter X. *)
Lemma eventLines_special now event l :
  JS.startsWith "X" l = true ->
  (In l (eventLines now event) <-> In l (specialDayLines event)).
Proof.
  intros Hl. unfold eventLines. fold (specialDayLines event).
  generalize (formatDateToICS (Some now)). intros stamp.
  rewrite !in_app_iff. split; [|tauto].
  assert (Hx : forall c p s, c <> "X"%char -> String c p +:+ s <> l).
  { intros c p s Hc <-. rewrite append_cons in Hl.
    unfold JS.startsWith in Hl. cbn [String.prefix] in Hl.
    destruct (ascii_dec "X" c); [congruence | discriminate]. }
  intros [H|[H|[H|[H|[H|[H|H]]]]]]; try exact H; exfalso.
  - destruct H as [<-|[E|[E|[E|[]]]]]; [vm_compute in Hl; discriminate Hl| | |];
      revert E; apply Hx; discriminate.
  - destruct (JS.truthyString (endDate event)); [|contradiction].
    destruct (endDate event); [|contradiction].
    destruct H as [E|[]]. revert E; apply Hx; discriminate.
  - destruct H as [E|[]]. revert E; apply Hx; discriminate.
  - destruct (JS.truthyString (description event)); [|contradiction].
    destruct (description event); [|contradiction].
    destruct H as [E|[]]. revert E; apply Hx; discriminate.
  - destruct H as [<-|[<-|[]]]; vm_compute in Hl; discriminate Hl.
  - destruct H as [<-|[]]; vm_compute in Hl; discriminate Hl.
Qed.

(** X29: the badge of the page and the special-day line of the feed
    agree: the badge is [休] exactly when [generateICS] writes the line
    [WORK-HOLIDAY] for the event and [班] exactly when it writes
    [ALTERNATE-WORKDAY]; there is no badge exactly for an upstream event
    with neither flag. *)
Theorem getEventBadge_matches_feed (now : Z) (event : CalendarEvent) :
  (option_map Routes.badgeText (Routes.getEventBadge event) = Some "休"
   <-> In "X-APPLE-SPECIAL-DAY:WORK-HOLIDAY" (eventLines now event))
  /\ (option_map Routes.badgeText (Routes.getEventBadge event) = Some "班"
      <-> In "X-APPLE-SPECIAL-DAY:ALTERNATE-WORKDAY" (eventLines now event))
  /\ (Routes.getEventBadge event = None
      <-> JS.truthyBool (isHoliday event) = false
          /\ JS.truthyBool (isWorkday event) = false
          /\ source event = icloud).
Proof.
  rewrite !eventLines_special by reflexivity.
  unfold Routes.getEventBadge, specialDayLines.
  destruct (JS.truthyBool (isHoliday event)), (JS.truthyBool (isWorkday event)),
    (source event); cbn [option_map Routes.badgeText In];
    repeat split; intros; try discriminate; try tauto;
    try (left; reflexivity);
    repeat match goal with
           | H : _ \/ _ |- _ => destruct H
           | H : _ /\ _ |- _ => destruct H
           | H : False |- _ => destruct H
           end; try discriminate; try reflexivity.
Qed.

(** ** The supplementary holidays in the pipeline *)

(** A key that begins with a day of the calendar and a hyphen belongs to
    an event whose date begins with the year of that day. *)
Lemma eventKey_year (e : CalendarEvent) (y m d : Z) (rest : string) :
  validDate (y, m, d) ->
  eventKey e = showYmd (y, m, d) +:+ "-" +:+ rest ->
  yearOf e = Some y.
Proof.
  intros Hv Hkey. rewrite <- (parseInt_year y m d Hv).
  pose proof (daysInMonth_range y m) as R. destruct Hv as [Hy [Hm Hd]].
  destruct (showYmd_chars y m d) as
    (a & b & c & e0 & m1 & m2 & d1 & d2 & Hshow & _ & _ & _
     & Ha & Hb & Hc & He & _); [lia | lia | lia |].
  rewrite Hshow in Hkey |- *. unfold yearOf, eventKey in *.
  unfold dateChars in *.
  destruct (date e) as [|c1 [|c2 [|c3 [|c4 tail]]]];
    rewrite ?append_cons, ?append_nil in Hkey; inversion Hkey; subst;
    try (vm_compute in Ha; discriminate Ha);
    try (vm_compute in Hb; discriminate Hb);
    try (vm_compute in Hc; discriminate Hc);
    try (vm_compute in He; discriminate He).
  f_equal. unfold JS.slice. cbn [Nat.sub substring]. now destruct tail.
Qed.

Lemma lastWithKey_present k events e :
  In e events -> eventKey e = k ->
  exists e', lastWithKey k events = Some e' /\ eventKey e' = k /\ In e' events.
Proof.
  intros Hin Hk. unfold lastWithKey.
  destruct (List.find _ (rev events)) as [e'|] eqn:E.
  - apply find_some in E as [Hin' Hk']. apply String.eqb_eq in Hk'.
    exists e'. split; [reflexivity|]. split; [exact Hk'|].
    now apply in_rev.
  - apply in_rev in Hin. pose proof (find_none _ _ E e Hin) as Hne.
    cbv beta in Hne. apply String.eqb_neq in Hne. contradiction.
Qed.

(** X30: when [getCalendarData] returns, a supplementary holiday of one of
    the three years that is dated by a day of the calendar of one of these
    years is not lost: the events have an event of its key, the holiday
    itself or an upstream event that took its place. *)
Theorem getCalendarData_keeps_holidays (h : Host)
    (net : string -> option Response) (icalError : string -> string)
    (nowGet nowSet today : Z) (icloudUrl : string) (w : World)
    (events : list CalendarEvent) (year : Z) (hol : ExtraHolidays.Holiday)
    (a : Z * Z * Z) :
  fst (getCalendarData h net icalError nowGet nowSet today icloudUrl w)
  = Returned events ->
  JSDate.YearFromTime (JSDate.LocalTime h today) - 1 <= year
  <= JSDate.YearFromTime (JSDate.LocalTime h today) + 1 ->
  In hol (ExtraHolidays.getExtraHolidays h year) ->
  validDate a -> ExtraHolidays.date hol = showYmd a ->
  JSDate.YearFromTime (JSDate.LocalTime h today) - 1 <= fst (fst a)
  <= JSDate.YearFromTime (JSDate.LocalTime h today) + 1 ->
  exists e, In e events
            /\ eventKey e = ExtraHolidays.date hol +:+ "-" +:+ ExtraHolidays.name hol.
Proof.
  unfold getCalendarData.
  destruct (fetchICSFromURL net nowGet nowSet icloudUrl defaultFetchTtl w)
    as [[icsContent|message] w']; [|discriminate].
  destruct (parseICS h icsContent) as [icloudEvents|]; [|discriminate].
  set (Y := JSDate.YearFromTime (JSDate.LocalTime h today)).
  cbn [getYearRange fst]. intros [= <-] Hyear Hhol Ha Hdate Hay.
  set (k := ExtraHolidays.date hol +:+ "-" +:+ ExtraHolidays.name hol).
  assert (Hin : In (holidayToEvent hol) (mergeInputs h icloudEvents (Y - 1) (Y + 1))).
  { unfold mergeInputs. apply in_or_app. left. apply in_map.
    unfold ExtraHolidays.getExtraHolidaysForYears. apply in_flat_map.
    exists year. split; [now apply yearsFromTo_In | exact Hhol]. }
  destruct (lastWithKey_present k _ _ Hin eq_refl) as (e & Hlast & Hk & _).
  rewrite <- eventMap_get in Hlast.
  apply Map_get_In in Hlast; [|apply eventMap_NoDup].
  exists e. split; [|exact Hk].
  unfold filterEventsByYears. apply filter_In. split.
  - rewrite mergeEvents_eventMap. apply Array_sort_In. unfold Map_values.
    change e with (snd (k, e)). now apply in_map.
  - destruct a as [[y m] d]. cbn [fst] in Hay.
    fold (yearOf e). unfold k in Hk. rewrite Hdate in Hk.
    rewrite (eventKey_year e y m d _ Ha Hk). cbn [Set_has existsb].
    destruct (Z.eqb_spec y (Y - 1)), (Z.eqb_spec y Y), (Z.eqb_spec y (Y + 1));
      cbn [orb]; try reflexivity; lia.
Qed.

Lemma getCalendarData_keeps_holidays_witness :
  exists e, In e sampleCalendarData
            /\ eventKey e
               = ExtraHolidays.date
                   (ExtraHolidays.fixedHoliday 2024 "万圣节" "-10-31"
                      ExtraHolidays.western "西方鬼节")
                 +:+ "-"
                 +:+ ExtraHolidays.name
                       (ExtraHolidays.fixedHoliday 2024 "万圣节" "-10-31"
                          ExtraHolidays.western "西方鬼节").
Proof.
  apply (getCalendarData_keeps_holidays sampleHost feedNet noMessage 0 1
           juneFirst2024 Routes.ICLOUD_CN_URL coldWorld sampleCalendarData
           2024 _ (2024, 10, 31)).
  - vm_compute. reflexivity.
  - vm_compute. split; discriminate.
  - vm_compute. do 3 right. left. reflexivity.
  - vm_compute. intuition discriminate.
  - vm_compute. reflexivity.
  - vm_compute. split; discriminate.
Defined.
